(** * Graphical soundscapes: peak detection, density encoding, aggregation

    A shallow embedding of [graphical_soundscapes/gs_utils.py] and the
    properties its specification states about it.

    Conventions of the embedding.
    - Python floats (spectrogram amplitudes in dB, axis values, densities)
      are exact rationals [Q]: every finite float is one and comparisons
      agree; a float quotient is the rounding of the rational one, and the
      roundings a float sum accumulates are left out.  Where the rounding is
      the point (the order in which a mean is accumulated), the sum is taken
      in binary64, in [Module Float64].
    - A 2-D [ndarray] is a list of rows.  An array index is a [nat], a
      Python [int] parameter is a [Z].
    - A call that may raise returns a [result]; [Raise] carries the Python
      exception.
    - The calls into numpy, scikit-image and pandas are modelled by what the
      call computes with the arguments [gs_utils.py] passes (all other keyword
      arguments at their defaults); each is named after the library function.
    - Audio decoding and the spectrogram transform are external: they are
      the [Variable]s of [Section Pipeline]. *)

From Stdlib Require Import String Ascii.
From Stdlib Require Import List ZArith QArith Bool Arith Lia Lqa.
From Stdlib Require Import Permutation Sorted Qround Qabs.
From Stdlib Require Floats.
Import ListNotations.

Local Open Scope string_scope.
Local Open Scope list_scope.
Local Open Scope nat_scope.

(** ** Exceptions and results *)

Inductive exception : Type :=
| ValueError (msg : string)
| IndexError
| AttributeError (attr : string)
| UnboundLocalError (var : string)
| OSError (path : string).

Inductive result (A : Type) : Type :=
| Ok (a : A)
| Raise (e : exception).

Arguments Ok {A} a.
Arguments Raise {A} e.

Definition bind {A B : Type} (m : result A) (k : A -> result B) : result B :=
  match m with
  | Ok a => k a
  | Raise e => Raise e
  end.

Notation "x <- m ;; k" := (bind m (fun x => k))
  (at level 61, m at next level, right associativity).
Notation "' pat <- m ;; k" := (bind m (fun x => match x with pat => k end))
  (at level 61, pat pattern, m at next level, right associativity).

Definition is_ok {A : Type} (m : result A) : bool :=
  match m with Ok _ => true | Raise _ => false end.

(** [mapM f xs]: apply [f] left to right, stop at the first exception. *)
Fixpoint mapM {A B : Type} (f : A -> result B) (xs : list A) : result (list B) :=
  match xs with
  | [] => Ok []
  | x :: xs' => y <- f x ;; ys <- mapM f xs' ;; Ok (y :: ys)
  end.

(** ** Rational comparisons, as booleans *)

Definition Qltb (a b : Q) : bool :=
  match (a ?= b)%Q with Lt => true | _ => false end.

Definition Qeqb (a b : Q) : bool :=
  match (a ?= b)%Q with Eq => true | _ => false end.

Definition qmin (a b : Q) : Q := if Qltb b a then b else a.
Definition qmax (a b : Q) : Q := if Qltb a b then b else a.

(** ** numpy *)

Module Np.

Definition matrix : Type := list (list Q).

Definition nrows (M : matrix) : nat := length M.
Definition ncols (M : matrix) : nat := length (hd [] M).
(** [M.size] *)
Definition size (M : matrix) : nat := nrows M * ncols M.
(** [M[r, c]] for an index inside the array. *)
Definition item (M : matrix) (r c : nat) : Q := nth c (nth r M []) 0%Q.

Definition zero_size_msg : string :=
  "zero-size array to reduction operation minimum which has no identity".

(** [M.min()] *)
Definition amin (M : matrix) : result Q :=
  match concat M with
  | [] => Raise (ValueError zero_size_msg)
  | x :: xs => Ok (fold_left qmin xs x)
  end.

(** [v[idx]] for an integer index array [idx] of non-negative indices:
    [IndexError] when one is out of bounds. *)
Definition take (v : list Q) (idx : list nat) : result (list Q) :=
  mapM (fun i => match nth_error v i with
                 | Some x => Ok x
                 | None => Raise IndexError
                 end) idx.

(** [np.transpose(np.nonzero(mask))]: the cells where [mask] holds, in
    row-major order. *)
Definition argwhere (nr nc : nat) (mask : nat -> nat -> bool) : list (nat * nat) :=
  flat_map (fun r => map (pair r) (filter (mask r) (seq 0 nc))) (seq 0 nr).

(** [np.all(mask)] over an [nr] x [nc] array. *)
Definition all (nr nc : nat) (mask : nat -> nat -> bool) : bool :=
  forallb (fun r => forallb (mask r) (seq 0 nc)) (seq 0 nr).

(** [np.delete(v, rejected, axis=0)] *)
Definition delete {A : Type} (v : list A) (rejected : list nat) : list A :=
  map snd (filter (fun ix => negb (existsb (Nat.eqb (fst ix)) rejected))
                  (combine (seq 0 (length v)) v)).

End Np.

(** ** scikit-image: [skimage.feature.peak_local_max]

    The call of [spectrogram_local_max] passes [min_distance] and
    [threshold_abs]; [threshold_rel=None], [exclude_border=True],
    [num_peaks=inf], [footprint=None], [labels=None] and [p_norm=inf] are the
    defaults. *)

Module Skimage.
Import Np.

Definition coord : Type := (nat * nat)%type.

(** [_get_threshold] with [threshold_rel=None]. *)
Definition get_threshold (image : matrix) (threshold_abs : option Q) : result Q :=
  match threshold_abs with
  | Some t => Ok t
  | None => amin image
  end.

(** Index [i] brought back inside [0 .. n-1]: the [mode='nearest'] border
    rule of [scipy.ndimage.maximum_filter]. *)
Definition clamp (n : nat) (i : Z) : nat :=
  Z.to_nat (Z.max 0 (Z.min i (Z.of_nat n - 1))).

(** The offsets [-d .. d] of a footprint of side [2*d + 1]. *)
Definition offsets (d : nat) : list Z :=
  map (fun k => (Z.of_nat k - Z.of_nat d)%Z) (seq 0 (2 * d + 1)).

(** [ndi.maximum_filter(image, footprint=np.ones((2*d+1, 2*d+1)),
    mode='nearest')] at cell [(r, c)]. *)
Definition maximum_filter (image : matrix) (d : nat) (r c : nat) : Q :=
  fold_left qmax
    (flat_map (fun dr =>
       map (fun dc => item image (clamp (nrows image) (Z.of_nat r + dr))
                                 (clamp (ncols image) (Z.of_nat c + dc)))
           (offsets d))
       (offsets d))
    (item image r c).

(** [_get_peak_mask]: the candidates.  A footprint of one cell, or an image
    of one cell, keeps every cell above the threshold; otherwise a cell is a
    candidate when it equals the maximum of its neighbourhood and is above
    the threshold, and an image in which every cell equals that maximum
    ("trivial") has no candidate. *)
Definition get_peak_mask (image : matrix) (d : nat) (threshold : Q)
  : nat -> nat -> bool :=
  let above := fun r c => Qltb threshold (item image r c) in
  if ((2 * d + 1) * (2 * d + 1) =? 1) || (size image =? 1) then above
  else
    let out := fun r c => Qeqb (item image r c) (maximum_filter image d r c) in
    if all (nrows image) (ncols image) out
    then fun _ _ => false
    else fun r c => out r c && above r c.

(** Index [i] of an axis of length [n] survives [label[:w] = 0] and
    [label[-w:] = 0]. *)
Definition inside (n w i : nat) : bool := (w <=? i) && (i + w <? n).

(** [_exclude_border] with [border_width = (w, w)]. *)
Definition exclude_border (label : nat -> nat -> bool) (nr nc w : nat)
  : nat -> nat -> bool :=
  if w =? 0 then label
  else fun r c => label r c && inside nr w r && inside nc w c.

(** Minkowski distance with [p = inf] between two index pairs. *)
Definition chebyshev (p q : coord) : Z :=
  Z.max (Z.abs (Z.of_nat (fst p) - Z.of_nat (fst q)))
        (Z.abs (Z.of_nat (snd p) - Z.of_nat (snd q))).

(** One turn of the loop of [_ensure_spacing]: a point that is not yet
    rejected rejects every other point closer than [spacing]. *)
Definition reject_step (coords : list coord) (spacing : Z)
           (rejected : list nat) (idx : nat) : list nat :=
  if existsb (Nat.eqb idx) rejected then rejected
  else rejected ++
       filter (fun c => negb (c =? idx) &&
                        Z.ltb (chebyshev (nth idx coords (0, 0))
                                         (nth c coords (0, 0)))
                              spacing)
              (seq 0 (length coords)).

Definition rejected_peaks_indices (coords : list coord) (spacing : Z) : list nat :=
  fold_left (reject_step coords spacing) (seq 0 (length coords)) [].

(** [ensure_spacing(coord, spacing=min_distance, p_norm=inf, max_out=None)].
    The library feeds the candidates to this pass in batches, each batch
    together with the survivors so far; a survivor is never rejected by a
    later point, so the batches select what a single pass selects. *)
Definition ensure_spacing (coords : list coord) (spacing : Z) : list coord :=
  delete coords (rejected_peaks_indices coords spacing).

(** [np.argsort(-intensities, kind="stable")] applied to the candidates:
    highest intensity first, ties in the order they had. *)
Fixpoint insert_by_intensity (image : matrix) (p : coord) (l : list coord)
  : list coord :=
  match l with
  | [] => [p]
  | q :: l' =>
      if Qltb (item image (fst p) (snd p)) (item image (fst q) (snd q))
      then q :: insert_by_intensity image p l'
      else p :: l
  end.

Definition sort_by_intensity (image : matrix) (l : list coord) : list coord :=
  fold_right (insert_by_intensity image) [] l.

(** [_get_high_intensity_peaks] with [num_peaks=inf]. *)
Definition get_high_intensity_peaks (image : matrix) (mask : nat -> nat -> bool)
           (min_distance : Z) : list coord :=
  ensure_spacing
    (sort_by_intensity image (argwhere (nrows image) (ncols image) mask))
    min_distance.

Definition negative_dims_msg : string := "negative dimensions are not allowed".

(** [peak_local_max(image, min_distance=min_distance,
    threshold_abs=threshold_abs)].  A negative [min_distance] makes the
    footprint [np.ones((2*min_distance+1,)*2)] raise. *)
Definition peak_local_max (image : matrix) (min_distance : Z)
           (threshold_abs : option Q) : result (list coord) :=
  threshold <- get_threshold image threshold_abs ;;
  if (min_distance <? 0)%Z then Raise (ValueError negative_dims_msg)
  else
    let d := Z.to_nat min_distance in
    let mask := exclude_border (get_peak_mask image d threshold)
                               (nrows image) (ncols image) d in
    Ok (get_high_intensity_peaks image mask min_distance).

End Skimage.

(** ** [spectrogram_local_max] *)

Definition below_minimum_msg : string :=
  "Value for minimum peak amplitude is below minimum value on spectrogram".

(** The validation at the head of [spectrogram_local_max]. *)
Definition validate_threshold (Sxx : Np.matrix) (threshold_abs : option Q)
  : result unit :=
  match threshold_abs with
  | Some t =>
      m <- Np.amin Sxx ;;
      if Qltb t m then Raise (ValueError below_minimum_msg) else Ok tt
  | None => Ok tt
  end.

(** [spectrogram_local_max(Sxx, tn, fn, ext, min_distance, threshold_abs)]
    with [display=False] and no further keyword argument; [ext] is only read
    by the plot.  Returns [(peak_time, peak_frequency)]. *)
Definition spectrogram_local_max (Sxx : Np.matrix) (tn fn : list Q)
           (min_distance : Z) (threshold_abs : option Q)
  : result (list Q * list Q) :=
  _ <- validate_threshold Sxx threshold_abs ;;
  peaks <- Skimage.peak_local_max Sxx min_distance threshold_abs ;;
  peak_time <- Np.take tn (map snd peaks) ;;
  peak_frequency <- Np.take fn (map fst peaks) ;;
  Ok (peak_time, peak_frequency).

(** ** numpy, continued: the calls of the density encoder *)

Module NpCount.

(** One more occurrence of [x] in a table of (value, count) kept in
    increasing order of value. *)
Fixpoint count_in (x : Q) (l : list (Q * nat)) : list (Q * nat) :=
  match l with
  | [] => [(x, 1)]
  | (y, n) :: l' =>
      match (x ?= y)%Q with
      | Lt => (x, 1) :: l
      | Eq => (y, S n) :: l'
      | Gt => (y, n) :: count_in x l'
      end
  end.

(** [np.unique(v, return_counts=True)]: the distinct values in increasing
    order, and how often each occurs. *)
Definition unique_counts (v : list Q) : list Q * list nat :=
  List.split (fold_right count_in [] v).

(** [np.isin(v, test)] *)
Definition isin (v test : list Q) : list bool :=
  map (fun x => existsb (Qeqb x) test) v.

(** [np.where(mask)[0]]: the indices at which [mask] is true. *)
Fixpoint where_ (mask : list bool) : list nat :=
  match mask with
  | [] => []
  | b :: mask' =>
      if b then 0 :: map S (where_ mask') else map S (where_ mask')
  end.

(** [a[i] = x] for [i] inside [a]. *)
Fixpoint update (a : list Q) (i : nat) (x : Q) : list Q :=
  match a, i with
  | [], _ => []
  | _ :: a', 0 => x :: a'
  | y :: a', S i' => y :: update a' i' x
  end.

Definition shape_mismatch_msg : string :=
  "shape mismatch: value array could not be broadcast to indexing result".

(** [a[indices] = vals] for index and value arrays of one dimension: the
    values are assigned position by position when the lengths agree, one
    value is broadcast to every index, and any other pair of lengths
    raises. *)
Definition setitem (a : list Q) (indices : list nat) (vals : list Q)
  : result (list Q) :=
  if length vals =? length indices then
    Ok (fold_left (fun a iv => update a (fst iv) (snd iv)) (combine indices vals) a)
  else
    match vals with
    | [x] => Ok (fold_left (fun a i => update a i x) indices a)
    | _ => Raise (ValueError shape_mismatch_msg)
    end.

End NpCount.

(** ** The per-recording density (the body of the loop, after the peaks)

    [count_freq / len(tn)] is the rational quotient; the model is only read
    where [len(tn) > 0] or no peak was found, as is always so inside
    [graphical_soundscape] (a peak has a time coordinate taken from [tn]). *)
Definition peak_density (fn tn peak_freq : list Q) : result (list Q) :=
  let '(freq_idx, count_freq) := NpCount.unique_counts peak_freq in
  let count_peak := repeat 0%Q (length fn) in
  let bool_index := NpCount.isin fn freq_idx in
  let indices := NpCount.where_ bool_index in
  NpCount.setitem count_peak indices
    (map (fun c => (inject_Z (Z.of_nat c) / inject_Z (Z.of_nat (length tn)))%Q)
         count_freq).

(** ** pandas: the frame of densities and its mean by hour *)

Module Pd.

(** A [Series] of densities: its name and its values by frequency. *)
Record Series : Type := mkSeries {
  name : string;
  index : list Q;
  values : list Q
}.

(** The frame [res]: the rows added so far, first to last. *)
Definition Frame : Type := list Series.

(** [pd.concat([res, s.to_frame().T])] *)
Definition concat (res : Frame) (s : Series) : Frame := res ++ [s].

(** Labels of [new] that [cols] lacks are added behind it. *)
Fixpoint add_labels (cols new : list Q) : list Q :=
  match new with
  | [] => cols
  | f :: new' =>
      add_labels (if existsb (Qeqb f) cols then cols else cols ++ [f]) new'
  end.

(** The columns of the frame: the union of the rows' labels in order of
    first appearance. *)
Definition columns (res : Frame) : list Q :=
  fold_left (fun cols s => add_labels cols (index s)) res [].

Fixpoint lookup (f : Q) (idx vals : list Q) : option Q :=
  match idx, vals with
  | g :: idx', v :: vals' => if Qeqb f g then Some v else lookup f idx' vals'
  | _, _ => None
  end.

(** The cell of row [s] in column [f]; [None] is [NaN], a column the row
    does not have. *)
Definition cell (s : Series) (f : Q) : option Q := lookup f (index s) (values s).

Definition row_of (cols : list Q) (s : Series) : list (option Q) :=
  map (cell s) cols.

(** The running sum and number of observations of one group, by column.
    The sums are exact; the rounding that pandas adds at every step of a
    binary64 sum, and with it the effect of the order of the rows on the last
    bits of a mean, is in [Float64]. *)
Record Group : Type := mkGroup {
  key : Z;
  acc : list (Q * nat)
}.

Definition observe (a : Q * nat) (v : option Q) : Q * nat :=
  match v with
  | Some x => ((fst a + x)%Q, S (snd a))
  | None => a
  end.

Definition add_obs (g : Group) (row : list (option Q)) : Group :=
  mkGroup (key g) (map (fun av => observe (fst av) (snd av)) (combine (acc g) row)).

Definition new_group (h : Z) (row : list (option Q)) : Group :=
  add_obs (mkGroup h (repeat (0%Q, 0) (length row))) row.

(** The groups are kept in increasing order of key ([sort=True]). *)
Fixpoint add_row (h : Z) (row : list (option Q)) (groups : list Group)
  : list Group :=
  match groups with
  | [] => [new_group h row]
  | g :: groups' =>
      match (h ?= key g)%Z with
      | Lt => new_group h row :: groups
      | Eq => add_obs g row :: groups'
      | Gt => g :: add_row h row groups'
      end
  end.

Definition mean_cell (a : Q * nat) : option Q :=
  if snd a =? 0 then None
  else Some (fst a / inject_Z (Z.of_nat (snd a)))%Q.

(** The soundscape matrix: its frequency columns and one row per hour. *)
Record Matrix : Type := mkMatrix {
  m_columns : list Q;
  m_rows : list (Z * list (option Q))
}.

Definition length_mismatch_msg : string :=
  "Length of values does not match length of index".

(** [res["time"] = time] followed by [res.groupby("time").mean()]. *)
Definition groupby_mean (res : Frame) (time : list Z) : result Matrix :=
  if length time =? length res then
    let cols := columns res in
    let groups :=
      fold_left (fun gs sh => add_row (snd sh) (row_of cols (fst sh)) gs)
                (combine res time) [] in
    Ok (mkMatrix cols (map (fun g => (key g, map mean_cell (acc g))) groups))
  else Raise (ValueError length_mismatch_msg).

End Pd.

(** ** Strings: the few Python string operations the module uses *)

Module Str.

Definition is_space (c : ascii) : bool :=
  let n := nat_of_ascii c in
  ((9 <=? n) && (n <=? 13)) || ((28 <=? n) && (n <=? 32)).

Definition digit_of (c : ascii) : option Z :=
  let n := nat_of_ascii c in
  if (48 <=? n) && (n <=? 57) then Some (Z.of_nat (n - 48)) else None.

Fixpoint lstrip (s : list ascii) : list ascii :=
  match s with
  | c :: s' => if is_space c then lstrip s' else s
  | [] => []
  end.

Definition strip (s : list ascii) : list ascii := rev (lstrip (rev (lstrip s))).

(** Decimal digits, a single underscore allowed between two digits. *)
Fixpoint digits (s : list ascii) (prev_digit : bool) (n : Z) : option Z :=
  match s with
  | [] => if prev_digit then Some n else None
  | c :: s' =>
      match digit_of c with
      | Some k => digits s' true (10 * n + k)%Z
      | None =>
          if (nat_of_ascii c =? 95) && prev_digit
          then match s' with
               | [] => None
               | _ => digits s' false n
               end
          else None
      end
  end.

Definition invalid_literal_msg : string := "invalid literal for int() with base 10".

(** [int(s)] *)
Definition int (s : string) : result Z :=
  let parsed :=
    match strip (list_ascii_of_string s) with
    | c :: s' =>
        if nat_of_ascii c =? 45 then option_map Z.opp (digits s' false 0)
        else if nat_of_ascii c =? 43 then digits s' false 0
        else digits (c :: s') false 0
    | [] => None
    end in
  match parsed with
  | Some n => Ok n
  | None => Raise (ValueError invalid_literal_msg)
  end.

Definition lower_ascii (c : ascii) : ascii :=
  let n := nat_of_ascii c in
  if (65 <=? n) && (n <=? 90) then ascii_of_nat (n + 32) else c.

(** [s.lower()] *)
Definition lower (s : string) : string :=
  string_of_list_ascii (map lower_ascii (list_ascii_of_string s)).

(** [s.endswith(suffix)] *)
Definition endswith (s suffix : string) : bool :=
  let n := String.length s in
  let k := String.length suffix in
  (k <=? n) && String.eqb (substring (n - k) k s) suffix.

(** [os.path.basename(p)]: what follows the last slash. *)
Fixpoint basename_aux (p : list ascii) (cur : list ascii) : list ascii :=
  match p with
  | [] => rev cur
  | c :: p' => if nat_of_ascii c =? 47 then basename_aux p' [] else basename_aux p' (c :: cur)
  end.

Definition basename (p : string) : string :=
  string_of_list_ascii (basename_aux (list_ascii_of_string p) []).

End Str.

(** ** The metadata table *)

(** The [DataFrame] of recordings: its column names and its rows of cells,
    each cell a string. *)
Record DataFrame : Type := mkDataFrame {
  df_columns : list string;
  df_rows : list (list string)
}.

Fixpoint position (col : string) (cols : list string) : option nat :=
  match cols with
  | [] => None
  | c :: cols' =>
      if String.eqb col c then Some 0 else option_map S (position col cols')
  end.

(** [row.col], attribute access to a column. *)
Definition getattr (df : DataFrame) (row : list string) (col : string)
  : result string :=
  match position col (df_columns df) with
  | Some i => Ok (nth i row "")
  | None => Raise (AttributeError col)
  end.

(** [df.col] *)
Definition column (df : DataFrame) (col : string) : result (list string) :=
  match position col (df_columns df) with
  | Some i => Ok (map (fun row => nth i row "") (df_rows df))
  | None => Raise (AttributeError col)
  end.

(** One element of [df.time.str[0:2].astype(int)]. *)
Definition hour_label (t : string) : result Z := Str.int (substring 0 2 t).

(** What [graphical_soundscape] may be handed as [data_input]. *)
Inductive data_input : Type :=
| DataFrameInput (df : DataFrame)
| StrInput (s : string)
| OtherInput.

Definition bad_input_msg : string :=
  "Input 'data' must be either a Pandas DataFrame, a file path string, or None.".

(** ** The pipeline *)

Section Pipeline.

(** The file system and the metadata readers. *)
Variable isdir isfile : string -> bool.
Variable get_metadata_dir : string -> result DataFrame.
Variable read_csv : string -> result DataFrame.

(** [maad.sound.load], [maad.sound.resample], [maad.sound.spectrogram]
    (its [ext] left out) and [maad.util.power2dB]. *)
Variable Signal : Type.
Variable sound_load : string -> result (Signal * Z).
Variable sound_resample : Signal -> Z -> Z -> Signal.
Variable sound_spectrogram : Signal -> Z -> Z -> Z -> Np.matrix * list Q * list Q.
Variable power2dB : Np.matrix -> Q -> Np.matrix.

(** [input_validation].  The local [df] is bound by the two branches that
    read metadata and by no other; [None] is the unbound local. *)
Definition input_validation (data : data_input) : result DataFrame :=
  df <- match data with
        | DataFrameInput _ => Ok None
        | StrInput s =>
            if isdir s then
              df <- get_metadata_dir s ;; Ok (Some df)
            else if isfile s && Str.endswith (Str.lower s) ".csv" then
              df <- read_csv s ;; Ok (Some df)
            else Ok None
        | OtherInput => Raise (ValueError bad_input_msg)
        end ;;
  match df with
  | Some df => Ok df
  | None => Raise (UnboundLocalError "df")
  end.

Variable target_fs nperseg noverlap : Z.
Variable db_range : Q.
Variable min_distance : Z.
Variable threshold_abs : option Q.

(** The body of the loop for one row of the table: the density row of that
    recording. *)
Definition process_recording (df : DataFrame) (df_aux : list string)
  : result Pd.Series :=
  _ <- getattr df df_aux "fname" ;;
  path_audio <- getattr df df_aux "path_audio" ;;
  '(s, fs) <- sound_load path_audio ;;
  let s := sound_resample s fs target_fs in
  let '(Sxx, tn, fn) := sound_spectrogram s fs nperseg noverlap in
  let Sxx_db := power2dB Sxx db_range in
  '(peak_time, peak_freq) <-
    spectrogram_local_max Sxx_db tn fn min_distance threshold_abs ;;
  count_peak <- peak_density fn tn peak_freq ;;
  Ok (Pd.mkSeries (Str.basename path_audio) fn count_peak).

(** The loop over [df.iterrows()], [res] growing by one row per turn. *)
Fixpoint process_rows (df : DataFrame) (rows : list (list string))
         (res : Pd.Frame) : result Pd.Frame :=
  match rows with
  | [] => Ok res
  | df_aux :: rows' =>
      peak_density <- process_recording df df_aux ;;
      process_rows df rows' (Pd.concat res peak_density)
  end.

(** The tail of [graphical_soundscape]: the hour of each row of the table,
    then the mean by hour. *)
Definition aggregate (df : DataFrame) (res : Pd.Frame) : result Pd.Matrix :=
  time <- column df "time" ;;
  hours <- mapM hour_label time ;;
  Pd.groupby_mean res hours.

Definition graphical_soundscape (data : data_input) : result Pd.Matrix :=
  df <- input_validation data ;;
  res <- process_rows df (df_rows df) [] ;;
  aggregate df res.

End Pipeline.

(** ** Statements and sample data *)

(** A spectrogram with at least one cell, every cell equal to [c]. *)
Definition flat (Sxx : Np.matrix) (c : Q) : Prop :=
  concat Sxx <> [] /\ Forall (fun x => (x == c)%Q) (concat Sxx).

(** Both index pairs of a peak are at least [d] cells away from every border
    of [Sxx]. *)
Definition off_border (Sxx : Np.matrix) (d : Z) (p : Skimage.coord) : Prop :=
  (d <= Z.of_nat (fst p) < Z.of_nat (Np.nrows Sxx) - d)%Z /\
  (d <= Z.of_nat (snd p) < Z.of_nat (Np.ncols Sxx) - d)%Z.

(** A spectrogram whose floor is -80 dB, as [power2dB] with [db_range=80]
    leaves it. *)
Definition Sxx_floor : Np.matrix :=
  [[-80; -80; -80]; [-80; -10; -80]; [-80; -80; -80]]%Q.

Definition Sxx_flat : Np.matrix := [[5; 5]; [5; 5]]%Q.

(** A 5 x 5 spectrogram: a two-cell plateau in the middle, a lower local
    maximum beside it and the highest cell in a corner. *)
Definition Sxx_grid : Np.matrix :=
  [[0; 0; 0; 0; 0];
   [0; 1; 0; 0; 0];
   [0; 0; 5; 5; 0];
   [0; 0; 0; 0; 0];
   [9; 0; 0; 0; 0]]%Q.

(** A second 5 x 5 spectrogram, with three separate peaks. *)
Definition Sxx_other : Np.matrix :=
  [[0; 0; 0; 0; 0];
   [0; 0; 4; 0; 0];
   [0; 0; 0; 0; 0];
   [0; 7; 0; 3; 0];
   [0; 0; 0; 0; 0]]%Q.

Definition tn_grid : list Q := [0; 1; 2; 3; 4]%Q.
Definition fn_grid : list Q := [10; 20; 30; 40; 50]%Q.

(** The number of peaks at frequency [f]. *)
Definition count_at (f : Q) (peak_freq : list Q) : nat :=
  length (filter (Qeqb f) peak_freq).

(** The density the specification gives bin [f]: the number of peaks at [f]
    over the number [n] of time frames, and 0 where there is no peak. *)
Definition density_at (peak_freq : list Q) (n : nat) (f : Q) : Q :=
  match count_at f peak_freq with
  | 0 => 0%Q
  | c => (inject_Z (Z.of_nat c) / inject_Z (Z.of_nat n))%Q
  end.

(** The frequencies of the peaks at the cells [cells] of a spectrogram whose
    frequency axis is [fn], as [spectrogram_local_max] reads them off. *)
Definition freq_of_cells (fn : list Q) (cells : list Skimage.coord) : list Q :=
  map (fun p => nth (fst p) fn 0%Q) cells.

(** Entries of a table of counts, compared by value. *)
Definition lt_value (a b : Q * nat) : Prop := (fst a < fst b)%Q.

(** The arithmetic mean: the sum, taken from the left, over the length. *)
Definition mean (l : list Q) : Q :=
  (fold_left Qplus l 0 / inject_Z (Z.of_nat (length l)))%Q.









Definition time_scenario : list Z := [8; 8; 14]%Z.


(** A small corpus to run the pipeline on: the audio of a recording is given
    by its spectrogram, [b.wav] cannot be read. *)
Module Sample.

Definition columns : list string := ["fname"; "path_audio"; "time"].

Definition table : DataFrame :=
  mkDataFrame columns
    [["a.wav"; "/data/a.wav"; "08:00:00"];
     ["b.wav"; "/data/b.wav"; "08:30:00"];
     ["c.wav"; "/data/c.wav"; "14:00:00"]].

Definition readable : DataFrame :=
  mkDataFrame columns
    [["a.wav"; "/data/a.wav"; "08:00:00"];
     ["c.wav"; "/data/c.wav"; "14:00:00"];
     ["a.wav"; "/data/a.wav"; "08:45:00"]].

Definition bad_time : DataFrame :=
  mkDataFrame columns
    [["a.wav"; "/data/a.wav"; "08:00:00"];
     ["c.wav"; "/data/c.wav"; "noon"]].

Definition two_columns : DataFrame :=
  mkDataFrame ["path_audio"; "time"]
    [["/data/a.wav"; "08:00:00"]; ["/data/c.wav"; "14:00:00"]].

Definition isdir (s : string) : bool := false.

Definition isfile (s : string) : bool :=
  String.eqb s "meta.csv" || String.eqb s "readable.csv" ||
  String.eqb s "bad_time.csv" || String.eqb s "two_columns.csv" ||
  String.eqb s "notes.txt".

Definition get_metadata_dir (s : string) : result DataFrame := Raise (OSError s).

Definition read_csv (s : string) : result DataFrame :=
  if String.eqb s "meta.csv" then Ok table
  else if String.eqb s "readable.csv" then Ok readable
  else if String.eqb s "bad_time.csv" then Ok bad_time
  else if String.eqb s "two_columns.csv" then Ok two_columns
  else Raise (OSError s).

Definition Signal : Type := Np.matrix.

Definition sound_load (path : string) : result (Signal * Z) :=
  if String.eqb path "/data/a.wav" then Ok (Sxx_grid, 48000%Z)
  else if String.eqb path "/data/c.wav" then Ok (Sxx_other, 48000%Z)
  else Raise (OSError path).

Definition sound_resample (s : Signal) (fs target_fs : Z) : Signal := s.

Definition sound_spectrogram (s : Signal) (fs nperseg noverlap : Z)
  : Np.matrix * list Q * list Q :=
  (s, firstn (Np.ncols s) tn_grid, firstn (Np.nrows s) fn_grid).

Definition power2dB (Sxx : Np.matrix) (db_range : Q) : Np.matrix := Sxx.

(** [graphical_soundscape(data, 48000, 1024, 512, 80, 1, 0.5)] on the sample
    corpus. *)
Definition run (data : data_input) : result Pd.Matrix :=
  graphical_soundscape isdir isfile get_metadata_dir read_csv
    Signal sound_load sound_resample sound_spectrogram power2dB
    48000 1024 512 80 1 (Some (1 # 2)%Q) data.

End Sample.

(** The sample corpus read in two orders, and the density rows of its
    recordings in the first. *)
Module Reordered.

Definition reversed : DataFrame :=
  mkDataFrame Sample.columns (rev (df_rows Sample.readable)).

Definition isfile (s : string) : bool :=
  String.eqb s "readable.csv" || String.eqb s "reversed.csv".

Definition read_csv (s : string) : result DataFrame :=
  if String.eqb s "readable.csv" then Ok Sample.readable
  else if String.eqb s "reversed.csv" then Ok reversed
  else Raise (OSError s).

Definition run (data : data_input) : result Pd.Matrix :=
  graphical_soundscape Sample.isdir isfile Sample.get_metadata_dir read_csv
    Sample.Signal Sample.sound_load Sample.sound_resample Sample.sound_spectrogram
    Sample.power2dB 48000 1024 512 80 1 (Some (1 # 2)%Q) data.


End Reordered.

(** A 9 x 9 spectrogram with a peak of its own and, apart from it, a
    plateau of two equal cells side by side. *)
Definition Sxx_clustered : Np.matrix :=
  [[0; 0; 0; 0; 0; 0; 0; 0; 0];
   [0; 0; 0; 0; 0; 0; 0; 0; 0];
   [0; 0; 7; 0; 0; 0; 0; 0; 0];
   [0; 0; 0; 0; 0; 0; 0; 0; 0];
   [0; 0; 0; 0; 0; 0; 0; 0; 0];
   [0; 0; 0; 0; 0; 5; 5; 0; 0];
   [0; 0; 0; 0; 0; 0; 0; 0; 0];
   [0; 0; 0; 0; 0; 0; 0; 0; 0];
   [0; 0; 0; 0; 0; 0; 0; 0; 0]]%Q.

Definition tn_clustered : list Q := [0; 1; 2; 3; 4; 5; 6; 7; 8]%Q.
Definition fn_clustered : list Q := [0; 10; 20; 30; 40; 50; 60; 70; 80]%Q.

(** A corpus recorded at two sample rates.  The spectrogram is computed with
    the native rate [fs] (line 147), so the frequency axis of a recording
    follows its rate: the bins of [c.wav], at 24 kHz, are half those of
    [a.wav], at 48 kHz. *)
Module Mixed.

Definition two_hours : DataFrame :=
  mkDataFrame ["fname"; "path_audio"; "time"]
    [["a.wav"; "/data/a.wav"; "08:00:00"];
     ["c.wav"; "/data/c.wav"; "14:00:00"]].

Definition one_hour : DataFrame :=
  mkDataFrame ["fname"; "path_audio"; "time"]
    [["a.wav"; "/data/a.wav"; "08:00:00"];
     ["c.wav"; "/data/c.wav"; "08:30:00"]].

Definition one_hour_reversed : DataFrame :=
  mkDataFrame ["fname"; "path_audio"; "time"]
    [["c.wav"; "/data/c.wav"; "08:30:00"];
     ["a.wav"; "/data/a.wav"; "08:00:00"]].

Definition isdir (s : string) : bool := false.

Definition isfile (s : string) : bool :=
  String.eqb s "two_hours.csv" || String.eqb s "one_hour.csv"
  || String.eqb s "one_hour_reversed.csv".

Definition get_metadata_dir (s : string) : result DataFrame := Raise (OSError s).

Definition read_csv (s : string) : result DataFrame :=
  if String.eqb s "two_hours.csv" then Ok two_hours
  else if String.eqb s "one_hour.csv" then Ok one_hour
  else if String.eqb s "one_hour_reversed.csv" then Ok one_hour_reversed
  else Raise (OSError s).

Definition sound_load (path : string) : result (Np.matrix * Z) :=
  if String.eqb path "/data/a.wav" then Ok (Sxx_grid, 48000%Z)
  else if String.eqb path "/data/c.wav" then Ok (Sxx_other, 24000%Z)
  else Raise (OSError path).

Definition sound_resample (s : Np.matrix) (fs target_fs : Z) : Np.matrix := s.

Definition sound_spectrogram (s : Np.matrix) (fs nperseg noverlap : Z)
  : Np.matrix * list Q * list Q :=
  (s, firstn (Np.ncols s) tn_grid,
   map (fun f => (f * inject_Z fs / 48000)%Q) (firstn (Np.nrows s) fn_grid)).

Definition power2dB (Sxx : Np.matrix) (db_range : Q) : Np.matrix := Sxx.

Definition run (data : data_input) : result Pd.Matrix :=
  graphical_soundscape isdir isfile get_metadata_dir read_csv
    Np.matrix sound_load sound_resample sound_spectrogram power2dB
    48000 1024 512 80 1 (Some (1 # 2)%Q) data.

End Mixed.

(** ** Binary64: the mean of a group as pandas accumulates it

    The cells of [groupby("time").mean()] are sums in binary64 over the rows
    of a group, first row to last, over the number of rows; recent versions
    of pandas carry the compensation of Kahan along the sum, older ones add
    plainly.  Both are given, on one column of one group without [NaN]. *)

Module Float64.

Definition float : Set := PrimFloat.float.

(** An integer count as a float64. *)
Definition of_count (c : nat) : float :=
  PrimFloat.of_uint63 (Uint63.of_Z (Z.of_nat c)).


Definition sum (column : list float) : float :=
  fold_left PrimFloat.add column PrimFloat.zero.

Definition mean (column : list float) : float :=
  PrimFloat.div (sum column) (of_count (length column)).




End Float64.

(** ** Beyond the pipeline: exceptions of the command line and of the tables *)

Inductive raised : Type :=
| Builtin (e : exception)
| KeyError (key : string)
| TypeError (msg : string).

Inductive outcome (A : Type) : Type :=
| Returns (a : A)
| Raises (e : raised).

Arguments Returns {A} a.
Arguments Raises {A} e.

Definition and_then {A B : Type} (m : outcome A) (k : A -> outcome B) : outcome B :=
  match m with
  | Returns a => k a
  | Raises e => Raises e
  end.

Notation "x <~ m ;; k" := (and_then m (fun x => k))
  (at level 61, m at next level, right associativity).
Notation "' pat <~ m ;; k" := (and_then m (fun x => match x with pat => k end))
  (at level 61, pat pattern, m at next level, right associativity).

Definition lift {A : Type} (m : result A) : outcome A :=
  match m with
  | Ok a => Returns a
  | Raise e => Raises (Builtin e)
  end.

(** ** [gs_utils.py]: [load_config], [plot_graph] and [main] *)

Module GsCli.

(** What [yaml.safe_load] returns. *)
#[warnings="-register-all"]
Inductive yaml : Type :=
| YNull
| YBool (b : bool)
| YInt (n : Z)
| YFloat (x : Q)
| YStr (s : string)
| YSeq (items : list yaml)
| YMap (items : list (yaml * yaml)).

Definition key_is (key : string) (k : yaml) : bool :=
  match k with
  | YStr s => String.eqb s key
  | _ => false
  end.

(** [v[key]] for a string [key]: a mapping is searched ([KeyError] when the
    key is absent), any other value cannot be indexed by a string. *)
Definition getitem (v : yaml) (key : string) : outcome yaml :=
  match v with
  | YMap items =>
      match find (fun kv => key_is key (fst kv)) items with
      | Some kv => Returns (snd kv)
      | None => Raises (KeyError key)
      end
  | YStr _ => Raises (TypeError "string indices must be integers")
  | YSeq _ => Raises (TypeError "list indices must be integers or slices, not str")
  | YNull | YBool _ | YInt _ | YFloat _ => Raises (TypeError "object is not subscriptable")
  end.

(** A Python [int] ([bool] is one). *)
Definition as_int (v : yaml) : option Z :=
  match v with
  | YInt n => Some n
  | YBool b => Some (Z.b2z b)
  | _ => None
  end.

(** A Python number. *)
Definition as_number (v : yaml) : option Q :=
  match v with
  | YFloat x => Some x
  | YInt n => Some (inject_Z n)
  | YBool b => Some (inject_Z (Z.b2z b))
  | _ => None
  end.

(** A number or [None], as [threshold_abs] may be. *)
Definition as_threshold (v : yaml) : option (option Q) :=
  match v with
  | YNull => Some None
  | _ => option_map Some (as_number v)
  end.

Inductive operation : Type :=
| OpSpectrogramLocalMax
| OpGraphicalSoundscape
| OpPlotGraph.

(** The [Namespace] that [parse_args] returns: the attributes are those of
    the five [add_argument] calls and no other. *)
Record Namespace : Type := mkNamespace {
  ns_operation : operation;
  ns_input_file : option string;
  ns_config : option string;
  ns_display : bool;
  ns_verbose : bool
}.

(** [np.arange(0, n, step)] for a positive [step]. *)
Definition arange (n step : nat) : list nat :=
  map (fun k => k * step) (seq 0 ((n + step - 1) / step)).

Definition int64_min : Z := (- 2 ^ 63)%Z.

(** [x.astype(int)] on a float64: the fraction is cut off, towards zero; a
    value that leaves the range of int64 comes out as [-2**63], which is what
    the conversion of an x86-64 processor gives. *)
Definition astype_int (x : Q) : Z :=
  let n := Z.quot (Qnum x) (Z.pos (Qden x)) in
  if (int64_min <=? n)%Z && (n <? 2 ^ 63)%Z then n else int64_min.

(** [values.T] of a table with [ncol] columns. *)
Definition transpose {A : Type} (d : A) (ncol : nat) (rows : list (list A))
  : list (list A) :=
  map (fun j => map (fun row => nth j row d) rows) (seq 0 ncol).

(** [columns[idx]]: [IndexError] when an index is out of bounds. *)
Definition take_labels (columns : list Q) (idx : list nat) : result (list Q) :=
  Np.take columns idx.

(** What [plot_graph] puts on the axes, and the file it saves when asked. *)
Record Plot : Type := mkPlot {
  image : list (list (option Q));
  xlabel : string;
  ylabel : string;
  yticks : list nat;
  yticklabels : list Z;
  saved : option (option string)
}.

Section Plot.

(** [plt.savefig(fname, bbox_inches='tight')]: what matplotlib does with the
    name, [None] included, is its own. *)
Variable plt_savefig : option string -> outcome unit.

(** [plot_graph(graph, ax, savefig, fname)] for a matrix with a row and a
    column at least: the image is the transposed matrix, drawn from the
    bottom; every twentieth column gets a tick, labelled by its frequency as
    an integer; the figure is saved last, when asked. *)
Definition plot_graph (graph : Pd.Matrix) (savefig : bool) (fname : option string)
  : outcome Plot :=
  let ncol := length (Pd.m_columns graph) in
  let ytick_idx := arange ncol 20 in
  labels <~ lift (take_labels (Pd.m_columns graph) ytick_idx) ;;
  _ <~ (if savefig then plt_savefig fname else Returns tt) ;;
  Returns (mkPlot (transpose None ncol (map snd (Pd.m_rows graph)))
                  "Time (h)" "Frequency (Hz)"
                  ytick_idx (map astype_int labels)
                  (if savefig then Some fname else None)).

End Plot.

Section Main.

(** [open(path)] followed by [yaml.safe_load]. *)
Variable read_yaml : string -> outcome yaml.

Variable Signal : Type.
Variable sound_load : string -> result (Signal * Z).
(** [sound.load(None)], when no [--input_file] is given. *)
Variable sound_load_none : outcome (Signal * Z).
Variable sound_resample : Signal -> Z -> Z -> Signal.
Variable sound_spectrogram : Signal -> Z -> Z -> Z -> Np.matrix * list Q * list Q.
Variable power2dB : Np.matrix -> Q -> Np.matrix.

(** The first operation on configuration values that are not the numbers
    the functions expect: what the libraries do with them is not modelled. *)
Variable ill_typed :
  Namespace -> yaml -> yaml -> yaml -> yaml -> yaml -> yaml
  -> outcome (option (list Q * list Q)).

(** [load_config(config_file)]; [open(None)] raises [TypeError]. *)
Definition load_config (config_file : option string) : outcome yaml :=
  match config_file with
  | Some path => read_yaml path
  | None => Raises (TypeError "expected str, bytes or os.PathLike object, not NoneType")
  end.

(** [config["graph_soundscapes"][key]] *)
Definition graph_soundscapes (config : yaml) (key : string) : outcome yaml :=
  section <~ getitem config "graph_soundscapes" ;;
  getitem section key.

(** [main()], from the parsed arguments on.  The value returned is what the
    run prints as its result, if anything. *)
Definition main (args : Namespace) : outcome (option (list Q * list Q)) :=
  config <~ load_config (ns_config args) ;;
  target_fs <~ graph_soundscapes config "target_fs" ;;
  nperseg <~ graph_soundscapes config "nperseg" ;;
  noverlap <~ graph_soundscapes config "noverlap" ;;
  db_range <~ graph_soundscapes config "db_range" ;;
  min_distance <~ graph_soundscapes config "min_distance" ;;
  threshold_abs <~ graph_soundscapes config "threshold_abs" ;;
  match ns_operation args with
  | OpSpectrogramLocalMax =>
      match as_int target_fs, as_int nperseg, as_int noverlap,
            as_number db_range, as_int min_distance, as_threshold threshold_abs with
      | Some target_fs', Some nperseg', Some noverlap',
        Some db_range', Some min_distance', Some threshold_abs' =>
          '(s, fs) <~ match ns_input_file args with
                     | Some path => lift (sound_load path)
                     | None => sound_load_none
                     end ;;
          let s := sound_resample s fs target_fs' in
          let '(Sxx, tn, fn) := sound_spectrogram s fs nperseg' noverlap' in
          let Sxx_db := power2dB Sxx db_range' in
          result <~ lift (spectrogram_local_max Sxx_db tn fn min_distance' threshold_abs') ;;
          Returns (Some result)
      | _, _, _, _, _, _ =>
          ill_typed args target_fs nperseg noverlap db_range min_distance threshold_abs
      end
  | OpGraphicalSoundscape =>
      (* graphical_soundscape(args.path, args.recursive, args.verbose) *)
      Raises (Builtin (AttributeError "path"))
  | OpPlotGraph => Returns None
  end.

End Main.

End GsCli.

(** A soundscape of two hours over five bins, and a [plt.savefig] that
    writes a named file and fails without a name. *)
Module SamplePlot.

Definition graph : Pd.Matrix :=
  Pd.mkMatrix fn_grid
    [(8%Z, [Some 0; Some 0; Some (2 # 5); Some 0; Some 0]%Q);
     (14%Z, [Some 0; Some (1 # 5); Some 0; Some (2 # 5); Some 0]%Q)].

Definition plt_savefig (fname : option string) : outcome unit :=
  match fname with
  | Some _ => Returns tt
  | None => Raises (Builtin (AttributeError "write"))
  end.

End SamplePlot.

(** The keys [main] reads from the [graph_soundscapes] section, in the order
    it reads them. *)
Definition config_keys : list string :=
  ["target_fs"; "nperseg"; "noverlap"; "db_range"; "min_distance"; "threshold_abs"].

(** A configuration document and a command line to run [main] on. *)
Module SampleCli.

Definition section : GsCli.yaml :=
  GsCli.YMap
    [(GsCli.YStr "target_fs", GsCli.YInt 48000);
     (GsCli.YStr "nperseg", GsCli.YInt 1024);
     (GsCli.YStr "noverlap", GsCli.YInt 512);
     (GsCli.YStr "db_range", GsCli.YInt 80);
     (GsCli.YStr "min_distance", GsCli.YInt 1);
     (GsCli.YStr "threshold_abs", GsCli.YFloat (1 # 2))].

Definition config : GsCli.yaml :=
  GsCli.YMap [(GsCli.YStr "graph_soundscapes", section)].

(** The same document without [db_range] and [threshold_abs]. *)
Definition incomplete : GsCli.yaml :=
  GsCli.YMap
    [(GsCli.YStr "graph_soundscapes",
      GsCli.YMap
        [(GsCli.YStr "target_fs", GsCli.YInt 48000);
         (GsCli.YStr "nperseg", GsCli.YInt 1024);
         (GsCli.YStr "noverlap", GsCli.YInt 512);
         (GsCli.YStr "min_distance", GsCli.YInt 1)])].

Definition read_yaml (path : string) : outcome GsCli.yaml :=
  if String.eqb path "config.yaml" then Returns config
  else if String.eqb path "incomplete.yaml" then Returns incomplete
  else Raises (Builtin (OSError path)).

Definition ill_typed (args : GsCli.Namespace) (a b c d e f : GsCli.yaml)
  : outcome (option (list Q * list Q)) :=
  Raises (TypeError "unsupported operand").

Definition main (args : GsCli.Namespace) : outcome (option (list Q * list Q)) :=
  GsCli.main read_yaml Sample.Signal Sample.sound_load
             (Raises (TypeError "expected str, bytes or os.PathLike object, not NoneType"))
             Sample.sound_resample Sample.sound_spectrogram Sample.power2dB
             ill_typed args.

Definition args (op : GsCli.operation) (config_file : string) : GsCli.Namespace :=
  GsCli.mkNamespace op (Some "/data/a.wav") (Some config_file) false false.

End SampleCli.

(** ** [pamflow/index/cli.py]: [validate_graph] and [compute_index] *)

Module IndexCli.

(** A table read from a csv file: its column names and its rows. *)
Record Table (A : Type) : Type := mkTable {
  t_columns : list string;
  t_rows : list (list A)
}.

Arguments mkTable {A} t_columns t_rows.
Arguments t_columns {A} t.
Arguments t_rows {A} t.

Definition not_found_msg : string := "['time'] not found in axis".

(** [t.drop(columns=[col])]: every column of that name goes, and [KeyError]
    when there is none. *)
Definition drop_column {A : Type} (col : string) (t : Table A) : outcome (Table A) :=
  if existsb (String.eqb col) (t_columns t) then
    Returns
      (mkTable
         (filter (fun c => negb (String.eqb col c)) (t_columns t))
         (map (fun row =>
                 map snd (filter (fun cv => negb (String.eqb col (fst cv)))
                                 (combine (t_columns t) row)))
              (t_rows t)))
  else Raises (KeyError not_found_msg).

Definition total (l : list Q) : Q := fold_left Qplus l 0%Q.

(** scipy's [braycurtis]: the sum of [|u_i - v_i|] over the sum of
    [|u_i + v_i|].  The quotient is read where the second sum is not 0
    (scipy gives [nan] there). *)
Definition braycurtis (u v : list Q) : Q :=
  (total (map (fun p => Qabs (fst p - snd p)) (combine u v))
   / total (map (fun p => Qabs (fst p + snd p)) (combine u v)))%Q.

Definition ragged_msg : string := "setting an array element with a sequence".

Section Index.

Variable A : Type.
Variable read_csv : string -> outcome (Table A).

(** [validate_graph(path)]: the table without its [time] column, row after
    row in one sequence. *)
Definition validate_graph (path : string) : outcome (list A) :=
  sample <~ read_csv path ;;
  sample <~ drop_column "time" sample ;;
  Returns (concat (t_rows sample)).

(** The metrics of scipy other than [braycurtis] (the cosine distance takes
    square roots), and its error for a name it does not know. *)
Variable other_metric : string -> list Q -> list Q -> result Q.

(** [pdist([u, v], metric=metric)[0]]: the two sequences must make a
    2-dimensional array. *)
Definition pdist_pair (u v : list Q) (metric : string) : result Q :=
  if length u =? length v then
    if String.eqb metric "braycurtis" then Ok (braycurtis u v)
    else other_metric metric u v
  else Raise (ValueError ragged_msg).

(** [compute_index(sample, distance_metric, template_forest,
    template_grassland)] *)
Definition compute_index (sample : list Q) (distance_metric : string)
           (template_forest template_grassland : list Q) : result Q :=
  dist_forest <- pdist_pair sample template_forest distance_metric ;;
  dist_grassland <- pdist_pair sample template_grassland distance_metric ;;
  Ok (dist_grassland - dist_forest)%Q.

End Index.

End IndexCli.

(** A table is rectangular: every row has one cell per column. *)
Definition rectangular {A : Type} (t : IndexCli.Table A) : Prop :=
  Forall (fun row => length row = length (IndexCli.t_columns t)) (IndexCli.t_rows t).

(** The number of columns named [col]. *)
Definition count_named (col : string) (columns : list string) : nat :=
  length (filter (String.eqb col) columns).

(** A soundscape saved as a table, two hours over three bins. *)
Definition graph_table : IndexCli.Table Q :=
  IndexCli.mkTable ["time"; "0.0"; "100.0"; "200.0"]
    [[8; 1 # 10; 1 # 2; 9 # 10]%Q; [14; 1; 1; 1]%Q].

Definition no_other_metric (metric : string) (u v : list Q) : result Q :=
  Raise (ValueError "Unknown Distance Metric").

(** ** Paths and strings of the classification scripts *)

Module Os.

Definition slash : ascii := "/"%char.

Definition startswith_slash (p : string) : bool :=
  match p with
  | String c _ => Ascii.eqb c slash
  | EmptyString => false
  end.

Fixpoint endswith_slash (p : string) : bool :=
  match p with
  | EmptyString => false
  | String c EmptyString => Ascii.eqb c slash
  | String _ p' => endswith_slash p'
  end.

(** [os.path.join(a, b)] *)
Definition join (a b : string) : string :=
  if startswith_slash b then b
  else if (String.length a =? 0) || endswith_slash a then (a ++ b)%string
  else (a ++ String slash b)%string.

(** [s.split(sep)] for a separator of one character. *)
Fixpoint split (sep : ascii) (s : string) : list string :=
  match s with
  | EmptyString => [EmptyString]
  | String c s' =>
      if Ascii.eqb c sep then EmptyString :: split sep s'
      else match split sep s' with
           | part :: parts => String c part :: parts
           | [] => [String c EmptyString]
           end
  end.

(** No character of [s] is [c]. *)
Fixpoint free_of (c : ascii) (s : string) : bool :=
  match s with
  | EmptyString => true
  | String d s' => negb (Ascii.eqb d c) && free_of c s'
  end.

(** [s[:-k]] *)
Definition drop_last (k : nat) (s : string) : string :=
  substring 0 (String.length s - k) s.

(** The distinct strings of [l], each kept where it occurs last. *)
Definition distinct (l : list string) : list string :=
  fold_right (fun x acc => if existsb (String.eqb x) acc then acc else x :: acc) [] l.

Fixpoint insert_sorted (x : string) (l : list string) : list string :=
  match l with
  | [] => [x]
  | y :: l' => if String.leb x y then x :: l else y :: insert_sorted x l'
  end.

(** The distinct strings of [l] in increasing order, as pandas orders the
    labels of a group-by or of a pivot. *)
Definition sorted_unique (l : list string) : list string :=
  fold_right insert_sorted [] (distinct l).

End Os.

(** ** [postprocess_detections.py]: [load_and_filter_data] and
    [create_abundance_matrix] *)

Module Detections.

(** A row of the merged annotations: the three columns the script reads. *)
Record Row (C : Type) : Type := mkRow {
  fname : string;
  scientific_name : string;
  confidence : C
}.

Arguments mkRow {C} fname scientific_name confidence.
Arguments fname {C} r.
Arguments scientific_name {C} r.
Arguments confidence {C} r.

(** A table of integers with labelled rows and columns. *)
Record Matrix : Type := mkMatrix {
  index : list string;
  columns : list string;
  cells : list (list Z)
}.

Definition zsum (l : list Z) : Z := fold_right Z.add 0%Z l.

(** [pd.pivot_table(df, index='Fname', columns='Scientific name',
    values='Confidence', aggfunc='sum', fill_value=0)] *)
Definition pivot_table (df : list (Row Z)) : Matrix :=
  let index := Os.sorted_unique (map fname df) in
  let columns := Os.sorted_unique (map scientific_name df) in
  mkMatrix index columns
    (map (fun f =>
            map (fun sp =>
                   zsum (map confidence
                             (filter (fun r => String.eqb (fname r) f
                                               && String.eqb (scientific_name r) sp)
                                     df)))
                columns)
         index).

Section Script.

(** [glob.glob(os.path.join(path_annot, '**', '*.csv'), recursive=True)] and
    [utils.merge_annot_files(flist, rtype='csv')]. *)
Variable glob_csv : string -> list string.
Variable merge_annot_files : list string -> outcome (list (Row Q)).

(** [load_and_filter_data(path_annot, min_conf)]: the confidence of a row
    becomes 1 or 0, and the rows at 1 are returned. *)
Definition load_and_filter_data (path_annot : string) (min_conf : Q)
  : outcome (list (Row Z)) :=
  df <~ merge_annot_files (glob_csv path_annot) ;;
  let df := map (fun r => mkRow (fname r) (scientific_name r)
                                (Z.b2z (Qle_bool min_conf (confidence r)))) df in
  Returns (filter (fun r => (confidence r =? 1)%Z) df).

(** [index.str.replace('.BirdNET.results.csv', '.WAV')] on one label; whether
    the pattern is read as a regular expression depends on the pandas at
    hand, so the replacement is given. *)
Variable str_replace : string -> string.

(** The text of [min_conf] in the names of the files written. *)
Variable min_conf_text : string.

(** [rows] summed column by column, over [ncol] columns. *)
Definition sum_rows (ncol : nat) (rows : list (list Z)) : list Z :=
  map (fun j => zsum (map (fun row => nth j row 0%Z) rows)) (seq 0 ncol).

(** [create_abundance_matrix(df_clean, path_save_matrix, min_conf)], for a
    frame with a row at least: the two calls of [to_csv] in order, each as the
    path and the table written.  The first table is the pivot by file and
    species; the second groups its rows by sensor, the sensor being what
    precedes the first underscore of the file label.  The column
    [sensor_name] added to the pivot replaces a species of that name, and as
    the key of the group-by it is no column of the second table. *)
Definition create_abundance_matrix (df_clean : list (Row Z)) (path_save_matrix : string)
  : list (string * Matrix) :=
  let pivot := pivot_table df_clean in
  let labels := map str_replace (index pivot) in
  let by_file := mkMatrix labels (columns pivot) (cells pivot) in
  let sensor_name := map (fun label => hd EmptyString (Os.split "_" label)) labels in
  let keep := fun c => negb (String.eqb c "sensor_name") in
  let species := filter keep (columns pivot) in
  let values :=
    map (fun row => map snd (filter (fun cv => keep (fst cv))
                                    (combine (columns pivot) row)))
        (cells pivot) in
  let sites := Os.sorted_unique sensor_name in
  let by_site :=
    mkMatrix sites species
      (map (fun site =>
              sum_rows (length species)
                (map snd (filter (fun sv => String.eqb (fst sv) site)
                                 (combine sensor_name values))))
           sites) in
  [(Os.join path_save_matrix ("file_spmatrix_" ++ min_conf_text ++ "conf.csv"), by_file);
   (Os.join path_save_matrix ("site_spmatrix_" ++ min_conf_text ++ "conf.csv"), by_site)].

End Script.

End Detections.

(** The sum of all the cells of a table. *)
Definition grand_total (M : Detections.Matrix) : Z :=
  Detections.zsum (map Detections.zsum (Detections.cells M)).

(** The detections of species [sp] in file [f]. *)
Definition detections_of {C : Type} (df : list (Detections.Row C)) (f sp : string)
  : list (Detections.Row C) :=
  filter (fun r => String.eqb (Detections.fname r) f
                   && String.eqb (Detections.scientific_name r) sp) df.

(** The rows whose confidence reaches [min_conf]. *)
Definition confident (min_conf : Q) (df : list (Detections.Row Q))
  : list (Detections.Row Q) :=
  filter (fun r => Qle_bool min_conf (Detections.confidence r)) df.

(** Merged annotations of two recorders. *)
Definition sample_annotations : list (Detections.Row Q) :=
  [Detections.mkRow "S1_0800.BirdNET.results.csv" "Turdus fuscater" (9 # 10);
   Detections.mkRow "S1_0800.BirdNET.results.csv" "Turdus fuscater" (3 # 10);
   Detections.mkRow "S1_0900.BirdNET.results.csv" "Zonotrichia capensis" (8 # 10);
   Detections.mkRow "S2_0800.BirdNET.results.csv" "Turdus fuscater" (7 # 10);
   Detections.mkRow "S1_0800.BirdNET.results.csv" "Turdus fuscater" (6 # 10)]%Q.

(** A label that is a column of species in the table by sensor: any but the
    name of the column the group-by takes as its key. *)
Definition is_species (name : string) : bool := negb (String.eqb name "sensor_name").

(** The labels of the detection files renamed after their recordings. *)
Definition wav_label (label : string) : string :=
  if Str.endswith label ".BirdNET.results.csv"
  then (Os.drop_last 20 label ++ ".WAV")%string
  else label.

(** ** [build_annotation_file.py] *)

Module Annotation.

(** A row of the annotation file; [None] is a missing value. *)
Record Row : Type := mkRow {
  segment : string;
  birdnet_conf : option Q;
  filename : option string;
  start_time : option Q;
  end_time : option Q;
  species : option string
}.

(** [.str[i]] on a column of lists: the element at [i], counted from the end
    when [i] is negative, missing when out of range. *)
Definition get {A : Type} (l : list A) (i : Z) : option A :=
  if (0 <=? i)%Z then nth_error l (Z.to_nat i)
  else if (- i <=? Z.of_nat (length l))%Z then nth_error l (length l - Z.to_nat (- i))
  else None.

(** [a + b] on two columns of dtype object, one value each: a missing value
    on either side gives a missing value. *)
Definition add (a b : option string) : option string :=
  match a, b with
  | Some x, Some y => Some (x ++ y)%string
  | _, _ => None
  end.

(** The column [.str[i]] of a frame with a row at least holds no string when
    every row lacks the field: pandas then makes it a column of dtype float64
    (all [NaN]) instead of a column of dtype object. *)
Definition is_float64 {A : Type} (column : list (option A)) : bool :=
  negb (length column =? 0)
  && forallb (fun v => match v with None => true | Some _ => false end) column.

(** [float64 + str]: numpy has no such addition (the text of the message is
    numpy's own). *)
Definition float_plus_str : raised :=
  TypeError "unsupported operand type(s) for +: 'float' and 'str'".

(** [.str] on a column of dtype float64:
    [Can only use .str accessor with string values]. *)
Definition str_accessor : raised := Builtin (AttributeError "str").

Fixpoint traverse {A B : Type} (f : A -> outcome B) (l : list A) : outcome (list B) :=
  match l with
  | [] => Returns []
  | x :: l' => y <~ f x ;; ys <~ traverse f l' ;; Returns (y :: ys)
  end.

Fixpoint insert_row (r : Row) (l : list Row) : list Row :=
  match l with
  | [] => [r]
  | r' :: l' =>
      if String.leb (segment r) (segment r') then r :: l else r' :: insert_row r l'
  end.

(** [df.sort_values(['segment'])]; rows of equal segment, whose order the
    library leaves open, keep theirs. *)
Definition sort_values (rows : list Row) : list Row := fold_right insert_row [] rows.

(** The rows of six columns of equal length. *)
Definition frame (segment : list string) (birdnet_conf : list (option Q))
           (filename : list (option string)) (start_time end_time : list (option Q))
           (species : list (option string)) : list Row :=
  map (fun i => mkRow (nth i segment EmptyString) (nth i birdnet_conf None)
                      (nth i filename None) (nth i start_time None)
                      (nth i end_time None) (nth i species None))
      (seq 0 (length segment)).

Section Script.

(** The file system: [os.listdir], [os.path.isdir], and [glob.glob] on
    [<directory>/*.wav] and on [<directory>/**/*.wav]. *)
Variable listdir : string -> outcome (list string).
Variable isdir : string -> bool.
Variable glob_wav : string -> list string.
Variable glob_wav_recursive : string -> list string.

(** [float(s)] on a string. *)
Variable to_float : string -> outcome Q.

Definition list_directories (path : string) : outcome (list string) :=
  entries <~ listdir path ;;
  Returns (filter isdir (map (Os.join path) entries)).

Definition find_csv_files (directory : string) : outcome (list string) :=
  entries <~ listdir directory ;;
  let subdirs := filter (fun d => isdir (Os.join directory d)) entries in
  Returns (match subdirs with
           | [] => glob_wav directory
           | _ :: _ => glob_wav_recursive directory
           end).

(** [.astype(float)] on a column of strings with missing values. *)
Definition astype_float (column : list (option string)) : outcome (list (option Q)) :=
  traverse (fun v => match v with
                     | Some s => x <~ to_float s ;; Returns (Some x)
                     | None => Returns None
                     end) column.

(** [column.str[:-k].astype(float)], which wants a column of strings. *)
Definition trimmed_float (k : nat) (column : list (option string))
  : outcome (list (option Q)) :=
  if is_float64 column then Raises str_accessor
  else astype_float (map (option_map (Os.drop_last k)) column).

(** The body of the loop of [build_annotation_file] from the list of files to
    the frame written, column by column as the script computes them.  The
    first [+] of line 47 has the column [.str[2]] on its left; the later ones
    have a column of dtype object there, and give missing values where a
    field is missing. *)
Definition annotate (files : list string) : outcome (list Row) :=
  let segment := map Str.basename files in
  let parts := map (Os.split "_") segment in
  birdnet_conf <~ astype_float (map (fun p => get p 0) parts) ;;
  filename <~ (if is_float64 (map (fun p => get p 2) parts) then Raises float_plus_str
               else Returns
                      (map (fun p => add (add (add (add (add (get p 2) (Some "_"))
                                                        (get p 3)) (Some "_"))
                                              (get p 4)) (Some ".WAV")) parts)) ;;
  start_time <~ trimmed_float 1 (map (fun p => get p 5) parts) ;;
  end_time <~ trimmed_float 5 (map (fun p => get p 6) parts) ;;
  let species := map (fun path => get (Os.split Os.slash path) (-2)) files in
  Returns (sort_values (frame segment birdnet_conf filename start_time end_time species)).

(** One turn of the loop of [build_annotation_file], up to the frame it
    writes. *)
Definition annotation_frame (directory : string) : outcome (list Row) :=
  files <~ find_csv_files directory ;;
  annotate files.

(** The files written so far, each with its path, and the exception that
    ended the loop if one did. *)
Fixpoint write_all (output_dir : string) (list_dirs : list string)
  : list (string * list Row) * option raised :=
  match list_dirs with
  | [] => ([], None)
  | directory :: rest =>
      let dir_name := Str.basename directory in
      match annotation_frame directory with
      | Raises e => ([], Some e)
      | Returns df =>
          let output_file :=
            Os.join output_dir ("annot_segments_" ++ dir_name ++ ".csv")%string in
          let (written, e) := write_all output_dir rest in
          ((output_file, df) :: written, e)
      end
  end.

Definition build_annotation_file (input_dir output_dir : string)
  : list (string * list Row) * option raised :=
  match list_directories input_dir with
  | Raises e => ([], Some e)
  | Returns list_dirs => write_all output_dir list_dirs
  end.

End Script.

End Annotation.

(** A segment as BirdNET names it:
    [<folder>/<species>/<conf>_<rank>_<site>_<date>_<time>_<start>s_<end>s.wav]. *)
Record Segment : Type := mkSegment {
  seg_folder : string;
  seg_species : string;
  seg_conf : string;
  seg_rank : string;
  seg_site : string;
  seg_date : string;
  seg_time : string;
  seg_start : string;
  seg_end : string
}.

Definition segment_name (sg : Segment) : string :=
  (seg_conf sg ++ "_" ++ seg_rank sg ++ "_" ++ seg_site sg ++ "_" ++ seg_date sg ++ "_"
   ++ seg_time sg ++ "_" ++ seg_start sg ++ "s_" ++ seg_end sg ++ "s.wav")%string.

Definition segment_path (sg : Segment) : string :=
  (seg_folder sg ++ "/" ++ seg_species sg ++ "/" ++ segment_name sg)%string.

(** No field of the name holds an underscore or a slash, and the species
    folder holds no slash. *)
Definition well_formed (sg : Segment) : bool :=
  forallb (fun field => Os.free_of "_" field && Os.free_of "/" field)
          [seg_conf sg; seg_rank sg; seg_site sg; seg_date sg; seg_time sg;
           seg_start sg; seg_end sg]
  && Os.free_of "/" (seg_species sg).

(** The row a segment stands for, [val] giving the number a text denotes. *)
Definition decoded (val : string -> Q) (sg : Segment) : Annotation.Row :=
  Annotation.mkRow (segment_name sg) (Some (val (seg_conf sg)))
    (Some (seg_site sg ++ "_" ++ seg_date sg ++ "_" ++ seg_time sg ++ ".WAV")%string)
    (Some (val (seg_start sg))) (Some (val (seg_end sg))) (Some (seg_species sg)).

Definition by_segment (r r' : Annotation.Row) : Prop :=
  String.leb (Annotation.segment r) (Annotation.segment r') = true.

(** A file of a frame of segments: a segment named as BirdNET names it, or
    another path, whose name has fewer than three fields. *)
Definition item_path (it : Segment + string) : string :=
  match it with
  | inl sg => segment_path sg
  | inr path => path
  end.

Definition is_short (path : string) : bool :=
  length (Os.split "_" (Str.basename path)) <=? 2.

Definition item_ok (it : Segment + string) : bool :=
  match it with
  | inl sg => well_formed sg
  | inr path => is_short path
  end.

(** The row of a name with fewer than three fields: the confidence its first
    field reads as, the species folder, and nothing else. *)
Definition short_row (val : string -> Q) (path : string) : Annotation.Row :=
  Annotation.mkRow (Str.basename path)
    (Some (val (hd EmptyString (Os.split "_" (Str.basename path)))))
    None None None
    (Annotation.get (Os.split "/" path) (-2)).

Definition item_row (val : string -> Q) (it : Segment + string) : Annotation.Row :=
  match it with
  | inl sg => decoded val sg
  | inr path => short_row val path
  end.

Definition is_segment (it : Segment + string) : Prop :=
  match it with
  | inl _ => True
  | inr _ => False
  end.

(** The sample runs of the classification scripts. *)

Module SampleDetections.

Definition glob_csv (path_annot : string) : list string :=
  [Os.join path_annot "S1/S1_0800.BirdNET.results.csv";
   Os.join path_annot "S1/S1_0900.BirdNET.results.csv";
   Os.join path_annot "S2/S2_0800.BirdNET.results.csv"].

Definition merge_annot_files (flist : list string) : outcome (list (Detections.Row Q)) :=
  match flist with
  | [] => Raises (Builtin (ValueError "No objects to concatenate"))
  | _ :: _ => Returns sample_annotations
  end.

End SampleDetections.

Module SampleAnnotation.

Definition segment : Segment :=
  mkSegment "segments/run1" "Turdus fuscater" "0.9" "12" "S1" "20230101" "060000"
            "3.0" "6.0".

Definition later_segment : Segment :=
  mkSegment "segments/run1" "Turdus fuscater" "0.4" "3" "S2" "20230102" "180000"
            "6.0" "9.0".

Definition listdir (path : string) : outcome (list string) :=
  if String.eqb path "segments" then Returns ["run1"; "notes.txt"]
  else Returns ["Turdus fuscater"].

Definition isdir (path : string) : bool :=
  String.eqb path "segments/run1" || String.eqb path "segments/run1/Turdus fuscater".

Definition glob_wav (directory : string) : list string := [].

Definition glob_wav_recursive (directory : string) : list string :=
  [segment_path segment; segment_path later_segment].

Definition numbers : list (string * Q) :=
  [("0.4", 4 # 10); ("0.9", 9 # 10); ("3.0", 3); ("6.0", 6); ("9.0", 9)]%Q.

Definition to_float (s : string) : outcome Q :=
  match find (fun entry => String.eqb (fst entry) s) numbers with
  | Some entry => Returns (snd entry)
  | None => Raises (Builtin (ValueError "could not convert string to float"))
  end.

Definition val (s : string) : Q :=
  match to_float s with
  | Returns x => x
  | Raises _ => 0%Q
  end.

End SampleAnnotation.

(** * Properties *)

(** ** Results *)

Lemma bind_ok {A B : Type} (m : result A) (k : A -> result B) (b : B) :
  bind m k = Ok b -> exists a, m = Ok a /\ k a = Ok b.
Proof.
  destruct m as [a | e]; simpl; intros H.
  - exists a. split; [reflexivity | exact H].
  - discriminate H.
Qed.

Lemma bind_raise {A B : Type} (m : result A) (k : A -> result B) (e : exception) :
  m = Raise e -> bind m k = Raise e.
Proof. intros ->. reflexivity. Qed.

Lemma mapM_ok {A B : Type} (f : A -> result B) (xs : list A) (ys : list B) :
  mapM f xs = Ok ys -> Forall2 (fun x y => f x = Ok y) xs ys.
Proof.
  revert ys. induction xs as [| x xs IH]; simpl; intros ys H.
  - injection H as <-. constructor.
  - apply bind_ok in H as [y [Hy H]].
    apply bind_ok in H as [ys' [Hys H]].
    injection H as <-. constructor; auto.
Qed.

Lemma mapM_total {A B : Type} (f : A -> result B) (xs : list A) :
  Forall (fun x => exists y, f x = Ok y) xs -> exists ys, mapM f xs = Ok ys.
Proof.
  induction 1 as [| x xs [y Hy] _ [ys Hys]]; simpl.
  - exists []. reflexivity.
  - rewrite Hy, Hys. simpl. exists (y :: ys). reflexivity.
Qed.

Lemma mapM_raise {A B : Type} (f : A -> result B) (xs : list A) :
  Exists (fun x => is_ok (f x) = false) xs -> is_ok (mapM f xs) = false.
Proof.
  induction 1 as [x xs Hx | x xs _ IH]; simpl.
  - destruct (f x); [discriminate Hx | reflexivity].
  - destruct (f x); simpl; [| reflexivity].
    destruct (mapM f xs); [discriminate IH | reflexivity].
Qed.

(** ** Comparisons *)

Lemma Qltb_lt (a b : Q) : Qltb a b = true <-> (a < b)%Q.
Proof.
  unfold Qltb. rewrite Qlt_alt.
  destruct (a ?= b)%Q; split; intros H; congruence.
Qed.

Lemma Qltb_ge (a b : Q) : Qltb a b = false <-> (b <= a)%Q.
Proof.
  split; intros H.
  - apply Qnot_lt_le. intros Hlt. apply Qltb_lt in Hlt. congruence.
  - destruct (Qltb a b) eqn:E; [| reflexivity].
    apply Qltb_lt in E. exfalso. apply (Qlt_not_le _ _ E H).
Qed.

Lemma Qeqb_eq (a b : Q) : Qeqb a b = true <-> (a == b)%Q.
Proof.
  unfold Qeqb. rewrite Qeq_alt.
  destruct (a ?= b)%Q; split; intros H; congruence.
Qed.

Lemma Qeqb_refl (a : Q) : Qeqb a a = true.
Proof. apply Qeqb_eq. reflexivity. Qed.

(** ** The minimum of an array *)

Lemma fold_qmin_In (xs : list Q) (x : Q) :
  fold_left qmin xs x = x \/ In (fold_left qmin xs x) xs.
Proof.
  revert x. induction xs as [| y xs IH]; intros x; simpl.
  - left. reflexivity.
  - destruct (IH (qmin x y)) as [H | H].
    + rewrite H. unfold qmin. destruct (Qltb y x); auto.
    + right. right. exact H.
Qed.

Lemma fold_qmin_le (xs : list Q) (x : Q) :
  (fold_left qmin xs x <= x)%Q /\
  Forall (fun y => (fold_left qmin xs x <= y)%Q) xs.
Proof.
  revert x. induction xs as [| y xs IH]; intros x; simpl.
  - split; [apply Qle_refl | constructor].
  - destruct (IH (qmin x y)) as [H1 H2].
    assert (Hx : (qmin x y <= x)%Q).
    { unfold qmin. destruct (Qltb y x) eqn:E.
      - apply Qlt_le_weak, Qltb_lt, E.
      - apply Qle_refl. }
    assert (Hy : (qmin x y <= y)%Q).
    { unfold qmin. destruct (Qltb y x) eqn:E.
      - apply Qle_refl.
      - apply Qltb_ge, E. }
    split; [eapply Qle_trans; eauto |].
    constructor; [eapply Qle_trans; eauto | exact H2].
Qed.

(** [Sxx.min()] is a cell of [Sxx] and no cell is below it. *)
Lemma amin_spec (M : Np.matrix) (m : Q) :
  Np.amin M = Ok m ->
  In m (concat M) /\ Forall (fun y => (m <= y)%Q) (concat M).
Proof.
  unfold Np.amin. destruct (concat M) as [| x xs]; [discriminate |].
  intros H. injection H as <-. split.
  - destruct (fold_qmin_In xs x) as [-> | H]; [left | right]; auto.
  - destruct (fold_qmin_le xs x) as [H1 H2]. constructor; assumption.
Qed.

Lemma amin_nonempty (M : Np.matrix) :
  concat M <> [] -> exists m, Np.amin M = Ok m.
Proof.
  unfold Np.amin. destruct (concat M) as [| x xs]; [congruence |].
  intros _. eexists. reflexivity.
Qed.

(** The validation raises exactly when the threshold is strictly below the
    minimum of a non-empty spectrogram. *)
Lemma validate_threshold_spec (Sxx : Np.matrix) (m t : Q) :
  Np.amin Sxx = Ok m ->
  (validate_threshold Sxx (Some t) = Raise (ValueError below_minimum_msg)
     <-> (t < m)%Q) /\
  (validate_threshold Sxx (Some t) = Ok tt <-> (m <= t)%Q).
Proof.
  intros Hm. unfold validate_threshold. rewrite Hm. simpl.
  destruct (Qltb t m) eqn:E.
  - apply Qltb_lt in E. split; split; intros H; try reflexivity; try exact E.
    + discriminate H.
    + exfalso. apply (Qlt_not_le _ _ E H).
  - apply Qltb_ge in E. split; split; intros H; try reflexivity; try exact E.
    + discriminate H.
    + exfalso. apply (Qlt_not_le _ _ H E).
Qed.

(** ** Index arrays *)

Lemma take_ok (v : list Q) (idx : list nat) (out : list Q) :
  Np.take v idx = Ok out ->
  out = map (fun i => nth i v 0%Q) idx /\ Forall (fun i => i < length v) idx.
Proof.
  unfold Np.take. intros H. apply mapM_ok in H.
  induction H as [| i x idx out Hix _ [IH1 IH2]]; simpl.
  - split; [reflexivity | constructor].
  - destruct (nth_error v i) as [y |] eqn:E; [| discriminate Hix].
    injection Hix as <-. split.
    + f_equal; [| exact IH1]. symmetry. apply nth_error_nth. exact E.
    + constructor; [| exact IH2]. apply nth_error_Some. congruence.
Qed.

Lemma take_total (v : list Q) (idx : list nat) :
  Forall (fun i => i < length v) idx -> exists out, Np.take v idx = Ok out.
Proof.
  intros H. apply mapM_total. revert H. apply Forall_impl. intros i Hi.
  destruct (nth_error v i) as [y |] eqn:E.
  - exists y. reflexivity.
  - apply nth_error_None in E. lia.
Qed.

Lemma existsb_eqb_In (i : nat) (l : list nat) :
  existsb (Nat.eqb i) l = true <-> In i l.
Proof.
  rewrite existsb_exists. split.
  - intros [x [Hx E]]. apply Nat.eqb_eq in E. subst. exact Hx.
  - intros H. exists i. split; [exact H | apply Nat.eqb_refl].
Qed.

Lemma argwhere_In (nr nc : nat) (mask : nat -> nat -> bool) (r c : nat) :
  In (r, c) (Np.argwhere nr nc mask) <-> r < nr /\ c < nc /\ mask r c = true.
Proof.
  unfold Np.argwhere. rewrite in_flat_map. split.
  - intros [r' [Hr' H]]. apply in_map_iff in H as [c' [E H]].
    injection E as -> ->. apply filter_In in H as [H1 H2].
    apply in_seq in Hr'. apply in_seq in H1. repeat split; [lia | lia | exact H2].
  - intros (Hr & Hc & Hm). exists r. split; [apply in_seq; lia |].
    apply in_map. apply filter_In. split; [apply in_seq; lia | exact Hm].
Qed.

Lemma flat_map_NoDup {A B : Type} (f : A -> list B) (l : list A) :
  NoDup l ->
  (forall x, In x l -> NoDup (f x)) ->
  (forall x y b, In x l -> In y l -> In b (f x) -> In b (f y) -> x = y) ->
  NoDup (flat_map f l).
Proof.
  induction 1 as [| x l Hx Hl IH]; simpl; intros Hf Hinj.
  - constructor.
  - apply NoDup_app.
    + apply Hf. left. reflexivity.
    + apply IH.
      * intros y Hy. apply Hf. right. exact Hy.
      * intros y z b Hy Hz. apply Hinj; right; assumption.
    + intros b Hb Hb'. apply in_flat_map in Hb' as [y [Hy Hby]].
      assert (x = y) by (apply (Hinj x y b); simpl; auto).
      subst. contradiction.
Qed.

Lemma argwhere_NoDup (nr nc : nat) (mask : nat -> nat -> bool) :
  NoDup (Np.argwhere nr nc mask).
Proof.
  unfold Np.argwhere. apply flat_map_NoDup.
  - apply seq_NoDup.
  - intros r _. apply Finite.Injective_map_NoDup.
    + intros a b E. injection E. auto.
    + apply NoDup_filter, seq_NoDup.
  - intros r r' b _ _ H H'.
    apply in_map_iff in H as [c [<- _]]. apply in_map_iff in H' as [c' [E _]].
    injection E. auto.
Qed.

(** What [np.delete] keeps: the elements whose position is not listed. *)
Lemma combine_seq_In {A : Type} (v : list A) (s i : nat) (x : A) :
  In (i, x) (combine (seq s (length v)) v) <->
  s <= i /\ nth_error v (i - s) = Some x.
Proof.
  revert s. induction v as [| y v IH]; intros s; simpl.
  - split; [intros [] | intros [_ H]]. destruct (i - s); discriminate H.
  - rewrite IH. split.
    + intros [E | [Hs H]].
      * injection E as <- <-. rewrite Nat.sub_diag. split; [lia | reflexivity].
      * split; [lia |]. replace (i - s) with (S (i - S s)) by lia. exact H.
    + intros [Hs H]. destruct (i - s) as [| k] eqn:E.
      * left. injection H as <-. f_equal. lia.
      * right. split; [lia |]. replace (i - S s) with k by lia. exact H.
Qed.

Lemma delete_In {A : Type} (v : list A) (rejected : list nat) (x : A) :
  In x (Np.delete v rejected) <->
  exists i, nth_error v i = Some x /\ ~ In i rejected.
Proof.
  unfold Np.delete. rewrite in_map_iff. split.
  - intros [[i y] [E H]]. simpl in E. subst y.
    apply filter_In in H as [H1 H2]. simpl in H2.
    apply combine_seq_In in H1 as [_ H1]. rewrite Nat.sub_0_r in H1.
    exists i. split; [exact H1 |]. intros Hin.
    apply existsb_eqb_In in Hin. rewrite Hin in H2. discriminate H2.
  - intros [i [H1 H2]]. exists (i, x). split; [reflexivity |].
    apply filter_In. split.
    + apply combine_seq_In. rewrite Nat.sub_0_r. split; [lia | exact H1].
    + simpl. destruct (existsb (Nat.eqb i) rejected) eqn:E; [| reflexivity].
      apply existsb_eqb_In in E. contradiction.
Qed.

Lemma delete_incl {A : Type} (v : list A) (rejected : list nat) :
  incl (Np.delete v rejected) v.
Proof.
  intros x H. apply delete_In in H as [i [H _]].
  eapply nth_error_In. exact H.
Qed.

Lemma filter_combine_NoDup {A : Type} (f : nat * A -> bool) (v : list A) (s : nat) :
  NoDup v -> NoDup (map snd (filter f (combine (seq s (length v)) v))).
Proof.
  intros H. revert s. induction H as [| x v Hx Hv IH]; intros s; simpl.
  - constructor.
  - destruct (f (s, x)); simpl; [| apply IH].
    constructor; [| apply IH].
    intros Hin. apply Hx. apply in_map_iff in Hin as [[i y] [E Hy]].
    simpl in E. subst y. apply filter_In in Hy as [Hy _].
    eapply in_combine_r. exact Hy.
Qed.

Lemma delete_NoDup {A : Type} (v : list A) (rejected : list nat) :
  NoDup v -> NoDup (Np.delete v rejected).
Proof. apply filter_combine_NoDup. Qed.

(** ** The candidates sorted by intensity are the candidates *)

Lemma insert_by_intensity_perm (image : Np.matrix) (p : Skimage.coord)
      (l : list Skimage.coord) :
  Permutation (Skimage.insert_by_intensity image p l) (p :: l).
Proof.
  induction l as [| q l IH]; simpl.
  - apply Permutation_refl.
  - destruct (Qltb _ _).
    + eapply perm_trans; [apply perm_skip, IH | apply perm_swap].
    + apply Permutation_refl.
Qed.

Lemma sort_by_intensity_perm (image : Np.matrix) (l : list Skimage.coord) :
  Permutation (Skimage.sort_by_intensity image l) l.
Proof.
  induction l as [| p l IH]; simpl.
  - apply Permutation_refl.
  - eapply perm_trans; [apply insert_by_intensity_perm | apply perm_skip, IH].
Qed.

(** ** Spacing *)

Lemma reject_step_mono (coords : list Skimage.coord) (spacing : Z)
      (rejected : list nat) (idx x : nat) :
  In x rejected -> In x (Skimage.reject_step coords spacing rejected idx).
Proof.
  intros H. unfold Skimage.reject_step.
  destruct (existsb _ rejected); [exact H | apply in_or_app; left; exact H].
Qed.

Lemma fold_reject_mono (coords : list Skimage.coord) (spacing : Z)
      (l : list nat) (rejected : list nat) (x : nat) :
  In x rejected ->
  In x (fold_left (Skimage.reject_step coords spacing) l rejected).
Proof.
  revert rejected. induction l as [| a l IH]; simpl; intros rejected H.
  - exact H.
  - apply IH, reject_step_mono, H.
Qed.

(** A point that is never rejected has rejected every other point closer
    than [spacing]. *)
Lemma fold_reject_closed (coords : list Skimage.coord) (spacing : Z)
      (l : list nat) (rejected : list nat) (i c : nat) :
  In i l ->
  ~ In i (fold_left (Skimage.reject_step coords spacing) l rejected) ->
  c < length coords -> c <> i ->
  Z.lt (Skimage.chebyshev (nth i coords (0, 0)) (nth c coords (0, 0))) spacing ->
  In c (fold_left (Skimage.reject_step coords spacing) l rejected).
Proof.
  revert rejected. induction l as [| a l IH]; simpl; intros rejected Hi Hnot Hc Hne Hd.
  - contradiction.
  - destruct Hi as [-> | Hi]; [| apply IH; assumption].
    apply fold_reject_mono. unfold Skimage.reject_step.
    destruct (existsb (Nat.eqb i) rejected) eqn:E.
    + exfalso. apply Hnot. apply fold_reject_mono, reject_step_mono.
      apply existsb_eqb_In. exact E.
    + apply in_or_app. right. apply filter_In. split.
      * apply in_seq. lia.
      * apply andb_true_iff. split.
        -- apply negb_true_iff, Nat.eqb_neq. exact Hne.
        -- apply Z.ltb_lt. exact Hd.
Qed.

Lemma ensure_spacing_separated (coords : list Skimage.coord) (spacing : Z)
      (p q : Skimage.coord) :
  In p (Skimage.ensure_spacing coords spacing) ->
  In q (Skimage.ensure_spacing coords spacing) ->
  p <> q ->
  (spacing <= Skimage.chebyshev p q)%Z.
Proof.
  unfold Skimage.ensure_spacing, Skimage.rejected_peaks_indices.
  intros Hp Hq Hne.
  apply delete_In in Hp as [i [Hi Hri]]. apply delete_In in Hq as [j [Hj Hrj]].
  destruct (Z_lt_le_dec (Skimage.chebyshev p q) spacing) as [Hlt | Hle];
    [exfalso | exact Hle].
  assert (Hil : i < length coords) by (apply nth_error_Some; congruence).
  assert (Hjl : j < length coords) by (apply nth_error_Some; congruence).
  apply Hrj. apply (fold_reject_closed coords spacing _ [] i j).
  - apply in_seq. lia.
  - exact Hri.
  - exact Hjl.
  - intros ->. rewrite Hi in Hj. injection Hj as E. contradiction.
  - erewrite !nth_error_nth by eassumption. exact Hlt.
Qed.

(** ** The peak detector *)

Lemma high_intensity_peaks_In (image : Np.matrix) (mask : nat -> nat -> bool)
      (d : Z) (p : Skimage.coord) :
  In p (Skimage.get_high_intensity_peaks image mask d) ->
  In p (Np.argwhere (Np.nrows image) (Np.ncols image) mask).
Proof.
  unfold Skimage.get_high_intensity_peaks, Skimage.ensure_spacing. intros H.
  apply delete_incl in H.
  eapply Permutation_in; [apply sort_by_intensity_perm | exact H].
Qed.

Lemma high_intensity_peaks_NoDup (image : Np.matrix) (mask : nat -> nat -> bool)
      (d : Z) :
  NoDup (Skimage.get_high_intensity_peaks image mask d).
Proof.
  unfold Skimage.get_high_intensity_peaks, Skimage.ensure_spacing.
  apply delete_NoDup.
  eapply Permutation_NoDup;
    [apply Permutation_sym, sort_by_intensity_perm | apply argwhere_NoDup].
Qed.

Lemma exclude_border_true (label : nat -> nat -> bool) (nr nc w r c : nat) :
  Skimage.exclude_border label nr nc w r c = true ->
  r < nr -> c < nc ->
  label r c = true /\ w <= r /\ r + w < nr /\ w <= c /\ c + w < nc.
Proof.
  unfold Skimage.exclude_border, Skimage.inside.
  destruct (w =? 0) eqn:E; intros H Hr Hc.
  - apply Nat.eqb_eq in E. subst w. repeat split; [exact H | lia ..].
  - apply andb_true_iff in H as [H H3]. apply andb_true_iff in H as [H1 H2].
    apply andb_true_iff in H2 as [H2 H2']. apply andb_true_iff in H3 as [H3 H3'].
    apply Nat.leb_le in H2, H3. apply Nat.ltb_lt in H2', H3'.
    repeat split; assumption.
Qed.

(** What a successful call of [peak_local_max] returned. *)
Lemma peak_local_max_ok (image : Np.matrix) (d : Z) (threshold_abs : option Q)
      (peaks : list Skimage.coord) :
  Skimage.peak_local_max image d threshold_abs = Ok peaks ->
  (0 <= d)%Z /\ NoDup peaks /\
  (forall p, In p peaks -> off_border image d p) /\
  (forall p q, In p peaks -> In q peaks -> p <> q ->
               (d <= Skimage.chebyshev p q)%Z).
Proof.
  unfold Skimage.peak_local_max. intros H.
  apply bind_ok in H as [threshold [_ H]].
  destruct (d <? 0)%Z eqn:E; [discriminate H |].
  apply Z.ltb_ge in E. injection H as <-.
  split; [exact E |]. split; [apply high_intensity_peaks_NoDup |]. split.
  - intros [r c] Hp. apply high_intensity_peaks_In in Hp.
    apply argwhere_In in Hp as (Hr & Hc & Hm).
    apply exclude_border_true in Hm as (_ & H1 & H2 & H3 & H4); [| assumption ..].
    unfold off_border. simpl. lia.
  - intros p q Hp Hq. unfold Skimage.get_high_intensity_peaks in Hp, Hq.
    eapply ensure_spacing_separated; eassumption.
Qed.

(** What a successful call of [spectrogram_local_max] went through. *)
Lemma spectrogram_local_max_ok (Sxx : Np.matrix) (tn fn : list Q) (d : Z)
      (threshold_abs : option Q) (peak_time peak_frequency : list Q) :
  spectrogram_local_max Sxx tn fn d threshold_abs = Ok (peak_time, peak_frequency) ->
  exists peaks,
    validate_threshold Sxx threshold_abs = Ok tt /\
    Skimage.peak_local_max Sxx d threshold_abs = Ok peaks /\
    peak_time = map (fun p => nth (snd p) tn 0%Q) peaks /\
    peak_frequency = map (fun p => nth (fst p) fn 0%Q) peaks /\
    Forall (fun p => fst p < length fn /\ snd p < length tn) peaks.
Proof.
  unfold spectrogram_local_max. intros H.
  apply bind_ok in H as [[] [Hv H]].
  apply bind_ok in H as [peaks [Hp H]].
  apply bind_ok in H as [pt [Ht H]].
  apply bind_ok in H as [pf [Hf H]].
  injection H as <- <-.
  apply take_ok in Ht as [-> Ht]. apply take_ok in Hf as [-> Hf].
  exists peaks. rewrite !map_map. repeat split; try assumption; try reflexivity.
  apply Forall_forall. intros p Hp'. split.
  - rewrite Forall_forall in Hf. apply Hf, in_map, Hp'.
  - rewrite Forall_forall in Ht. apply Ht, in_map, Hp'.
Qed.

(** The call returns a peak set whenever the threshold passes the validation,
    [min_distance] is not negative and the axes cover the spectrogram. *)
Lemma spectrogram_local_max_returns (Sxx : Np.matrix) (tn fn : list Q) (d : Z)
      (threshold_abs : option Q) :
  concat Sxx <> [] ->
  validate_threshold Sxx threshold_abs = Ok tt ->
  (0 <= d)%Z ->
  Np.nrows Sxx <= length fn -> Np.ncols Sxx <= length tn ->
  exists peak_time peak_frequency,
    spectrogram_local_max Sxx tn fn d threshold_abs = Ok (peak_time, peak_frequency).
Proof.
  intros Hne Hv Hd Hfn Htn. unfold spectrogram_local_max. rewrite Hv. simpl.
  assert (Hp : exists peaks, Skimage.peak_local_max Sxx d threshold_abs = Ok peaks /\
                             forall p, In p peaks ->
                                       fst p < Np.nrows Sxx /\ snd p < Np.ncols Sxx).
  { unfold Skimage.peak_local_max.
    assert (Ht : exists t, Skimage.get_threshold Sxx threshold_abs = Ok t).
    { destruct threshold_abs as [t |]; simpl; [eauto | apply amin_nonempty, Hne]. }
    destruct Ht as [t ->]. simpl.
    apply Z.ltb_ge in Hd. rewrite Hd. eexists. split; [reflexivity |].
    intros [r c] Hp. apply high_intensity_peaks_In in Hp.
    apply argwhere_In in Hp as (Hr & Hc & _). simpl. split; assumption. }
  destruct Hp as [peaks [-> Hin]]. simpl.
  destruct (take_total tn (map snd peaks)) as [pt ->].
  { apply Forall_forall. intros c Hc. apply in_map_iff in Hc as [p [<- Hp]].
    apply Hin in Hp. lia. }
  destruct (take_total fn (map fst peaks)) as [pf ->].
  { apply Forall_forall. intros r Hr. apply in_map_iff in Hr as [p [<- Hp]].
    apply Hin in Hp. lia. }
  simpl. eauto.
Qed.

(** ** Claims about [spectrogram_local_max] *)

(** C1, at the input where the code departs from it: with [threshold_abs]
    equal to the minimum of the spectrogram (-80 dB, the clipped floor) the
    validation raises nothing, the peak detection runs and a peak set is
    returned.  The test of the code is [threshold_abs < Sxx.min()]. *)
Theorem threshold_equal_to_minimum_is_accepted :
  Np.amin Sxx_floor = Ok (-80)%Q /\
  validate_threshold Sxx_floor (Some (-80)%Q) = Ok tt /\
  spectrogram_local_max Sxx_floor [0; 1; 2]%Q [0; 100; 200]%Q 1 (Some (-80)%Q)
  = Ok ([1]%Q, [100]%Q).
Proof. repeat split; vm_compute; reflexivity. Qed.

(** C9 as stated fails: on a flat 2 x 2 spectrogram of value 5 with
    [threshold_abs = 4] no peak set is returned at all. *)
Lemma flat_spectrogram_returns_no_peak_set :
  ~ exists peak_time peak_frequency,
      spectrogram_local_max Sxx_flat [0; 1]%Q [0; 1]%Q 1 (Some 4%Q)
      = Ok (peak_time, peak_frequency).
Proof. intros (pt & pf & H). vm_compute in H. discriminate H. Qed.

(** C9, amended: for every flat spectrogram (at least one cell, all cells
    equal to [c]) and every [threshold_abs] strictly below [c],
    [spectrogram_local_max] raises the below-minimum [ValueError]; no peak is
    computed. *)
Theorem flat_spectrogram_below_threshold_raises
        (Sxx : Np.matrix) (c t : Q) (tn fn : list Q) (min_distance : Z) :
  flat Sxx c -> (t < c)%Q ->
  spectrogram_local_max Sxx tn fn min_distance (Some t)
  = Raise (ValueError below_minimum_msg).
Proof.
  intros [Hne Hflat] Hlt.
  destruct (amin_nonempty Sxx Hne) as [m Hm].
  destruct (amin_spec Sxx m Hm) as [Hin _].
  rewrite Forall_forall in Hflat. apply Hflat in Hin.
  unfold spectrogram_local_max. apply bind_raise.
  apply (validate_threshold_spec Sxx m t Hm). rewrite Hin. exact Hlt.
Qed.

Lemma flat_spectrogram_below_threshold_raises_witness :
  flat Sxx_flat 5 /\ (4 < 5)%Q /\
  spectrogram_local_max Sxx_flat [0; 1]%Q [0; 1]%Q 1 (Some 4%Q)
  = Raise (ValueError below_minimum_msg).
Proof.
  assert (Hflat : flat Sxx_flat 5).
  { split; [discriminate |]. repeat constructor. }
  assert (Hlt : (4 < 5)%Q) by reflexivity.
  split; [exact Hflat |]. split; [exact Hlt |].
  exact (flat_spectrogram_below_threshold_raises
           Sxx_flat 5 4 [0; 1]%Q [0; 1]%Q 1 Hflat Hlt).
Defined.

(** C10: no peak returned by [spectrogram_local_max] has a raw index within
    [min_distance] cells of a border of the spectrogram: the returned
    coordinates are the axis values at index pairs [(r, c)] with
    [min_distance <= r < rows - min_distance] and
    [min_distance <= c < columns - min_distance]. *)
Theorem border_peaks_are_excluded
        (Sxx : Np.matrix) (tn fn : list Q) (min_distance : Z)
        (threshold_abs : option Q) (peak_time peak_frequency : list Q) :
  spectrogram_local_max Sxx tn fn min_distance threshold_abs
  = Ok (peak_time, peak_frequency) ->
  exists peaks,
    Skimage.peak_local_max Sxx min_distance threshold_abs = Ok peaks /\
    peak_time = map (fun p => nth (snd p) tn 0%Q) peaks /\
    peak_frequency = map (fun p => nth (fst p) fn 0%Q) peaks /\
    Forall (off_border Sxx min_distance) peaks.
Proof.
  intros H. apply spectrogram_local_max_ok in H as (peaks & _ & Hp & Ht & Hf & _).
  exists peaks. repeat split; try assumption.
  apply Forall_forall. apply (peak_local_max_ok _ _ _ _ Hp).
Qed.

(** On the 5 x 5 grid the corner cell holds the highest value, 9, and is not
    returned; the two peaks are the plateau cells [(2, 2)] and [(2, 3)]. *)
Lemma border_peaks_are_excluded_witness :
  spectrogram_local_max Sxx_grid tn_grid fn_grid 1 (Some 0%Q)
  = Ok ([2; 3]%Q, [30; 30]%Q) /\
  exists peaks,
    Skimage.peak_local_max Sxx_grid 1 (Some 0%Q) = Ok peaks /\
    [2; 3]%Q = map (fun p => nth (snd p) tn_grid 0%Q) peaks /\
    [30; 30]%Q = map (fun p => nth (fst p) fn_grid 0%Q) peaks /\
    Forall (off_border Sxx_grid 1) peaks.
Proof.
  assert (H : spectrogram_local_max Sxx_grid tn_grid fn_grid 1 (Some 0%Q)
              = Ok ([2; 3]%Q, [30; 30]%Q)) by (vm_compute; reflexivity).
  split; [exact H |].
  exact (border_peaks_are_excluded Sxx_grid tn_grid fn_grid 1 (Some 0%Q) _ _ H).
Defined.

(** C6: for every spectrogram and every [min_distance] (positive or not), the
    peak set returned by [spectrogram_local_max] keeps the PeakSet invariant:
    every returned frequency is a member of [fn], every returned time a member
    of [tn]; no cell is returned twice, and the peaks at any two positions of
    the returned arrays are at least [min_distance] cells apart in raw index
    space (the larger of the row and column differences). *)
Theorem peak_set_invariant
        (Sxx : Np.matrix) (tn fn : list Q) (min_distance : Z)
        (threshold_abs : option Q) (peak_time peak_frequency : list Q) :
  spectrogram_local_max Sxx tn fn min_distance threshold_abs
  = Ok (peak_time, peak_frequency) ->
  Forall (fun f => In f fn) peak_frequency /\
  Forall (fun t => In t tn) peak_time /\
  exists peaks,
    Skimage.peak_local_max Sxx min_distance threshold_abs = Ok peaks /\
    peak_time = map (fun p => nth (snd p) tn 0%Q) peaks /\
    peak_frequency = map (fun p => nth (fst p) fn 0%Q) peaks /\
    NoDup peaks /\
    (forall i j, i < j < length peaks ->
                 (min_distance
                  <= Skimage.chebyshev (nth i peaks (0%nat, 0%nat)) (nth j peaks (0%nat, 0%nat)))%Z) /\
    (forall p q, In p peaks -> In q peaks -> p <> q ->
                 (min_distance <= Skimage.chebyshev p q)%Z).
Proof.
  intros H.
  apply spectrogram_local_max_ok in H as (peaks & _ & Hp & -> & -> & Hin).
  rewrite Forall_forall in Hin.
  destruct (peak_local_max_ok _ _ _ _ Hp) as (_ & Hnd & _ & Hsep).
  split; [| split].
  - apply Forall_forall. intros f Hf. apply in_map_iff in Hf as [p [<- Hp']].
    apply nth_In, (Hin p Hp').
  - apply Forall_forall. intros t Ht. apply in_map_iff in Ht as [p [<- Hp']].
    apply nth_In, (Hin p Hp').
  - exists peaks. repeat split; try assumption; try reflexivity.
    intros i j [Hij Hj]. apply Hsep.
    + apply nth_In. lia.
    + apply nth_In. exact Hj.
    + intros E. apply (proj1 (NoDup_nth peaks (0%nat, 0%nat)) Hnd) in E; lia.
Qed.

(** On the 9 x 9 grid with [min_distance = 2] the two cells of the plateau,
    one cell apart, are both candidates: one of them is returned, beside the
    peak of its own. *)
Lemma peak_set_invariant_witness :
  spectrogram_local_max Sxx_clustered tn_clustered fn_clustered 2 (Some (1 # 2)%Q)
  = Ok ([2; 5]%Q, [20; 50]%Q) /\
  Forall (fun f => In f fn_clustered) [20; 50]%Q /\
  Forall (fun t => In t tn_clustered) [2; 5]%Q /\
  exists peaks,
    Skimage.peak_local_max Sxx_clustered 2 (Some (1 # 2)%Q) = Ok peaks /\
    [2; 5]%Q = map (fun p => nth (snd p) tn_clustered 0%Q) peaks /\
    [20; 50]%Q = map (fun p => nth (fst p) fn_clustered 0%Q) peaks /\
    NoDup peaks /\
    (forall i j, i < j < length peaks ->
                 (2 <= Skimage.chebyshev (nth i peaks (0%nat, 0%nat)) (nth j peaks (0%nat, 0%nat)))%Z) /\
    (forall p q, In p peaks -> In q peaks -> p <> q ->
                 (2 <= Skimage.chebyshev p q)%Z).
Proof.
  assert (H : spectrogram_local_max Sxx_clustered tn_clustered fn_clustered 2
                (Some (1 # 2)%Q)
              = Ok ([2; 5]%Q, [20; 50]%Q)) by (vm_compute; reflexivity).
  split; [exact H |].
  exact (peak_set_invariant Sxx_clustered tn_clustered fn_clustered 2
           (Some (1 # 2)%Q) _ _ H).
Defined.

(** ** The table of counts of [np.unique] *)

Lemma Qeqb_neq (a b : Q) : Qeqb a b = false <-> ~ (a == b)%Q.
Proof.
  split; intros H.
  - intros E. apply Qeqb_eq in E. congruence.
  - destruct (Qeqb a b) eqn:E; [| reflexivity].
    apply Qeqb_eq in E. contradiction.
Qed.

Lemma Qeqb_lt_false (a b : Q) : (a < b)%Q -> Qeqb a b = false.
Proof. intros H. apply Qeqb_neq. intros E. rewrite E in H. apply (Qlt_irrefl _ H). Qed.

Lemma Qeqb_gt_false (a b : Q) : (b < a)%Q -> Qeqb a b = false.
Proof. intros H. apply Qeqb_neq. intros E. rewrite E in H. apply (Qlt_irrefl _ H). Qed.

Lemma split_maps {A B : Type} (l : list (A * B)) :
  List.split l = (map fst l, map snd l).
Proof.
  induction l as [| [a b] l IH]; simpl; [reflexivity |].
  rewrite IH. reflexivity.
Qed.

Lemma count_in_fst (x : Q) (l : list (Q * nat)) (e : Q * nat) :
  In e (NpCount.count_in x l) ->
  fst e = x \/ exists e', In e' l /\ fst e' = fst e.
Proof.
  induction l as [| [y n] l IH]; simpl.
  - intros [<- | []]. left. reflexivity.
  - destruct (x ?= y)%Q; simpl.
    + intros [<- | H]; right; [exists (y, n) | exists e]; simpl; auto.
    + intros [<- | [<- | H]]; [left; reflexivity | right; exists (y, n) | right; exists e];
        simpl; auto.
    + intros [<- | H]; [right; exists (y, n); simpl; auto |].
      destruct (IH H) as [E | [e' [He' E]]]; [left; exact E |].
      right. exists e'. auto.
Qed.

Lemma count_in_sorted (x : Q) (l : list (Q * nat)) :
  StronglySorted lt_value l -> StronglySorted lt_value (NpCount.count_in x l).
Proof.
  induction l as [| [y n] l IH]; simpl; intros H.
  - repeat constructor.
  - apply StronglySorted_inv in H as [Hl Hy].
    destruct (x ?= y)%Q eqn:E.
    + constructor; [exact Hl |]. revert Hy. apply Forall_impl. intros e He. exact He.
    + apply Qlt_alt in E. constructor; [constructor; assumption |].
      constructor; [exact E |]. revert Hy. apply Forall_impl.
      unfold lt_value. simpl. intros e He. eapply Qlt_trans; eassumption.
    + apply Qgt_alt in E. constructor; [apply IH, Hl |].
      apply Forall_forall. intros e He. unfold lt_value. simpl.
      rewrite Forall_forall in Hy.
      destruct (count_in_fst _ _ _ He) as [-> | [e' [He' <-]]]; [exact E |].
      apply (Hy e' He').
Qed.

Lemma unique_table_sorted (v : list Q) :
  StronglySorted lt_value (fold_right NpCount.count_in [] v).
Proof.
  induction v as [| x v IH]; simpl; [constructor | apply count_in_sorted, IH].
Qed.

Lemma unique_table_members (v : list Q) :
  Forall (fun e => In (fst e) v) (fold_right NpCount.count_in [] v).
Proof.
  induction v as [| x v IH]; simpl; [constructor |].
  apply Forall_forall. intros e He. rewrite Forall_forall in IH.
  destruct (count_in_fst _ _ _ He) as [E | [e' [He' <-]]]; [left; auto |].
  right. apply IH, He'.
Qed.

Lemma count_in_positive (x : Q) (l : list (Q * nat)) :
  Forall (fun e => 0 < snd e) l -> Forall (fun e => 0 < snd e) (NpCount.count_in x l).
Proof.
  induction l as [| [y n] l IH]; simpl; intros H.
  - repeat constructor.
  - apply Forall_cons_iff in H as [Hn Hl]. simpl in Hn.
    destruct (x ?= y)%Q; repeat constructor; simpl; auto; lia.
Qed.

Lemma unique_table_positive (v : list Q) :
  Forall (fun e => 0 < snd e) (fold_right NpCount.count_in [] v).
Proof.
  induction v as [| x v IH]; simpl; [constructor | apply count_in_positive, IH].
Qed.

(** The count recorded for [f], 0 when [f] has no entry. *)
Lemma find_above_none (f : Q) (l : list (Q * nat)) :
  Forall (fun e => (f < fst e)%Q) l ->
  find (fun e => Qeqb f (fst e)) l = None.
Proof.
  induction 1 as [| e l He _ IH]; simpl; [reflexivity |].
  rewrite (Qeqb_lt_false _ _ He). exact IH.
Qed.

Lemma find_count_in (f x : Q) (l : list (Q * nat)) :
  StronglySorted lt_value l ->
  match find (fun e => Qeqb f (fst e)) (NpCount.count_in x l) with
  | Some e => snd e
  | None => 0
  end
  = (if Qeqb f x then 1 else 0) +
    match find (fun e => Qeqb f (fst e)) l with
    | Some e => snd e
    | None => 0
    end.
Proof.
  induction l as [| [y n] l IH]; simpl; intros H.
  - destruct (Qeqb f x); reflexivity.
  - apply StronglySorted_inv in H as [Hl Hy].
    destruct (x ?= y)%Q eqn:E; simpl.
    + apply Qeq_alt in E.
      destruct (Qeqb f y) eqn:Ey.
      * apply Qeqb_eq in Ey. assert (Ex : Qeqb f x = true).
        { apply Qeqb_eq. rewrite E. exact Ey. }
        rewrite Ex. reflexivity.
      * assert (Ex : Qeqb f x = false).
        { apply Qeqb_neq. intros Ex. apply Qeqb_neq in Ey. apply Ey.
          rewrite <- E. exact Ex. }
        rewrite Ex. reflexivity.
    + apply Qlt_alt in E.
      destruct (Qeqb f x) eqn:Ex.
      * apply Qeqb_eq in Ex.
        assert (Hfy : (f < y)%Q) by (rewrite Ex; exact E).
        rewrite (Qeqb_lt_false _ _ Hfy).
        rewrite find_above_none; [reflexivity |].
        revert Hy. apply Forall_impl. unfold lt_value. simpl. intros e He.
        eapply Qlt_trans; eassumption.
      * reflexivity.
    + apply Qgt_alt in E.
      destruct (Qeqb f y) eqn:Ey.
      * apply Qeqb_eq in Ey.
        assert (Hfx : (f < x)%Q) by (rewrite Ey; exact E).
        rewrite (Qeqb_lt_false _ _ Hfx). reflexivity.
      * apply IH, Hl.
Qed.

Lemma find_unique_table (f : Q) (v : list Q) :
  match find (fun e => Qeqb f (fst e)) (fold_right NpCount.count_in [] v) with
  | Some e => snd e
  | None => 0
  end = count_at f v.
Proof.
  induction v as [| x v IH]; simpl; [reflexivity |].
  rewrite find_count_in by apply unique_table_sorted. rewrite IH.
  unfold count_at. simpl. destruct (Qeqb f x); reflexivity.
Qed.

(** ** The indexed assignment [count_peak[indices] = ...] *)

Lemma assign_shift (idx : list nat) (vals a : list Q) (z : Q) :
  fold_left (fun a iv => NpCount.update a (fst iv) (snd iv))
            (combine (map S idx) vals) (z :: a)
  = z :: fold_left (fun a iv => NpCount.update a (fst iv) (snd iv))
                   (combine idx vals) a.
Proof.
  revert vals a. induction idx as [| i idx IH]; intros vals a; simpl.
  - reflexivity.
  - destruct vals as [| v vals]; simpl; [reflexivity | apply IH].
Qed.

Lemma isin_drop_head (fn : list Q) (u : Q) (U : list Q) :
  Forall (fun g => (u < g)%Q) fn ->
  NpCount.isin fn (u :: U) = NpCount.isin fn U.
Proof.
  intros H. unfold NpCount.isin. apply map_ext_in. intros g Hg. simpl.
  rewrite Forall_forall in H. rewrite (Qeqb_gt_false _ _ (H g Hg)). reflexivity.
Qed.

(** On an increasing axis, the indices found by [np.isin] and [np.where]
    meet the entries of the table of counts one for one and in the same
    order, so the assignment writes each count into its own bin. *)
Lemma assign_aligned (g : nat -> Q) (fn : list Q) :
  StronglySorted Qlt fn ->
  forall tbl : list (Q * nat),
    StronglySorted lt_value tbl ->
    Forall (fun e => In (fst e) fn) tbl ->
    let indices := NpCount.where_ (NpCount.isin fn (map fst tbl)) in
    length indices = length tbl /\
    fold_left (fun a iv => NpCount.update a (fst iv) (snd iv))
              (combine indices (map g (map snd tbl))) (repeat 0%Q (length fn))
    = map (fun f => match find (fun e => Qeqb f (fst e)) tbl with
                    | Some e => g (snd e)
                    | None => 0%Q
                    end) fn.
Proof.
  induction 1 as [| f fn Hs IH Hf]; intros tbl Ht Hin.
  - destruct tbl as [| e tbl]; [simpl; auto |].
    apply Forall_cons_iff in Hin as [[] _].
  - destruct tbl as [| [u c] tbl].
    + destruct (IH [] Ht (Forall_nil _)) as [Hlen Heq]. simpl in *.
      apply length_zero_iff_nil in Hlen. rewrite Hlen in *. simpl in *.
      split; [reflexivity |]. rewrite Heq. reflexivity.
    + apply StronglySorted_inv in Ht as [Ht Hu].
      apply Forall_cons_iff in Hin as [Hin_u Hin].
      assert (Hrest : forall e, In e tbl -> (u < fst e)%Q).
      { rewrite Forall_forall in Hu. exact Hu. }
      simpl in Hin_u. destruct Hin_u as [<- | Hin_u].
      * (* the first entry is the first bin *)
        assert (Hin' : Forall (fun e => In (fst e) fn) tbl).
        { apply Forall_forall. intros e He. rewrite Forall_forall in Hin.
          destruct (Hin e He) as [E | H]; [| exact H].
          exfalso. specialize (Hrest e He). rewrite <- E in Hrest.
          apply (Qlt_irrefl _ Hrest). }
        destruct (IH tbl Ht Hin') as [Hlen Heq].
        cbv zeta.
        change (NpCount.isin (f :: fn) (map fst ((f, c) :: tbl)))
          with (existsb (Qeqb f) (f :: map fst tbl)
                  :: NpCount.isin fn (f :: map fst tbl)).
        cbn [existsb]. rewrite Qeqb_refl. cbn [orb NpCount.where_].
        rewrite isin_drop_head by exact Hf.
        cbn [length map combine fold_left repeat NpCount.update fst snd].
        rewrite length_map. split; [f_equal; exact Hlen |].
        rewrite assign_shift, Heq. cbn [find fst snd]. rewrite Qeqb_refl.
        f_equal. apply map_ext_in. intros h Hh. rewrite Forall_forall in Hf.
        rewrite (Qeqb_gt_false _ _ (Hf h Hh)). reflexivity.
      * (* the first bin has no entry *)
        assert (Hfu : (f < u)%Q).
        { rewrite Forall_forall in Hf. apply Hf, Hin_u. }
        assert (Hin' : Forall (fun e => In (fst e) fn) ((u, c) :: tbl)).
        { constructor; [exact Hin_u |].
          apply Forall_forall. intros e He. rewrite Forall_forall in Hin.
          destruct (Hin e He) as [E | H]; [| exact H].
          exfalso. specialize (Hrest e He). rewrite <- E in Hrest.
          apply (Qlt_irrefl f). eapply Qlt_trans; eassumption. }
        assert (Ht' : StronglySorted lt_value ((u, c) :: tbl))
          by (constructor; assumption).
        destruct (IH _ Ht' Hin') as [Hlen Heq].
        assert (Hnone : find (fun e => Qeqb f (fst e)) ((u, c) :: tbl) = None).
        { apply find_above_none. constructor; [exact Hfu |].
          apply Forall_forall. intros e He. eapply Qlt_trans; [exact Hfu |].
          apply Hrest, He. }
        assert (Hex : existsb (Qeqb f) (map fst ((u, c) :: tbl)) = false).
        { destruct (existsb _ _) eqn:E; [| reflexivity].
          apply existsb_exists in E as [x [Hx E]].
          apply in_map_iff in Hx as [e [<- He]].
          apply find_none with (x := e) in Hnone; [congruence | exact He]. }
        cbv zeta.
        change (NpCount.isin (f :: fn) (map fst ((u, c) :: tbl)))
          with (existsb (Qeqb f) (map fst ((u, c) :: tbl))
                  :: NpCount.isin fn (map fst ((u, c) :: tbl))).
        rewrite Hex. cbn [NpCount.where_]. rewrite length_map.
        split; [exact Hlen |].
        change (repeat 0%Q (length (f :: fn))) with (0%Q :: repeat 0%Q (length fn)).
        rewrite assign_shift, Heq.
        change (map ?h (f :: fn)) with (h f :: map h fn). cbv beta.
        rewrite Hnone. reflexivity.
Qed.

(** The density row, bin by bin. *)
Lemma peak_density_eq (fn tn peak_freq : list Q) :
  StronglySorted Qlt fn ->
  Forall (fun f => In f fn) peak_freq ->
  peak_density fn tn peak_freq
  = Ok (map (density_at peak_freq (length tn)) fn).
Proof.
  intros Hs Hin. unfold peak_density, NpCount.unique_counts.
  rewrite split_maps.
  set (tbl := fold_right NpCount.count_in [] peak_freq).
  set (g := fun c => (inject_Z (Z.of_nat c) / inject_Z (Z.of_nat (length tn)))%Q).
  assert (Hmem : Forall (fun e => In (fst e) fn) tbl).
  { generalize (unique_table_members peak_freq). apply Forall_impl.
    intros e He. rewrite Forall_forall in Hin. apply Hin, He. }
  destruct (assign_aligned g fn Hs tbl (unique_table_sorted peak_freq) Hmem)
    as [Hlen Heq].
  unfold NpCount.setitem. rewrite !length_map, Hlen, Nat.eqb_refl.
  rewrite Heq. f_equal. apply map_ext. intros f.
  unfold density_at. rewrite <- (find_unique_table f peak_freq). fold tbl.
  destruct (find _ tbl) as [e |] eqn:E; [| reflexivity].
  apply find_some in E as [He _].
  pose proof (unique_table_positive peak_freq) as Hpos.
  rewrite Forall_forall in Hpos. specialize (Hpos e He).
  destruct (snd e); [lia | reflexivity].
Qed.

(** ** Claims about the density row *)

Lemma density_at_nil (n : nat) (fn : list Q) :
  map (density_at [] n) fn = repeat 0%Q (length fn).
Proof.
  induction fn as [| f fn IH]; simpl; [reflexivity | rewrite IH; reflexivity].
Qed.

(** C7: for a peak set drawn from the axes ([fn] increasing), the density row
    has one value per bin of the full frequency axis: at bin [f] the number of
    peaks at [f] over the number of time frames, and exactly 0 where no peak
    occurred; the row of an empty peak set is all zero. *)
Theorem density_row_over_full_axis (fn tn : list Q) (peaks : list (Q * Q)) :
  StronglySorted Qlt fn ->
  Forall (fun p => In (fst p) tn /\ In (snd p) fn) peaks ->
  exists row,
    peak_density fn tn (map snd peaks) = Ok row /\
    length row = length fn /\
    (forall i, i < length fn ->
       nth i row 0%Q = density_at (map snd peaks) (length tn) (nth i fn 0%Q)) /\
    (forall i, i < length fn ->
       count_at (nth i fn 0%Q) (map snd peaks) <> 0 ->
       nth i row 0%Q
       = (inject_Z (Z.of_nat (count_at (nth i fn 0%Q) (map snd peaks)))
          / inject_Z (Z.of_nat (length tn)))%Q) /\
    (forall i, i < length fn ->
       count_at (nth i fn 0%Q) (map snd peaks) = 0 -> nth i row 0%Q = 0%Q) /\
    (peaks = [] -> row = repeat 0%Q (length fn)).
Proof.
  intros Hs Hin.
  exists (map (density_at (map snd peaks) (length tn)) fn).
  assert (Hnth : forall i, i < length fn ->
            nth i (map (density_at (map snd peaks) (length tn)) fn) 0%Q
            = density_at (map snd peaks) (length tn) (nth i fn 0%Q)).
  { intros i Hi.
    rewrite (nth_indep _ 0%Q (density_at (map snd peaks) (length tn) 0%Q))
      by (rewrite length_map; exact Hi).
    apply map_nth. }
  repeat split.
  - apply peak_density_eq; [exact Hs |].
    apply Forall_forall. intros f Hf. apply in_map_iff in Hf as [p [<- Hp]].
    rewrite Forall_forall in Hin. apply (Hin p Hp).
  - apply length_map.
  - exact Hnth.
  - intros i Hi Hc. rewrite (Hnth i Hi). unfold density_at.
    destruct (count_at _ _); [congruence | reflexivity].
  - intros i Hi Hc. rewrite (Hnth i Hi). unfold density_at. rewrite Hc. reflexivity.
  - intros ->. apply density_at_nil.
Qed.

(** Three bins and four time frames; two peaks at 30 Hz, one at 10 Hz. *)
Lemma density_row_over_full_axis_witness :
  StronglySorted Qlt [10; 20; 30]%Q /\
  exists row,
    peak_density [10; 20; 30]%Q [0; 1; 2; 3]%Q
                 (map snd [(0, 30); (1, 10); (3, 30)]%Q) = Ok row /\
    length row = 3 /\
    (forall i, i < 3 ->
       nth i row 0%Q
       = density_at (map snd [(0, 30); (1, 10); (3, 30)]%Q) 4
                    (nth i [10; 20; 30]%Q 0%Q)) /\
    (forall i, i < 3 ->
       count_at (nth i [10; 20; 30]%Q 0%Q) (map snd [(0, 30); (1, 10); (3, 30)]%Q) <> 0 ->
       nth i row 0%Q
       = (inject_Z (Z.of_nat (count_at (nth i [10; 20; 30]%Q 0%Q)
                                       (map snd [(0, 30); (1, 10); (3, 30)]%Q)))
          / inject_Z (Z.of_nat 4))%Q) /\
    (forall i, i < 3 ->
       count_at (nth i [10; 20; 30]%Q 0%Q) (map snd [(0, 30); (1, 10); (3, 30)]%Q) = 0 ->
       nth i row 0%Q = 0%Q) /\
    ([(0, 30); (1, 10); (3, 30)]%Q = [] -> row = repeat 0%Q 3).
Proof.
  assert (Hs : StronglySorted Qlt [10; 20; 30]%Q).
  { repeat constructor; reflexivity. }
  split; [exact Hs |].
  refine (density_row_over_full_axis [10; 20; 30]%Q [0; 1; 2; 3]%Q
            [(0, 30); (1, 10); (3, 30)]%Q Hs _).
  repeat (first [apply Forall_nil | apply Forall_cons]); split; simpl; auto 10.
Defined.

(** C8 as stated fails: a sequence that repeats the pair (time 0, 100 Hz)
    gives the only bin of a one-frame recording the density 2. *)
Lemma repeated_peak_density_above_one :
  exists row,
    peak_density [100]%Q [0]%Q (map snd [(0, 100); (0, 100)]%Q) = Ok row /\
    ~ Forall (fun v => (0 <= v <= 1)%Q) row.
Proof.
  exists [2 # 1]%Q. split; [vm_compute; reflexivity |].
  intros H. apply Forall_inv in H as [_ H]. apply (Qlt_not_le 1 (2 # 1)); [reflexivity | exact H].
Qed.

Lemma sorted_nth_lt (fn : list Q) :
  StronglySorted Qlt fn ->
  forall i j, i < j -> j < length fn -> (nth i fn 0 < nth j fn 0)%Q.
Proof.
  induction 1 as [| f fn Hs IH Hf]; intros i j Hij Hj; simpl in Hj; [lia |].
  destruct j as [| j]; [lia |]. destruct i as [| i]; simpl.
  - rewrite Forall_forall in Hf. apply Hf, nth_In. lia.
  - apply IH; lia.
Qed.

Lemma sorted_nth_inj (fn : list Q) (i j : nat) :
  StronglySorted Qlt fn -> i < length fn -> j < length fn ->
  (nth i fn 0 == nth j fn 0)%Q -> i = j.
Proof.
  intros Hs Hi Hj E.
  destruct (Nat.lt_trichotomy i j) as [H | [H | H]]; [| exact H |]; exfalso.
  - pose proof (sorted_nth_lt fn Hs i j H Hj) as Hlt. rewrite E in Hlt.
    apply (Qlt_irrefl _ Hlt).
  - pose proof (sorted_nth_lt fn Hs j i H Hi) as Hlt. rewrite E in Hlt.
    apply (Qlt_irrefl _ Hlt).
Qed.

Lemma filter_map_comm {A B : Type} (h : A -> B) (P : B -> bool) (l : list A) :
  filter P (map h l) = map h (filter (fun x => P (h x)) l).
Proof.
  induction l as [| x l IH]; simpl; [reflexivity |].
  destruct (P (h x)); simpl; rewrite IH; reflexivity.
Qed.

(** Distinct cells of one row of the grid lie in distinct columns, so a bin
    holds at most as many peaks as there are time frames. *)
Lemma count_at_cells_le (fn : list Q) (ncol : nat) (cells : list Skimage.coord) (i : nat) :
  StronglySorted Qlt fn ->
  NoDup cells ->
  Forall (fun p => fst p < length fn /\ snd p < ncol) cells ->
  i < length fn ->
  count_at (nth i fn 0%Q) (freq_of_cells fn cells) <= ncol.
Proof.
  intros Hs Hnd Hin Hi. unfold count_at, freq_of_cells.
  rewrite filter_map_comm, length_map.
  set (S := filter (fun p => Qeqb (nth i fn 0%Q) (nth (fst p) fn 0%Q)) cells).
  rewrite Forall_forall in Hin.
  assert (HS : forall p, In p S -> fst p = i /\ snd p < ncol).
  { intros p Hp. apply filter_In in Hp as [Hp E]. apply Qeqb_eq in E.
    destruct (Hin p Hp) as [H1 H2]. split; [| exact H2].
    symmetry. eapply sorted_nth_inj; eassumption. }
  rewrite <- (length_map snd S), <- (length_seq ncol 0).
  apply NoDup_incl_length.
  - apply Finite.Injective_map_NoDup_in.
    + intros [r c] [r' c'] Hp Hq E. simpl in E. subst c'.
      apply HS in Hp as [Hp _]. apply HS in Hq as [Hq _]. simpl in *. congruence.
    + apply NoDup_filter, Hnd.
  - intros c Hc. apply in_map_iff in Hc as [p [<- Hp]].
    apply in_seq. apply HS in Hp. lia.
Qed.

Lemma density_at_unit (peak_freq : list Q) (n : nat) (f : Q) :
  count_at f peak_freq <= n ->
  (0 <= density_at peak_freq n f <= 1)%Q.
Proof.
  unfold density_at. destruct (count_at f peak_freq) as [| c] eqn:E; intros H.
  - split; [apply Qle_refl | discriminate].
  - assert (Hn : (0 < inject_Z (Z.of_nat n))%Q).
    { change 0%Q with (inject_Z 0). rewrite <- Zlt_Qlt. lia. }
    split.
    + apply Qle_shift_div_l; [exact Hn |]. rewrite Qmult_0_l.
      change 0%Q with (inject_Z 0). rewrite <- Zle_Qle. lia.
    + apply Qle_shift_div_r; [exact Hn |]. rewrite Qmult_1_l.
      rewrite <- Zle_Qle. lia.
Qed.

(** The density row of distinct cells of the grid lies in [0, 1]. *)
Lemma density_of_cells_unit (fn tn : list Q) (cells : list Skimage.coord) :
  StronglySorted Qlt fn ->
  NoDup cells ->
  Forall (fun p => fst p < length fn /\ snd p < length tn) cells ->
  exists row,
    peak_density fn tn (freq_of_cells fn cells) = Ok row /\
    length row = length fn /\
    Forall (fun v => (0 <= v <= 1)%Q) row.
Proof.
  intros Hs Hnd Hin.
  exists (map (density_at (freq_of_cells fn cells) (length tn)) fn).
  repeat split.
  - apply peak_density_eq; [exact Hs |].
    apply Forall_forall. intros f Hf. apply in_map_iff in Hf as [p [<- Hp]].
    rewrite Forall_forall in Hin. apply nth_In, (Hin p Hp).
  - apply length_map.
  - apply Forall_forall. intros v Hv. apply in_map_iff in Hv as [f [<- Hf]].
    apply density_at_unit.
    destruct (In_nth _ _ 0%Q Hf) as [i [Hi <-]].
    apply count_at_cells_le; assumption.
Qed.

Lemma sorted_In_Qeq (fn : list Q) (a b : Q) :
  StronglySorted Qlt fn -> In a fn -> In b fn -> (a == b)%Q -> a = b.
Proof.
  intros Hs Ha Hb E.
  destruct (In_nth _ _ 0%Q Ha) as [i [Hi <-]].
  destruct (In_nth _ _ 0%Q Hb) as [j [Hj <-]].
  f_equal. eapply sorted_nth_inj; eassumption.
Qed.

(** Distinct peaks at one frequency have distinct times, all taken from
    [tn]. *)
Lemma count_at_peaks_le (fn tn : list Q) (peaks : list (Q * Q)) (f : Q) :
  StronglySorted Qlt fn ->
  NoDup peaks ->
  Forall (fun p => In (fst p) tn /\ In (snd p) fn) peaks ->
  In f fn ->
  count_at f (map snd peaks) <= length tn.
Proof.
  intros Hs Hnd Hin Hf. unfold count_at.
  rewrite filter_map_comm, length_map.
  set (S := filter (fun p => Qeqb f (snd p)) peaks).
  rewrite Forall_forall in Hin.
  assert (HS : forall p, In p S -> snd p = f /\ In (fst p) tn).
  { intros p Hp. apply filter_In in Hp as [Hp E]. apply Qeqb_eq in E.
    destruct (Hin p Hp) as [H1 H2]. split; [| exact H1].
    symmetry. eapply sorted_In_Qeq; eassumption. }
  rewrite <- (length_map fst S). apply NoDup_incl_length.
  - apply Finite.Injective_map_NoDup_in.
    + intros [t g] [t' g'] Hp Hq E. simpl in E. subst t'.
      apply HS in Hp as [Hp _]. apply HS in Hq as [Hq _]. simpl in *. congruence.
    + apply NoDup_filter, Hnd.
  - intros t Ht. apply in_map_iff in Ht as [p [<- Hp]]. apply HS, Hp.
Qed.

(** C8, amended: for every sequence of distinct (time, frequency) pairs drawn
    from the axes ([fn] increasing), every value of the density row lies in
    [0, 1]. *)
Theorem density_of_distinct_peaks_in_unit_interval
        (fn tn : list Q) (peaks : list (Q * Q)) :
  StronglySorted Qlt fn ->
  NoDup peaks ->
  Forall (fun p => In (fst p) tn /\ In (snd p) fn) peaks ->
  exists row,
    peak_density fn tn (map snd peaks) = Ok row /\
    length row = length fn /\
    Forall (fun v => (0 <= v <= 1)%Q) row.
Proof.
  intros Hs Hnd Hin.
  exists (map (density_at (map snd peaks) (length tn)) fn).
  repeat split.
  - apply peak_density_eq; [exact Hs |].
    apply Forall_forall. intros f Hf. apply in_map_iff in Hf as [p [<- Hp]].
    rewrite Forall_forall in Hin. apply (Hin p Hp).
  - apply length_map.
  - apply Forall_forall. intros v Hv. apply in_map_iff in Hv as [f [<- Hf]].
    apply density_at_unit. eapply count_at_peaks_le; eassumption.
Qed.

(** Four time frames, three bins; two peaks at 30 Hz at different times, one
    at 10 Hz. *)
Lemma density_of_distinct_peaks_in_unit_interval_witness :
  StronglySorted Qlt [10; 20; 30]%Q /\
  NoDup [(0, 30); (1, 10); (3, 30)]%Q /\
  exists row,
    peak_density [10; 20; 30]%Q [0; 1; 2; 3]%Q
                 (map snd [(0, 30); (1, 10); (3, 30)]%Q) = Ok row /\
    length row = 3 /\
    Forall (fun v => (0 <= v <= 1)%Q) row.
Proof.
  assert (Hs : StronglySorted Qlt [10; 20; 30]%Q).
  { repeat constructor; reflexivity. }
  assert (Hnd : NoDup [(0, 30); (1, 10); (3, 30)]%Q).
  { repeat constructor; simpl; intuition discriminate. }
  split; [exact Hs |]. split; [exact Hnd |].
  refine (density_of_distinct_peaks_in_unit_interval
            [10; 20; 30]%Q [0; 1; 2; 3]%Q [(0, 30); (1, 10); (3, 30)]%Q Hs Hnd _).
  repeat (first [apply Forall_nil | apply Forall_cons]); split; simpl; auto 10.
Defined.

(** The whole of one recording: the density row computed from the peaks that
    [spectrogram_local_max] returns is defined and lies in [0, 1]. *)
Theorem detected_density_in_unit_interval
        (Sxx : Np.matrix) (tn fn : list Q) (min_distance : Z)
        (threshold_abs : option Q) (peak_time peak_frequency : list Q) :
  StronglySorted Qlt fn ->
  spectrogram_local_max Sxx tn fn min_distance threshold_abs
  = Ok (peak_time, peak_frequency) ->
  exists row,
    peak_density fn tn peak_frequency = Ok row /\
    length row = length fn /\
    Forall (fun v => (0 <= v <= 1)%Q) row.
Proof.
  intros Hs H.
  apply spectrogram_local_max_ok in H as (peaks & _ & Hp & _ & -> & Hin).
  apply (density_of_cells_unit fn tn peaks Hs); [| exact Hin].
  apply (peak_local_max_ok _ _ _ _ Hp).
Qed.

Lemma detected_density_in_unit_interval_witness :
  StronglySorted Qlt fn_grid /\
  spectrogram_local_max Sxx_grid tn_grid fn_grid 1 (Some 0%Q)
  = Ok ([2; 3]%Q, [30; 30]%Q) /\
  exists row,
    peak_density fn_grid tn_grid [30; 30]%Q = Ok row /\
    length row = length fn_grid /\
    Forall (fun v => (0 <= v <= 1)%Q) row.
Proof.
  assert (Hs : StronglySorted Qlt fn_grid).
  { repeat constructor; reflexivity. }
  assert (H : spectrogram_local_max Sxx_grid tn_grid fn_grid 1 (Some 0%Q)
              = Ok ([2; 3]%Q, [30; 30]%Q)) by (vm_compute; reflexivity).
  split; [exact Hs |]. split; [exact H |].
  exact (detected_density_in_unit_interval Sxx_grid tn_grid fn_grid 1 (Some 0%Q)
           _ _ Hs H).
Defined.

(** ** The frame of densities *)







(** ** Groups *)






(** ** Running sums and counts *)



(** ** The mean by hour *)





Lemma map_snd_combine {A B : Type} (l : list A) (l' : list B) :
  length l' = length l -> map snd (combine l l') = l'.
Proof.
  revert l'. induction l as [| x l IH]; intros [| y l'] H; simpl in *;
    try reflexivity; try discriminate H.
  f_equal. apply IH. lia.
Qed.


(** ** The order of the recordings *)


Lemma fold_Qplus_acc (l : list Q) (a b : Q) :
  (a == b)%Q -> (fold_left Qplus l a == fold_left Qplus l b)%Q.
Proof.
  revert a b. induction l as [| x l IH]; simpl; intros a b E; [exact E |].
  apply IH. rewrite E. reflexivity.
Qed.




Lemma map_fst_combine {A B : Type} (l : list A) (l' : list B) :
  length l' = length l -> map fst (combine l l') = l.
Proof.
  revert l'. induction l as [| x l IH]; intros [| y l'] H; simpl in *;
    try reflexivity; try discriminate H.
  f_equal. apply IH. lia.
Qed.


(** ** Claims about the whole run *)




Lemma hour_label_raises (t : string) (e : exception) :
  hour_label t = Raise e -> e = ValueError Str.invalid_literal_msg.
Proof.
  unfold hour_label, Str.int.
  destruct (match Str.strip _ with [] => _ | _ => _ end); intros H;
    [discriminate H | injection H as <-; reflexivity].
Qed.

(** The conversion of the hours stops at the first time without one. *)
Lemma hours_raise (times : list string) :
  Exists (fun t => is_ok (hour_label t) = false) times ->
  mapM hour_label times = Raise (ValueError Str.invalid_literal_msg).
Proof.
  induction 1 as [t times Ht | t times _ IH]; simpl.
  - destruct (hour_label t) as [h | e] eqn:E; [discriminate Ht |].
    apply hour_label_raises in E. subst e. reflexivity.
  - destruct (hour_label t) as [h | e] eqn:E; simpl.
    + rewrite IH. reflexivity.
    + apply hour_label_raises in E. subst e. reflexivity.
Qed.




Section PipelineFacts.

Variable isdir isfile : string -> bool.
Variable get_metadata_dir : string -> result DataFrame.
Variable read_csv : string -> result DataFrame.
Variable Signal : Type.
Variable sound_load : string -> result (Signal * Z).
Variable sound_resample : Signal -> Z -> Z -> Signal.
Variable sound_spectrogram : Signal -> Z -> Z -> Z -> Np.matrix * list Q * list Q.
Variable power2dB : Np.matrix -> Q -> Np.matrix.
Variable target_fs nperseg noverlap : Z.
Variable db_range : Q.
Variable min_distance : Z.
Variable threshold_abs : option Q.

Local Abbreviation validate := (input_validation isdir isfile get_metadata_dir read_csv).
Local Abbreviation recording :=
  (process_recording Signal sound_load sound_resample sound_spectrogram power2dB
                     target_fs nperseg noverlap db_range min_distance threshold_abs).
Local Abbreviation rows_loop :=
  (process_rows Signal sound_load sound_resample sound_spectrogram power2dB
                target_fs nperseg noverlap db_range min_distance threshold_abs).
Local Abbreviation soundscape :=
  (graphical_soundscape isdir isfile get_metadata_dir read_csv
                        Signal sound_load sound_resample sound_spectrogram power2dB
                        target_fs nperseg noverlap db_range min_distance threshold_abs).

Lemma is_ok_false {A : Type} (m : result A) :
  is_ok m = false <-> exists e, m = Raise e.
Proof.
  destruct m as [a | e]; simpl; split; intros H; try discriminate H.
  - destruct H as [e H]. discriminate H.
  - exists e. reflexivity.
  - reflexivity.
Qed.

(** A recording whose audio cannot be loaded has no density row. *)
Lemma unreadable_recording_raises (df : DataFrame) (df_aux : list string)
      (path : string) :
  getattr df df_aux "path_audio" = Ok path ->
  is_ok (sound_load path) = false ->
  is_ok (recording df df_aux) = false.
Proof.
  intros Hp Hl. unfold process_recording.
  destruct (getattr df df_aux "fname"); [| reflexivity].
  simpl. rewrite Hp. simpl.
  destruct (sound_load path); [discriminate Hl | reflexivity].
Qed.

(** The loop stops at the first recording that raises. *)
Lemma failed_recording_stops_loop (df : DataFrame) (rows : list (list string)) :
  Exists (fun df_aux => is_ok (recording df df_aux) = false) rows ->
  forall res, is_ok (rows_loop df rows res) = false.
Proof.
  induction 1 as [df_aux rows H | df_aux rows _ IH]; intros res; simpl.
  - destruct (recording df df_aux); [discriminate H | reflexivity].
  - destruct (recording df df_aux); [apply IH | reflexivity].
Qed.





(** The exception of the run is that of the first recording that fails. *)
Lemma rows_loop_first_failure (df : DataFrame) (before : list (list string))
      (df_aux : list string) (after : list (list string)) (e : exception) :
  Forall (fun r => is_ok (recording df r) = true) before ->
  recording df df_aux = Raise e ->
  forall res, rows_loop df (before ++ df_aux :: after) res = Raise e.
Proof.
  intros Hok He. induction Hok as [| r before Hr _ IH]; intros res; simpl.
  - rewrite He. reflexivity.
  - destruct (recording df r); [apply IH | discriminate Hr].
Qed.





(** C2, amended: when the audio of some recording of the corpus cannot be
    loaded, or the time of some recording yields no hour label,
    [graphical_soundscape] returns no matrix and raises.  The exception is
    that of the first recording of the table whose processing fails (the
    exception of the loader when its audio is what fails); when every
    recording is processed, it is the [ValueError] of the conversion of the
    hours.  No recording is skipped and none is counted. *)
Theorem bad_recording_aborts_run (data : data_input) (df : DataFrame) :
  validate data = Ok df ->
  Exists (fun df_aux => exists path,
              getattr df df_aux "path_audio" = Ok path /\
              is_ok (sound_load path) = false) (df_rows df)
  \/ (exists times, column df "time" = Ok times /\
                    Exists (fun t => is_ok (hour_label t) = false) times) ->
  (exists e, soundscape data = Raise e) /\
  (forall before df_aux after e,
      df_rows df = before ++ df_aux :: after ->
      Forall (fun r => is_ok (recording df r) = true) before ->
      recording df df_aux = Raise e ->
      soundscape data = Raise e) /\
  (forall df_aux fname path e,
      getattr df df_aux "fname" = Ok fname ->
      getattr df df_aux "path_audio" = Ok path ->
      sound_load path = Raise e ->
      recording df df_aux = Raise e) /\
  (forall res times,
      rows_loop df (df_rows df) [] = Ok res ->
      column df "time" = Ok times ->
      Exists (fun t => is_ok (hour_label t) = false) times ->
      soundscape data = Raise (ValueError Str.invalid_literal_msg)).
Proof.
  intros Hdf Hbad. split; [| split; [| split]].
  - apply is_ok_false.
    unfold graphical_soundscape. rewrite Hdf. simpl.
    destruct Hbad as [Hbad | [times [Ht Hbad]]].
    + rewrite is_ok_false.
      assert (H : is_ok (rows_loop df (df_rows df) []) = false).
      { apply failed_recording_stops_loop. revert Hbad. apply Exists_impl.
        intros df_aux [path [Hp Hl]]. eapply unreadable_recording_raises; eassumption. }
      apply is_ok_false in H as [e H]. rewrite H. exists e. reflexivity.
    + destruct (rows_loop df (df_rows df) []) as [res | e]; [| reflexivity].
      simpl. unfold aggregate. rewrite Ht. simpl.
      apply mapM_raise in Hbad.
      destruct (mapM hour_label times); [discriminate Hbad | reflexivity].
  - intros before df_aux after e Hrows Hok He.
    unfold graphical_soundscape. rewrite Hdf. simpl. rewrite Hrows.
    rewrite (rows_loop_first_failure df before df_aux after e Hok He). reflexivity.
  - intros df_aux fname path e Hf Hp Hl.
    unfold process_recording. rewrite Hf. simpl. rewrite Hp. simpl. rewrite Hl.
    reflexivity.
  - intros res times Hres Ht Hex.
    unfold graphical_soundscape. rewrite Hdf. simpl. rewrite Hres. simpl.
    unfold aggregate. rewrite Ht. simpl. rewrite (hours_raise times Hex). reflexivity.
Qed.



(** C5, where the code departs from it: handed a [DataFrame],
    [input_validation] binds no [df] and its [return df] raises
    [UnboundLocalError]; no recording is processed. *)
Theorem dataframe_input_raises (df : DataFrame) :
  validate (DataFrameInput df) = Raise (UnboundLocalError "df") /\
  soundscape (DataFrameInput df) = Raise (UnboundLocalError "df").
Proof. split; reflexivity. Qed.

End PipelineFacts.

(** C2 as stated fails: on the sample corpus, whose second recording cannot
    be read, the run raises the loader's exception instead of returning the
    matrix of the two readable recordings; a time without an hour does the
    same. *)
Lemma unreadable_recording_ends_sample_run :
  Sample.run (StrInput "meta.csv") = Raise (OSError "/data/b.wav") /\
  Sample.run (StrInput "bad_time.csv") = Raise (ValueError Str.invalid_literal_msg).
Proof. split; vm_compute; reflexivity. Qed.

(** On the sample corpus the first recording is processed and the second
    cannot be loaded: the run raises the exception of that load. *)
Lemma bad_recording_aborts_run_witness :
  Sample.read_csv "meta.csv" = Ok Sample.table /\
  Exists (fun df_aux => exists path,
              getattr Sample.table df_aux "path_audio" = Ok path /\
              is_ok (Sample.sound_load path) = false) (df_rows Sample.table) /\
  (exists e, Sample.run (StrInput "meta.csv") = Raise e) /\
  Sample.run (StrInput "meta.csv") = Raise (OSError "/data/b.wav").
Proof.
  assert (Hbad : Exists (fun df_aux => exists path,
                    getattr Sample.table df_aux "path_audio" = Ok path /\
                    is_ok (Sample.sound_load path) = false) (df_rows Sample.table)).
  { apply Exists_cons_tl, Exists_cons_hd. exists "/data/b.wav". split; reflexivity. }
  split; [reflexivity |]. split; [exact Hbad |].
  destruct (bad_recording_aborts_run Sample.isdir Sample.isfile Sample.get_metadata_dir
              Sample.read_csv Sample.Signal Sample.sound_load Sample.sound_resample
              Sample.sound_spectrogram Sample.power2dB 48000 1024 512 80 1
              (Some (1 # 2)%Q) (StrInput "meta.csv") Sample.table eq_refl
              (or_introl Hbad))
    as (Hraise & Hfirst & Hload & _).
  split; [exact Hraise |].
  apply (Hfirst [["a.wav"; "/data/a.wav"; "08:00:00"]]
                ["b.wav"; "/data/b.wav"; "08:30:00"]
                [["c.wav"; "/data/c.wav"; "14:00:00"]]).
  - reflexivity.
  - constructor; [vm_compute; reflexivity | constructor].
  - apply (Hload _ "b.wav" "/data/b.wav"); reflexivity.
Defined.





(** The sample corpus without the unreadable recording: the run returns the
    matrix of hours 8 and 14; a table with only [path_audio] and [time] stops
    at the first recording, on the [fname] the progress line prints. *)
Lemma sample_runs :
  Sample.run (StrInput "readable.csv")
  = Ok (Pd.mkMatrix fn_grid
          [(8%Z, [Some (0 # 2); Some (0 # 2); Some (20 # 50); Some (0 # 2); Some (0 # 2)]%Q);
           (14%Z, [Some 0; Some (1 # 5); Some 0; Some (2 # 5); Some 0]%Q)]) /\
  Sample.run (StrInput "two_columns.csv") = Raise (AttributeError "fname").
Proof. split; vm_compute; reflexivity. Qed.

(** ** The functions return *)

(** The validation at the head of [spectrogram_local_max], in full: on a
    spectrogram with at least one cell it raises exactly when [threshold_abs]
    is strictly below the minimum, so never for a threshold above it; without
    a threshold it raises nothing. *)
Theorem threshold_validation (Sxx : Np.matrix) (t : Q) :
  concat Sxx <> [] ->
  exists m,
    Np.amin Sxx = Ok m /\
    In m (concat Sxx) /\
    Forall (fun y => (m <= y)%Q) (concat Sxx) /\
    (validate_threshold Sxx (Some t) = Raise (ValueError below_minimum_msg)
       <-> (t < m)%Q) /\
    (validate_threshold Sxx (Some t) = Ok tt <-> (m <= t)%Q) /\
    validate_threshold Sxx None = Ok tt.
Proof.
  intros Hne. destruct (amin_nonempty Sxx Hne) as [m Hm]. exists m.
  destruct (amin_spec Sxx m Hm) as [H1 H2].
  destruct (validate_threshold_spec Sxx m t Hm) as [H3 H4].
  repeat split; try assumption; try apply H3; try apply H4.
Qed.

Lemma threshold_validation_witness :
  concat Sxx_floor <> [] /\
  exists m,
    Np.amin Sxx_floor = Ok m /\
    In m (concat Sxx_floor) /\
    Forall (fun y => (m <= y)%Q) (concat Sxx_floor) /\
    (validate_threshold Sxx_floor (Some (-50)%Q) = Raise (ValueError below_minimum_msg)
       <-> (-50 < m)%Q) /\
    (validate_threshold Sxx_floor (Some (-50)%Q) = Ok tt <-> (m <= -50)%Q) /\
    validate_threshold Sxx_floor None = Ok tt.
Proof.
  assert (Hne : concat Sxx_floor <> []) by discriminate.
  split; [exact Hne |].
  exact (threshold_validation Sxx_floor (-50) Hne).
Defined.

Lemma spectrogram_local_max_returns_witness :
  concat Sxx_grid <> [] /\
  validate_threshold Sxx_grid (Some (1 # 2)%Q) = Ok tt /\
  exists peak_time peak_frequency,
    spectrogram_local_max Sxx_grid tn_grid fn_grid 2 (Some (1 # 2)%Q)
    = Ok (peak_time, peak_frequency).
Proof.
  assert (Hne : concat Sxx_grid <> []) by discriminate.
  assert (Hv : validate_threshold Sxx_grid (Some (1 # 2)%Q) = Ok tt) by reflexivity.
  split; [exact Hne |]. split; [exact Hv |].
  refine (spectrogram_local_max_returns Sxx_grid tn_grid fn_grid 2 (Some (1 # 2)%Q)
            Hne Hv _ _ _).
  - discriminate.
  - apply le_n.
  - apply le_n.
Defined.


(** ** [input_validation]: which inputs are read *)

Lemma lower_String (c : ascii) (s : string) :
  Str.lower (String c s) = String (Str.lower_ascii c) (Str.lower s).
Proof. reflexivity. Qed.

Lemma lower_append (a b : string) :
  Str.lower (a ++ b)%string = (Str.lower a ++ Str.lower b)%string.
Proof.
  induction a as [| c a IH]; [reflexivity |].
  change (String c a ++ b)%string with (String c (a ++ b)%string).
  rewrite !lower_String, IH. reflexivity.
Qed.

Lemma length_lower (s : string) : String.length (Str.lower s) = String.length s.
Proof.
  induction s as [| c s IH]; [reflexivity |].
  rewrite lower_String. simpl. rewrite IH. reflexivity.
Qed.

Lemma lower_substring (s : string) :
  forall i k, substring i k (Str.lower s) = Str.lower (substring i k s).
Proof.
  induction s as [| c s IH]; intros i k.
  - destruct i, k; reflexivity.
  - rewrite lower_String. destruct i as [| i]; simpl.
    + destruct k as [| k]; [reflexivity |]. rewrite lower_String, IH. reflexivity.
    + apply IH.
Qed.

Lemma substring_whole (b : string) : substring 0 (String.length b) b = b.
Proof. induction b as [| c b IH]; simpl; [reflexivity | rewrite IH; reflexivity]. Qed.

Lemma substring_after (a b : string) :
  substring (String.length a) (String.length b) (a ++ b)%string = b.
Proof. induction a as [| c a IH]; simpl; [apply substring_whole | exact IH]. Qed.

Lemma split_at (s : string) :
  forall i, i <= String.length s ->
            s = (substring 0 i s ++ substring i (String.length s - i) s)%string.
Proof.
  induction s as [| c s IH]; intros i Hi; simpl in Hi.
  - destruct i; [reflexivity | lia].
  - destruct i as [| i]; simpl.
    + rewrite substring_whole. reflexivity.
    + f_equal. apply IH. lia.
Qed.

Lemma length_append (a b : string) :
  String.length (a ++ b)%string = String.length a + String.length b.
Proof. induction a as [| c a IH]; simpl; [reflexivity | rewrite IH; reflexivity]. Qed.

(** [s.lower().endswith(suffix)] holds exactly when [s] ends in some spelling
    of [suffix], whatever the case of its letters. *)
Lemma endswith_lower (s suffix : string) :
  Str.endswith (Str.lower s) suffix = true <->
  exists stem ext, s = (stem ++ ext)%string /\ Str.lower ext = suffix.
Proof.
  unfold Str.endswith. rewrite length_lower. split.
  - intros H. apply andb_true_iff in H as [Hk E].
    apply Nat.leb_le in Hk. apply String.eqb_eq in E.
    exists (substring 0 (String.length s - String.length suffix) s),
           (substring (String.length s - String.length suffix) (String.length suffix) s).
    split.
    + pose proof (split_at s (String.length s - String.length suffix)) as Hs.
      replace (String.length s - (String.length s - String.length suffix))
        with (String.length suffix) in Hs by lia.
      apply Hs. lia.
    + rewrite <- lower_substring. exact E.
  - intros (stem & ext & -> & <-).
    rewrite !length_append, length_lower.
    apply andb_true_iff. split; [apply Nat.leb_le; lia |].
    apply String.eqb_eq. rewrite lower_append.
    replace (String.length stem + String.length ext - String.length ext)
      with (String.length (Str.lower stem)) by (rewrite length_lower; lia).
    rewrite <- (length_lower ext). apply substring_after.
Qed.

Section InputValidationFacts.

Variable isdir isfile : string -> bool.
Variable get_metadata_dir : string -> result DataFrame.
Variable read_csv : string -> result DataFrame.

Local Abbreviation validate := (input_validation isdir isfile get_metadata_dir read_csv).

(** [input_validation] returns a table for a path only: the table of
    [get_metadata_dir] when the path is a directory, else the table of
    [read_csv] when it is a file whose name ends in [.csv] in any letter case.
    For any other string (no such path, another extension) it raises
    [UnboundLocalError], and the [ValueError] of its last branch is raised
    only for an input that is neither a table nor a string. *)
Theorem input_validation_reads_directory_or_csv :
  (forall s df,
      validate (StrInput s) = Ok df <->
      (isdir s = true /\ get_metadata_dir s = Ok df) \/
      (isdir s = false /\ isfile s = true /\
       (exists stem ext, s = (stem ++ ext)%string /\ Str.lower ext = ".csv") /\
       read_csv s = Ok df)) /\
  (forall s,
      isdir s = false ->
      (isfile s = false \/
       ~ exists stem ext, s = (stem ++ ext)%string /\ Str.lower ext = ".csv") ->
      validate (StrInput s) = Raise (UnboundLocalError "df")) /\
  (forall data e,
      validate data = Raise (ValueError e) ->
      data = OtherInput \/
      exists s, data = StrInput s /\
                (get_metadata_dir s = Raise (ValueError e) \/
                 read_csv s = Raise (ValueError e))).
Proof.
  split; [| split].
  - intros s df. unfold input_validation.
    destruct (isdir s) eqn:Ed.
    + destruct (get_metadata_dir s) as [d | e]; simpl; split.
      * intros H. left. split; [reflexivity | exact H].
      * intros [[_ H] | [H _]]; [exact H | discriminate H].
      * intros H. discriminate H.
      * intros [[_ H] | [H _]]; discriminate H.
    + destruct (isfile s) eqn:Ef; simpl.
      * destruct (Str.endswith (Str.lower s) ".csv") eqn:Ee.
        -- apply endswith_lower in Ee.
           destruct (read_csv s) as [d | e]; simpl; split.
           ++ intros H. right. repeat split; assumption.
           ++ intros [[H _] | (_ & _ & _ & H)]; [discriminate H | exact H].
           ++ intros H. discriminate H.
           ++ intros [[H _] | (_ & _ & _ & H)]; discriminate H.
        -- simpl. split; [intros H; discriminate H |].
           intros [[H _] | (_ & _ & H & _)]; [discriminate H |].
           apply endswith_lower in H. congruence.
      * split; [intros H; discriminate H |].
        intros [[H _] | (_ & H & _)]; discriminate H.
  - intros s Hd Hno. unfold input_validation. rewrite Hd.
    destruct Hno as [Hf | Hext].
    + rewrite Hf. reflexivity.
    + destruct (Str.endswith (Str.lower s) ".csv") eqn:Ee.
      * apply endswith_lower in Ee. contradiction.
      * rewrite andb_false_r. reflexivity.
  - intros data e H. destruct data as [df | s |]; [discriminate H | | left; reflexivity].
    right. exists s. split; [reflexivity |]. unfold input_validation in H.
    destruct (isdir s).
    + destruct (get_metadata_dir s) as [d | e']; simpl in H; [discriminate H |].
      left. exact H.
    + destruct (isfile s && Str.endswith (Str.lower s) ".csv").
      * destruct (read_csv s) as [d | e']; simpl in H; [discriminate H |].
        right. exact H.
      * discriminate H.
Qed.

End InputValidationFacts.

(** ** The command line of [gs_utils.py] *)

Lemma and_then_returns {A B : Type} (m : outcome A) (k : A -> outcome B) (b : B) :
  and_then m k = Returns b -> exists a, m = Returns a /\ k a = Returns b.
Proof.
  destruct m as [a | e]; simpl; intros H.
  - exists a. split; [reflexivity | exact H].
  - discriminate H.
Qed.

Section MainFacts.

Variable read_yaml : string -> outcome GsCli.yaml.
Variable Signal : Type.
Variable sound_load : string -> result (Signal * Z).
Variable sound_load_none : outcome (Signal * Z).
Variable sound_resample : Signal -> Z -> Z -> Signal.
Variable sound_spectrogram : Signal -> Z -> Z -> Z -> Np.matrix * list Q * list Q.
Variable power2dB : Np.matrix -> Q -> Np.matrix.
Variable ill_typed :
  GsCli.Namespace -> GsCli.yaml -> GsCli.yaml -> GsCli.yaml -> GsCli.yaml
  -> GsCli.yaml -> GsCli.yaml -> outcome (option (list Q * list Q)).

Local Abbreviation cli :=
  (GsCli.main read_yaml Signal sound_load sound_load_none sound_resample
              sound_spectrogram power2dB ill_typed).
Local Abbreviation loaded := (GsCli.load_config read_yaml).

(** With every key of the section present, [main] reaches its dispatch. *)
Lemma main_reads_six_keys (args : GsCli.Namespace) (config section : GsCli.yaml) :
  loaded (GsCli.ns_config args) = Returns config ->
  GsCli.getitem config "graph_soundscapes" = Returns section ->
  Forall (fun k => exists v, GsCli.getitem section k = Returns v) config_keys ->
  exists a b c d e f,
    cli args =
    match GsCli.ns_operation args with
    | GsCli.OpSpectrogramLocalMax =>
        match GsCli.as_int a, GsCli.as_int b, GsCli.as_int c,
              GsCli.as_number d, GsCli.as_int e, GsCli.as_threshold f with
        | Some a', Some b', Some c', Some d', Some e', Some f' =>
            '(s, fs) <~ match GsCli.ns_input_file args with
                       | Some path => lift (sound_load path)
                       | None => sound_load_none
                       end ;;
            let s := sound_resample s fs a' in
            let '(Sxx, tn, fn) := sound_spectrogram s fs b' c' in
            let Sxx_db := power2dB Sxx d' in
            result <~ lift (spectrogram_local_max Sxx_db tn fn e' f') ;;
            Returns (Some result)
        | _, _, _, _, _, _ => ill_typed args a b c d e f
        end
    | GsCli.OpGraphicalSoundscape => Raises (Builtin (AttributeError "path"))
    | GsCli.OpPlotGraph => Returns None
    end.
Proof.
  intros Hc Hs Hk. unfold config_keys in Hk.
  repeat match goal with
         | H : Forall _ (_ :: _) |- _ => apply Forall_cons_iff in H as [[? ?] H]
         end.
  do 6 eexists. unfold GsCli.main. rewrite Hc. cbn [and_then].
  unfold GsCli.graph_soundscapes. rewrite Hs. cbn [and_then].
  repeat match goal with
         | H : GsCli.getitem section _ = Returns _ |- _ =>
             rewrite H; cbn [and_then]; clear H
         end.
  reflexivity.
Qed.

(** The [graphical_soundscape] operation of [main] never returns: whatever
    the configuration, the run ends in an exception, and once the six keys
    are read it is the [AttributeError] of [args.path], an attribute that the
    parser never defines. *)
Theorem main_graphical_soundscape_raises (args : GsCli.Namespace) :
  GsCli.ns_operation args = GsCli.OpGraphicalSoundscape ->
  (forall v, cli args <> Returns v) /\
  (forall config section,
      loaded (GsCli.ns_config args) = Returns config ->
      GsCli.getitem config "graph_soundscapes" = Returns section ->
      Forall (fun k => exists v, GsCli.getitem section k = Returns v) config_keys ->
      cli args = Raises (Builtin (AttributeError "path"))).
Proof.
  intros Hop. split.
  - intros v H. unfold GsCli.main in H.
    repeat (apply and_then_returns in H as [? [_ H]]).
    rewrite Hop in H. discriminate H.
  - intros config section Hc Hs Hk.
    destruct (main_reads_six_keys args config section Hc Hs Hk)
      as (a & b & c & d & e & f & H).
    rewrite H, Hop. reflexivity.
Qed.

(** [main] reads the six keys in a fixed order before it looks at the
    operation: the first key that the section lacks is the [KeyError] raised,
    whatever the operation, [plot_graph] included. *)
Theorem main_raises_first_missing_key
        (args : GsCli.Namespace) (config section : GsCli.yaml)
        (present : list string) (missing : string) (rest : list string) :
  loaded (GsCli.ns_config args) = Returns config ->
  GsCli.getitem config "graph_soundscapes" = Returns section ->
  config_keys = present ++ missing :: rest ->
  Forall (fun k => exists v, GsCli.getitem section k = Returns v) present ->
  GsCli.getitem section missing = Raises (KeyError missing) ->
  cli args = Raises (KeyError missing).
Proof.
  intros Hc Hs Hkeys Hp Hm. unfold GsCli.main. rewrite Hc. cbn [and_then].
  unfold GsCli.graph_soundscapes. rewrite Hs. cbn [and_then].
  unfold config_keys in Hkeys.
  repeat (destruct present as [| ? present];
          [ injection Hkeys as <- _; rewrite Hm; reflexivity
          | injection Hkeys as <- Hkeys;
            apply Forall_cons_iff in Hp as [[? Hv] Hp];
            rewrite Hv; cbn [and_then]; clear Hv ]);
    try (destruct present; discriminate Hkeys).
Qed.

End MainFacts.

Lemma main_graphical_soundscape_raises_witness :
  GsCli.ns_operation (SampleCli.args GsCli.OpGraphicalSoundscape "config.yaml")
  = GsCli.OpGraphicalSoundscape /\
  (forall v, SampleCli.main (SampleCli.args GsCli.OpGraphicalSoundscape "config.yaml")
             <> Returns v) /\
  (forall config section,
      GsCli.load_config SampleCli.read_yaml
        (GsCli.ns_config (SampleCli.args GsCli.OpGraphicalSoundscape "config.yaml"))
      = Returns config ->
      GsCli.getitem config "graph_soundscapes" = Returns section ->
      Forall (fun k => exists v, GsCli.getitem section k = Returns v) config_keys ->
      SampleCli.main (SampleCli.args GsCli.OpGraphicalSoundscape "config.yaml")
      = Raises (Builtin (AttributeError "path"))).
Proof.
  split; [reflexivity |].
  exact (main_graphical_soundscape_raises SampleCli.read_yaml Sample.Signal
           Sample.sound_load _ Sample.sound_resample Sample.sound_spectrogram
           Sample.power2dB SampleCli.ill_typed
           (SampleCli.args GsCli.OpGraphicalSoundscape "config.yaml") eq_refl).
Defined.

Lemma main_raises_first_missing_key_witness :
  GsCli.load_config SampleCli.read_yaml (Some "incomplete.yaml")
  = Returns SampleCli.incomplete /\
  config_keys = ["target_fs"; "nperseg"; "noverlap"] ++ "db_range"
                  :: ["min_distance"; "threshold_abs"] /\
  SampleCli.main (SampleCli.args GsCli.OpPlotGraph "incomplete.yaml")
  = Raises (KeyError "db_range").
Proof.
  split; [reflexivity |]. split; [reflexivity |].
  refine (main_raises_first_missing_key SampleCli.read_yaml Sample.Signal
            Sample.sound_load _ Sample.sound_resample Sample.sound_spectrogram
            Sample.power2dB SampleCli.ill_typed
            (SampleCli.args GsCli.OpPlotGraph "incomplete.yaml")
            SampleCli.incomplete _
            ["target_fs"; "nperseg"; "noverlap"] "db_range"
            ["min_distance"; "threshold_abs"] eq_refl eq_refl eq_refl _ eq_refl).
  repeat constructor; eexists; reflexivity.
Defined.

(** The sample command line: peak detection prints the peaks of the file,
    plotting prints nothing. *)
Lemma sample_main_runs :
  SampleCli.main (SampleCli.args GsCli.OpSpectrogramLocalMax "config.yaml")
  = Returns (Some ([2; 3]%Q, [30; 30]%Q)) /\
  SampleCli.main (SampleCli.args GsCli.OpPlotGraph "config.yaml") = Returns None.
Proof. split; vm_compute; reflexivity. Qed.

(** ** [plot_graph] *)

Lemma arange_In (n step i : nat) :
  0 < step -> In i (GsCli.arange n step) -> i < n.
Proof.
  intros Hs H. unfold GsCli.arange in H. apply in_map_iff in H as [k [<- Hk]].
  apply in_seq in Hk. destruct Hk as [_ Hk]. simpl in Hk.
  pose proof (Nat.div_mod_eq (n + step - 1) step) as E.
  pose proof (Nat.mod_upper_bound (n + step - 1) step) as Hr.
  set (q := (n + step - 1) / step) in *. set (r := (n + step - 1) mod step) in *.
  assert (Hq : (k + 1) * step <= q * step) by (apply Nat.mul_le_mono_r; lia).
  nia.
Qed.

Lemma nth_map_in {A B : Type} (f : A -> B) (l : list A) (k : nat) (d : A) (d' : B) :
  k < length l -> nth k (map f l) d' = f (nth k l d).
Proof.
  intros Hk. rewrite (nth_indep _ d' (f d)) by (rewrite length_map; exact Hk).
  apply map_nth.
Qed.

Lemma arange_nth (n step k : nat) :
  k < length (GsCli.arange n step) -> nth k (GsCli.arange n step) 0 = k * step.
Proof.
  unfold GsCli.arange. rewrite length_map, length_seq. intros Hk.
  rewrite (nth_map_in _ _ _ 0) by (rewrite length_seq; exact Hk).
  rewrite seq_nth by exact Hk. reflexivity.
Qed.

(** For a value that is not negative and whose integer part fits int64,
    [astype(int)] is the integer part. *)
Lemma astype_int_floor (x : Q) :
  (0 <= x)%Q -> (Qfloor x < 2 ^ 63)%Z -> GsCli.astype_int x = Qfloor x.
Proof.
  destruct x as [n d]. unfold Qle, GsCli.astype_int, GsCli.int64_min, Qfloor.
  cbn [Qnum Qden]. intros H Hb.
  assert (E : Z.quot n (Z.pos d) = (n / Z.pos d)%Z) by (apply Z.quot_div_nonneg; lia).
  rewrite E.
  assert (H0 : (0 <= n / Z.pos d)%Z) by (apply Z.div_pos; lia).
  replace (- 2 ^ 63 <=? n / Z.pos d)%Z with true by (symmetry; apply Z.leb_le; lia).
  replace (n / Z.pos d <? 2 ^ 63)%Z with true by (symmetry; apply Z.ltb_lt; exact Hb).
  reflexivity.
Qed.

Lemma transpose_nth {A : Type} (d : A) (ncol : nat) (rows : list (list A)) (i j : nat) :
  j < ncol ->
  nth i (nth j (GsCli.transpose d ncol rows) []) d = nth j (nth i rows []) d.
Proof.
  intros Hj. unfold GsCli.transpose.
  rewrite (nth_map_in _ _ _ 0) by (rewrite length_seq; exact Hj).
  rewrite seq_nth by exact Hj. simpl.
  destruct (Nat.lt_ge_cases i (length rows)) as [Hi | Hi].
  - apply (nth_map_in (fun row => nth j row d) rows i [] d Hi).
  - rewrite (nth_overflow (map _ rows)) by (rewrite length_map; exact Hi).
    rewrite (nth_overflow rows) by exact Hi. destruct j; reflexivity.
Qed.

Section PlotFacts.

Variable plt_savefig : option string -> outcome unit.

Local Abbreviation plot_graph := (GsCli.plot_graph plt_savefig).

(** [plot_graph] on a matrix with a row and a column at least.  Asked to save
    the figure, it raises what [plt.savefig] raises for the name it is given.
    Otherwise, and when [plt.savefig] returns, it returns the axes: the ticks
    are the columns 0, 20, 40, ... below the number of columns, one for every
    twenty columns or part of twenty, each labelled with its frequency cast
    to int64 (the integer part, for a frequency that is not negative and
    below 2**63); the image has one row per frequency column, row [j] holding
    column [j] of the matrix hour by hour. *)
Theorem plot_graph_ticks_and_image
        (graph : Pd.Matrix) (savefig : bool) (fname : option string) :
  Pd.m_rows graph <> [] -> Pd.m_columns graph <> [] ->
  (savefig = true ->
   forall e, plt_savefig fname = Raises e ->
             plot_graph graph savefig fname = Raises e) /\
  (savefig = false \/ plt_savefig fname = Returns tt ->
   exists plot,
     plot_graph graph savefig fname = Returns plot /\
     Forall (fun i => i < length (Pd.m_columns graph)) (GsCli.yticks plot) /\
     length (GsCli.yticks plot) = (length (Pd.m_columns graph) + 19) / 20 /\
     length (GsCli.yticklabels plot) = length (GsCli.yticks plot) /\
     (forall k, k < length (GsCli.yticks plot) ->
        nth k (GsCli.yticks plot) 0 = k * 20 /\
        nth k (GsCli.yticklabels plot) 0%Z
        = GsCli.astype_int (nth (k * 20) (Pd.m_columns graph) 0%Q) /\
        ((0 <= nth (k * 20) (Pd.m_columns graph) 0)%Q ->
         (Qfloor (nth (k * 20) (Pd.m_columns graph) 0%Q) < 2 ^ 63)%Z ->
         nth k (GsCli.yticklabels plot) 0%Z
         = Qfloor (nth (k * 20) (Pd.m_columns graph) 0%Q))) /\
     length (GsCli.image plot) = length (Pd.m_columns graph) /\
     (forall i j, j < length (Pd.m_columns graph) ->
        nth i (nth j (GsCli.image plot) []) None
        = nth j (nth i (map snd (Pd.m_rows graph)) []) None) /\
     GsCli.saved plot = (if savefig then Some fname else None)).
Proof.
  intros _ _. unfold GsCli.plot_graph, GsCli.take_labels.
  set (cols := Pd.m_columns graph).
  assert (Hin : Forall (fun i => i < length cols) (GsCli.arange (length cols) 20)).
  { apply Forall_forall. intros i Hi. eapply arange_In; [| exact Hi]. lia. }
  destruct (take_total cols _ Hin) as [labels Hl]. rewrite Hl. cbn [lift and_then].
  apply take_ok in Hl as [Hl _].
  split.
  - intros -> e He. rewrite He. reflexivity.
  - intros Hsave.
    assert (Hs : (if savefig then plt_savefig fname else Returns tt) = Returns tt).
    { destruct savefig; [| reflexivity].
      destruct Hsave as [Hsave | Hsave]; [discriminate Hsave | exact Hsave]. }
    rewrite Hs. cbn [and_then].
    eexists. split; [reflexivity |].
    cbn [GsCli.yticks GsCli.yticklabels GsCli.image GsCli.saved].
    assert (Hlen : length (GsCli.arange (length cols) 20) = (length cols + 19) / 20).
    { unfold GsCli.arange. rewrite length_map, length_seq. f_equal. lia. }
    repeat split.
    + exact Hin.
    + exact Hlen.
    + rewrite Hl, !length_map. reflexivity.
    + apply arange_nth. assumption.
    + rewrite Hl, map_map, (nth_map_in _ _ _ 0) by assumption.
      rewrite arange_nth by assumption. reflexivity.
    + intros Hpos Hb. rewrite Hl, map_map, (nth_map_in _ _ _ 0) by assumption.
      rewrite arange_nth by assumption. apply astype_int_floor; assumption.
    + unfold GsCli.transpose. rewrite length_map, length_seq. reflexivity.
    + intros i j Hj. apply transpose_nth, Hj.
Qed.

End PlotFacts.

(** The sample soundscape: saved under a name the axes come back, without a
    name the exception of [plt.savefig] does; a frequency of 2**63 Hz is
    labelled -2**63. *)
Lemma plot_graph_ticks_and_image_witness :
  Pd.m_rows SamplePlot.graph <> [] /\ Pd.m_columns SamplePlot.graph <> [] /\
  GsCli.plot_graph SamplePlot.plt_savefig SamplePlot.graph true None
  = Raises (Builtin (AttributeError "write")) /\
  (exists plot,
      GsCli.plot_graph SamplePlot.plt_savefig SamplePlot.graph true (Some "graph.png")
      = Returns plot /\
      GsCli.yticks plot = [0] /\ GsCli.yticklabels plot = [10%Z] /\
      GsCli.saved plot = Some (Some "graph.png")) /\
  GsCli.astype_int (inject_Z (2 ^ 63)) = (- 2 ^ 63)%Z.
Proof.
  assert (Hr : Pd.m_rows SamplePlot.graph <> []) by discriminate.
  assert (Hc : Pd.m_columns SamplePlot.graph <> []) by discriminate.
  split; [exact Hr |]. split; [exact Hc |]. split; [| split].
  - exact (proj1 (plot_graph_ticks_and_image SamplePlot.plt_savefig SamplePlot.graph
                    true None Hr Hc) eq_refl _ eq_refl).
  - destruct (proj2 (plot_graph_ticks_and_image SamplePlot.plt_savefig SamplePlot.graph
                       true (Some "graph.png") Hr Hc) (or_intror eq_refl))
      as [plot [Hplot _]].
    exists plot. split; [exact Hplot |].
    vm_compute in Hplot. injection Hplot as <-. repeat split.
  - vm_compute. reflexivity.
Defined.

(** ** [pamflow/index/cli.py] *)

Lemma fold_Qplus_le (l l' : list Q) :
  Forall2 Qle l l' ->
  forall a b, (a <= b)%Q -> (fold_left Qplus l a <= fold_left Qplus l' b)%Q.
Proof.
  induction 1 as [| x y l l' Hxy _ IH]; intros a b Hab; simpl; [exact Hab |].
  apply IH. apply Qplus_le_compat; assumption.
Qed.

Lemma total_map_le {A : Type} (f g : A -> Q) (l : list A) :
  (forall x, In x l -> (f x <= g x)%Q) ->
  (IndexCli.total (map f l) <= IndexCli.total (map g l))%Q.
Proof.
  intros H. unfold IndexCli.total. apply fold_Qplus_le; [| apply Qle_refl].
  induction l as [| x l IH]; simpl; constructor.
  - apply H. left. reflexivity.
  - apply IH. intros y Hy. apply H. right. exact Hy.
Qed.

Lemma total_map_zero {A : Type} (l : list A) :
  (IndexCli.total (map (fun _ => 0%Q) l) == 0)%Q.
Proof.
  unfold IndexCli.total. induction l as [| x l IH]; simpl; [reflexivity |].
  rewrite (fold_Qplus_acc _ (0 + 0) 0) by ring. exact IH.
Qed.

Lemma total_map_eq {A : Type} (f g : A -> Q) (l : list A) :
  (forall x, In x l -> (f x == g x)%Q) ->
  (IndexCli.total (map f l) == IndexCli.total (map g l))%Q.
Proof.
  intros H. apply Qle_antisym; apply total_map_le; intros x Hx;
    rewrite (H x Hx); apply Qle_refl.
Qed.

Lemma total_map_fst (u v : list Q) :
  length u = length v ->
  IndexCli.total (map fst (combine u v)) = IndexCli.total u.
Proof.
  intros H. rewrite map_fst_combine by (symmetry; exact H). reflexivity.
Qed.

Lemma combine_nonneg (u v : list Q) (p : Q * Q) :
  Forall (Qle 0) u -> Forall (Qle 0) v -> In p (combine u v) ->
  (0 <= fst p)%Q /\ (0 <= snd p)%Q.
Proof.
  intros Hu Hv Hp. destruct p as [a b]. rewrite Forall_forall in Hu, Hv. split.
  - apply Hu. eapply in_combine_l. exact Hp.
  - apply Hv. eapply in_combine_r. exact Hp.
Qed.

(** The denominator of the distance to a template of positive total. *)
Lemma braycurtis_denominator (u v : list Q) :
  length u = length v -> Forall (Qle 0) u -> Forall (Qle 0) v ->
  (0 < IndexCli.total u)%Q ->
  (0 < IndexCli.total (map (fun p => Qabs (fst p + snd p)) (combine u v)))%Q.
Proof.
  intros Hlen Hu Hv Hpos. eapply Qlt_le_trans; [exact Hpos |].
  rewrite <- (total_map_fst u v Hlen). apply total_map_le.
  intros p Hp. destruct (combine_nonneg u v p Hu Hv Hp) as [Ha Hb].
  rewrite Qabs_pos; lra.
Qed.

Lemma braycurtis_sym (u v : list Q) :
  (IndexCli.braycurtis u v == IndexCli.braycurtis v u)%Q.
Proof.
  unfold IndexCli.braycurtis.
  assert (Hswap : forall (f : Q * Q -> Q),
             map f (combine v u) = map (fun p => f (snd p, fst p)) (combine u v)).
  { intros f. revert v. induction u as [| a u IH]; intros [| b v]; simpl;
      try reflexivity. rewrite IH. reflexivity. }
  rewrite !Hswap. cbn [fst snd].
  rewrite (total_map_eq (fun p => Qabs (snd p - fst p)) (fun p => Qabs (fst p - snd p)))
    by (intros p _; rewrite Qabs_Qminus; reflexivity).
  rewrite (total_map_eq (fun p => Qabs (snd p + fst p)) (fun p => Qabs (fst p + snd p)))
    by (intros p _; apply Qabs_wd; ring).
  reflexivity.
Qed.

Lemma braycurtis_self (u : list Q) : (IndexCli.braycurtis u u == 0)%Q.
Proof.
  unfold IndexCli.braycurtis.
  rewrite (total_map_eq (fun p => Qabs (fst p - snd p)) (fun _ => 0%Q)).
  - rewrite total_map_zero. unfold Qdiv. ring.
  - intros [a b] Hp. simpl.
    assert (a = b).
    { clear -Hp. induction u as [| x u IH]; simpl in Hp; [contradiction |].
      destruct Hp as [E | Hp]; [injection E as <- <-; reflexivity | auto]. }
    subst b. rewrite (Qabs_wd (a - a) 0) by ring. reflexivity.
Qed.

(** Between vectors without negative entries the distance lies in [0, 1]. *)
Lemma braycurtis_unit (u v : list Q) :
  Forall (Qle 0) u -> Forall (Qle 0) v ->
  (0 < IndexCli.total (map (fun p => Qabs (fst p + snd p)) (combine u v)))%Q ->
  (0 <= IndexCli.braycurtis u v <= 1)%Q.
Proof.
  intros Hu Hv Hden. unfold IndexCli.braycurtis. split.
  - apply Qle_shift_div_l; [exact Hden |]. rewrite Qmult_0_l.
    rewrite <- (total_map_zero (combine u v)). apply total_map_le.
    intros p _. apply Qabs_nonneg.
  - apply Qle_shift_div_r; [exact Hden |]. rewrite Qmult_1_l.
    apply total_map_le. intros p Hp.
    destruct (combine_nonneg u v p Hu Hv Hp) as [Ha Hb].
    rewrite (Qabs_pos (fst p + snd p)) by lra.
    apply Qabs_Qle_condition. lra.
Qed.

Section IndexFacts.

Variable other_metric : string -> list Q -> list Q -> result Q.

Local Abbreviation index := (IndexCli.compute_index other_metric).

(** With the Bray-Curtis distance and no negative value anywhere, the index
    of every sample lies in [-1, 1]. *)
Theorem braycurtis_index_range (sample forest grassland : list Q) :
  length sample = length forest -> length sample = length grassland ->
  Forall (Qle 0) sample -> Forall (Qle 0) forest -> Forall (Qle 0) grassland ->
  (0 < IndexCli.total forest)%Q -> (0 < IndexCli.total grassland)%Q ->
  exists idx,
    index sample "braycurtis" forest grassland = Ok idx /\
    (idx == IndexCli.braycurtis sample grassland - IndexCli.braycurtis sample forest)%Q /\
    (-1 <= idx <= 1)%Q.
Proof.
  intros Hf Hg Hs Hfo Hgr Hpf Hpg.
  unfold IndexCli.compute_index, IndexCli.pdist_pair.
  rewrite Hf, Nat.eqb_refl, <- Hf, Hg, Nat.eqb_refl. simpl.
  eexists. split; [reflexivity |]. split; [reflexivity |].
  assert (H1 : (0 <= IndexCli.braycurtis sample forest <= 1)%Q).
  { rewrite braycurtis_sym. apply braycurtis_unit; try assumption.
    apply braycurtis_denominator; auto. }
  assert (H2 : (0 <= IndexCli.braycurtis sample grassland <= 1)%Q).
  { rewrite braycurtis_sym. apply braycurtis_unit; try assumption.
    apply braycurtis_denominator; auto. }
  lra.
Qed.

(** A sample equal to the forest template scores the distance between the
    two templates, which is not negative; a sample equal to the grassland
    template scores its opposite. *)
Theorem braycurtis_index_at_templates (forest grassland : list Q) :
  length forest = length grassland ->
  Forall (Qle 0) forest -> Forall (Qle 0) grassland ->
  (0 < IndexCli.total forest)%Q -> (0 < IndexCli.total grassland)%Q ->
  exists at_forest at_grassland,
    index forest "braycurtis" forest grassland = Ok at_forest /\
    index grassland "braycurtis" forest grassland = Ok at_grassland /\
    (at_forest == IndexCli.braycurtis forest grassland)%Q /\
    (at_grassland == - IndexCli.braycurtis forest grassland)%Q /\
    (0 <= at_forest <= 1)%Q.
Proof.
  intros Hlen Hfo Hgr Hpf Hpg.
  unfold IndexCli.compute_index, IndexCli.pdist_pair.
  rewrite Hlen, !Nat.eqb_refl. simpl.
  eexists. eexists. split; [reflexivity |]. split; [reflexivity |].
  assert (H : (0 <= IndexCli.braycurtis forest grassland <= 1)%Q).
  { apply braycurtis_unit; try assumption. apply braycurtis_denominator; auto. }
  rewrite !braycurtis_self, (braycurtis_sym grassland forest).
  split; [ring |]. split; [ring |]. lra.
Qed.

(** Whatever the metric, the index is computed only for a sample with as
    many values as each template. *)
Lemma compute_index_lengths (sample forest grassland : list Q) (metric : string) (idx : Q) :
  index sample metric forest grassland = Ok idx ->
  length sample = length forest /\ length sample = length grassland.
Proof.
  unfold IndexCli.compute_index, IndexCli.pdist_pair. intros H.
  destruct (length sample =? length forest) eqn:Ef; [| discriminate H].
  destruct (length sample =? length grassland) eqn:Eg.
  - apply Nat.eqb_eq in Ef, Eg. auto.
  - destruct (if String.eqb metric "braycurtis" then _ else _); discriminate H.
Qed.

End IndexFacts.

Lemma count_named_existsb (col : string) (columns : list string) :
  existsb (String.eqb col) columns = negb (count_named col columns =? 0).
Proof.
  unfold count_named. induction columns as [| c columns IH]; simpl; [reflexivity |].
  destruct (String.eqb col c); simpl; [reflexivity | exact IH].
Qed.

Lemma dropped_row_length {A : Type} (col : string) (columns : list string) :
  forall row : list A,
    length row = length columns ->
    length (map snd (filter (fun cv => negb (String.eqb col (fst cv)))
                            (combine columns row)))
    = length columns - count_named col columns.
Proof.
  unfold count_named. induction columns as [| c columns IH]; intros row H.
  - reflexivity.
  - destruct row as [| x row]; [discriminate H |]. simpl in H.
    pose proof (filter_length_le (String.eqb col) columns) as Hle.
    cbn [combine filter fst]. 
    destruct (String.eqb col c); cbn [negb map length]; rewrite IH by lia; lia.
Qed.

Lemma concat_length_uniform {A : Type} (m : nat) (rows : list (list A)) :
  Forall (fun row => length row = m) rows -> length (concat rows) = length rows * m.
Proof.
  induction 1 as [| row rows Hrow _ IH]; simpl; [reflexivity |].
  rewrite length_app, IH, Hrow. reflexivity.
Qed.

Lemma kept_row {A : Type} (col : string) (columns : list string) :
  forall row : list A,
    ~ In col columns -> length row = length columns ->
    map snd (filter (fun cv => negb (String.eqb col (fst cv))) (combine columns row))
    = row.
Proof.
  induction columns as [| c columns IH]; intros row Hnot Hlen.
  - destruct row; [reflexivity | discriminate Hlen].
  - destruct row as [| x row]; [discriminate Hlen |]. simpl in Hlen.
    cbn [combine filter fst].
    destruct (String.eqb_spec col c) as [-> | Hne].
    + exfalso. apply Hnot. left. reflexivity.
    + cbn [negb map snd]. f_equal. apply IH; [| lia].
      intros H. apply Hnot. right. exact H.
Qed.

(** Without the cells of the one column named [col], a row is what comes
    before that cell and what comes after it. *)
Lemma dropped_row {A : Type} (col : string) (columns : list string) :
  forall (k : nat) (row : list A),
    NoDup columns -> nth_error columns k = Some col ->
    length row = length columns ->
    map snd (filter (fun cv => negb (String.eqb col (fst cv))) (combine columns row))
    = firstn k row ++ skipn (S k) row.
Proof.
  induction columns as [| c columns IH]; intros k row Hnd Hk Hlen.
  - destruct k; discriminate Hk.
  - destruct row as [| x row]; [discriminate Hlen |]. simpl in Hlen.
    apply NoDup_cons_iff in Hnd as [Hc Hnd].
    cbn [combine filter fst]. destruct k as [| k].
    + injection Hk as ->. rewrite String.eqb_refl. cbn [negb firstn skipn app].
      apply kept_row; [exact Hc | lia].
    + simpl in Hk. destruct (String.eqb_spec col c) as [-> | Hne].
      * exfalso. apply Hc. eapply nth_error_In, Hk.
      * cbn [negb map snd firstn skipn app]. f_equal. apply IH; [exact Hnd | exact Hk | lia].
Qed.

Section ValidateGraphFacts.

Variable A : Type.
Variable read_csv : string -> outcome (IndexCli.Table A).

(** [validate_graph] wants a [time] column: without one it raises [KeyError];
    with one it returns the cells of the other columns, [rows * (columns -
    time columns)] values in all.  For a table whose column names are
    distinct, as [read_csv] makes them, and whose column [k] is [time], the
    sample is the rows one after the other, each without its cell [k]. *)
Theorem validate_graph_drops_time (path : string) (t : IndexCli.Table A) :
  read_csv path = Returns t ->
  rectangular t ->
  (count_named "time" (IndexCli.t_columns t) = 0 ->
   IndexCli.validate_graph A read_csv path = Raises (KeyError IndexCli.not_found_msg)) /\
  (count_named "time" (IndexCli.t_columns t) <> 0 ->
   exists sample,
     IndexCli.validate_graph A read_csv path = Returns sample /\
     length sample
     = length (IndexCli.t_rows t)
       * (length (IndexCli.t_columns t) - count_named "time" (IndexCli.t_columns t))) /\
  (forall k,
      NoDup (IndexCli.t_columns t) ->
      nth_error (IndexCli.t_columns t) k = Some "time" ->
      IndexCli.validate_graph A read_csv path
      = Returns (concat (map (fun row => firstn k row ++ skipn (S k) row)
                             (IndexCli.t_rows t)))).
Proof.
  intros Hread Hrect. unfold IndexCli.validate_graph, IndexCli.drop_column.
  rewrite Hread. cbn [and_then]. rewrite count_named_existsb. split; [| split].
  - intros ->. reflexivity.
  - intros Hne. apply Nat.eqb_neq in Hne. rewrite Hne. cbn [negb and_then IndexCli.t_rows].
    eexists. split; [reflexivity |].
    rewrite (concat_length_uniform
               (length (IndexCli.t_columns t) - count_named "time" (IndexCli.t_columns t))).
    + rewrite length_map. reflexivity.
    + apply Forall_forall. intros row Hrow. apply in_map_iff in Hrow as [r [<- Hr]].
      apply dropped_row_length. unfold rectangular in Hrect.
      rewrite Forall_forall in Hrect. apply Hrect, Hr.
  - intros k Hnd Hk.
    assert (Hne : (count_named "time" (IndexCli.t_columns t) =? 0) = false).
    { apply Nat.eqb_neq. unfold count_named. intros H0.
      apply length_zero_iff_nil in H0.
      assert (Hin : In "time" (filter (String.eqb "time") (IndexCli.t_columns t))).
      { apply filter_In. split; [eapply nth_error_In, Hk | apply String.eqb_refl]. }
      rewrite H0 in Hin. destruct Hin. }
    rewrite Hne. cbn [negb and_then IndexCli.t_rows]. do 2 f_equal.
    apply map_ext_in. intros row Hrow. apply dropped_row; [exact Hnd | exact Hk |].
    unfold rectangular in Hrect. rewrite Forall_forall in Hrect. apply Hrect, Hrow.
Qed.

End ValidateGraphFacts.

(** The soundscape saved with its hours in the first column: the sample is
    the six densities, hour 8 first. *)
Lemma validate_graph_drops_time_witness :
  rectangular graph_table /\
  count_named "time" (IndexCli.t_columns graph_table) <> 0 /\
  NoDup (IndexCli.t_columns graph_table) /\
  (exists sample,
      IndexCli.validate_graph Q (fun _ => Returns graph_table) "graph.csv"
      = Returns sample /\
      length sample = 2 * (4 - 1)) /\
  IndexCli.validate_graph Q (fun _ => Returns graph_table) "graph.csv"
  = Returns [1 # 10; 1 # 2; 9 # 10; 1; 1; 1]%Q.
Proof.
  assert (Hr : rectangular graph_table) by (repeat constructor).
  assert (Hc : count_named "time" (IndexCli.t_columns graph_table) <> 0) by discriminate.
  assert (Hnd : NoDup (IndexCli.t_columns graph_table)).
  { repeat constructor; simpl; intuition discriminate. }
  split; [exact Hr |]. split; [exact Hc |]. split; [exact Hnd |].
  destruct (validate_graph_drops_time Q (fun _ => Returns graph_table)
              "graph.csv" graph_table eq_refl Hr) as (_ & Hlen & Hcells).
  split; [exact (Hlen Hc) |].
  exact (Hcells 0 Hnd eq_refl).
Defined.

Lemma braycurtis_index_range_witness :
  Forall (Qle 0) [1; 0; 3]%Q /\ Forall (Qle 0) [2; 2; 0]%Q /\ Forall (Qle 0) [0; 1; 5]%Q /\
  exists idx,
    IndexCli.compute_index no_other_metric [1; 0; 3]%Q "braycurtis" [2; 2; 0]%Q [0; 1; 5]%Q
    = Ok idx /\
    (idx == IndexCli.braycurtis [1; 0; 3]%Q [0; 1; 5]%Q
            - IndexCli.braycurtis [1; 0; 3]%Q [2; 2; 0]%Q)%Q /\
    (-1 <= idx <= 1)%Q.
Proof.
  assert (Hs : Forall (Qle 0) [1; 0; 3]%Q) by (repeat constructor; discriminate).
  assert (Hf : Forall (Qle 0) [2; 2; 0]%Q) by (repeat constructor; discriminate).
  assert (Hg : Forall (Qle 0) [0; 1; 5]%Q) by (repeat constructor; discriminate).
  split; [exact Hs |]. split; [exact Hf |]. split; [exact Hg |].
  exact (braycurtis_index_range no_other_metric [1; 0; 3]%Q [2; 2; 0]%Q [0; 1; 5]%Q
           eq_refl eq_refl Hs Hf Hg eq_refl eq_refl).
Defined.

Lemma braycurtis_index_at_templates_witness :
  Forall (Qle 0) [2; 2; 0]%Q /\ Forall (Qle 0) [0; 1; 5]%Q /\
  exists at_forest at_grassland,
    IndexCli.compute_index no_other_metric [2; 2; 0]%Q "braycurtis" [2; 2; 0]%Q [0; 1; 5]%Q
    = Ok at_forest /\
    IndexCli.compute_index no_other_metric [0; 1; 5]%Q "braycurtis" [2; 2; 0]%Q [0; 1; 5]%Q
    = Ok at_grassland /\
    (at_forest == IndexCli.braycurtis [2; 2; 0]%Q [0; 1; 5]%Q)%Q /\
    (at_grassland == - IndexCli.braycurtis [2; 2; 0]%Q [0; 1; 5]%Q)%Q /\
    (0 <= at_forest <= 1)%Q.
Proof.
  assert (Hf : Forall (Qle 0) [2; 2; 0]%Q) by (repeat constructor; discriminate).
  assert (Hg : Forall (Qle 0) [0; 1; 5]%Q) by (repeat constructor; discriminate).
  split; [exact Hf |]. split; [exact Hg |].
  exact (braycurtis_index_at_templates no_other_metric [2; 2; 0]%Q [0; 1; 5]%Q
           eq_refl Hf Hg eq_refl eq_refl).
Defined.

(** ** Detections by file and by sensor *)

Lemma existsb_string_In (x : string) (l : list string) :
  existsb (String.eqb x) l = true <-> In x l.
Proof.
  rewrite existsb_exists. split.
  - intros [y [Hy He]]. apply String.eqb_eq in He. subst. exact Hy.
  - intros H. exists x. split; [exact H | apply String.eqb_refl].
Qed.

Lemma distinct_In (x : string) (l : list string) : In x (Os.distinct l) <-> In x l.
Proof.
  induction l as [| y l IH]; simpl; [tauto |].
  destruct (existsb (String.eqb y) (Os.distinct l)) eqn:E.
  - apply existsb_string_In in E. rewrite IH. split; [tauto |].
    intros [-> | H]; [apply IH, E | exact H].
  - simpl. rewrite IH. tauto.
Qed.

Lemma distinct_NoDup (l : list string) : NoDup (Os.distinct l).
Proof.
  induction l as [| y l IH]; simpl; [constructor |].
  destruct (existsb (String.eqb y) (Os.distinct l)) eqn:E; [exact IH |].
  constructor; [| exact IH].
  intros H. apply existsb_string_In in H. congruence.
Qed.

Lemma insert_sorted_perm (x : string) (l : list string) :
  Permutation (x :: l) (Os.insert_sorted x l).
Proof.
  induction l as [| y l IH]; simpl; [reflexivity |].
  destruct (String.leb x y); [reflexivity |].
  rewrite perm_swap. constructor. exact IH.
Qed.

Lemma sorted_unique_perm (l : list string) :
  Permutation (Os.distinct l) (Os.sorted_unique l).
Proof.
  unfold Os.sorted_unique. induction (Os.distinct l) as [| x d IH]; simpl; [reflexivity |].
  rewrite <- insert_sorted_perm. constructor. exact IH.
Qed.

Lemma sorted_unique_In (x : string) (l : list string) :
  In x (Os.sorted_unique l) <-> In x l.
Proof.
  split; intros H.
  - apply distinct_In. eapply Permutation_in; [symmetry; apply sorted_unique_perm | exact H].
  - eapply Permutation_in; [apply sorted_unique_perm | apply distinct_In, H].
Qed.

Lemma sorted_unique_NoDup (l : list string) : NoDup (Os.sorted_unique l).
Proof.
  eapply Permutation_NoDup; [apply sorted_unique_perm | apply distinct_NoDup].
Qed.

Lemma zsum_app (a b : list Z) :
  Detections.zsum (a ++ b) = (Detections.zsum a + Detections.zsum b)%Z.
Proof. induction a as [| x a IH]; simpl; [reflexivity | rewrite IH; lia]. Qed.

Lemma zsum_map_add {A : Type} (f g : A -> Z) (l : list A) :
  Detections.zsum (map (fun x => (f x + g x)%Z) l)
  = (Detections.zsum (map f l) + Detections.zsum (map g l))%Z.
Proof. induction l as [| x l IH]; simpl; [reflexivity | rewrite IH; lia]. Qed.

Lemma zsum_map_ext {A : Type} (f g : A -> Z) (l : list A) :
  (forall x, In x l -> f x = g x) ->
  Detections.zsum (map f l) = Detections.zsum (map g l).
Proof.
  intros H. f_equal. apply map_ext_in. exact H.
Qed.

Lemma zsum_indicator (a : string) (v : Z) (keys : list string) :
  NoDup keys ->
  Detections.zsum (map (fun key => if String.eqb a key then v else 0%Z) keys)
  = if existsb (String.eqb a) keys then v else 0%Z.
Proof.
  induction 1 as [| key keys Hnot Hnd IH]; simpl; [reflexivity |].
  rewrite IH. destruct (String.eqb_spec a key) as [-> | Hne]; simpl.
  - destruct (existsb (String.eqb key) keys) eqn:E; [| lia].
    apply existsb_string_In in E. contradiction.
  - reflexivity.
Qed.

(** Summing by key over distinct keys counts every element whose key is
    listed once. *)
Lemma zsum_by_key {A : Type} (k : A -> string) (g : A -> Z) (keys : list string)
      (l : list A) :
  NoDup keys ->
  Detections.zsum
    (map (fun key => Detections.zsum (map g (filter (fun x => String.eqb (k x) key) l))) keys)
  = Detections.zsum (map g (filter (fun x => existsb (String.eqb (k x)) keys) l)).
Proof.
  intros Hnd. induction l as [| x l IH].
  - simpl. induction keys; simpl; [reflexivity |].
    inversion Hnd; subst. rewrite IHkeys; auto.
  - cbn [filter].
    rewrite (zsum_map_ext _
               (fun key => ((if String.eqb (k x) key then g x else 0) +
                            Detections.zsum
                              (map g (filter (fun y => String.eqb (k y) key) l)))%Z)).
    + rewrite zsum_map_add, IH, zsum_indicator by exact Hnd.
      destruct (existsb (String.eqb (k x)) keys); reflexivity.
    + intros key _. destruct (String.eqb (k x) key); reflexivity.
Qed.

Lemma zsum_by_key_all {A : Type} (k : A -> string) (g : A -> Z) (keys : list string)
      (l : list A) :
  NoDup keys -> (forall x, In x l -> In (k x) keys) ->
  Detections.zsum
    (map (fun key => Detections.zsum (map g (filter (fun x => String.eqb (k x) key) l))) keys)
  = Detections.zsum (map g l).
Proof.
  intros Hnd Hall. rewrite zsum_by_key by exact Hnd. f_equal. f_equal.
  apply forallb_filter_id. apply forallb_forall. intros x Hx.
  apply existsb_string_In, Hall, Hx.
Qed.

Lemma filter_andb {A : Type} (p q : A -> bool) (l : list A) :
  filter (fun x => p x && q x) l = filter q (filter p l).
Proof.
  induction l as [| x l IH]; simpl; [reflexivity |].
  destruct (p x); simpl; [destruct (q x) |]; rewrite IH; reflexivity.
Qed.

(** The pivot loses no row: its cells add up to the confidences of the frame. *)
Lemma pivot_table_total (df : list (Detections.Row Z)) :
  grand_total (Detections.pivot_table df)
  = Detections.zsum (map Detections.confidence df).
Proof.
  unfold grand_total, Detections.pivot_table. cbn [Detections.cells].
  rewrite map_map.
  rewrite (zsum_map_ext _
             (fun f => Detections.zsum
                         (map Detections.confidence
                              (filter (fun r => String.eqb (Detections.fname r) f) df)))).
  - apply zsum_by_key_all; [apply sorted_unique_NoDup |].
    intros r Hr. apply sorted_unique_In, in_map, Hr.
  - intros f _.
    rewrite (zsum_map_ext _
               (fun sp => Detections.zsum
                  (map Detections.confidence
                     (filter (fun r => String.eqb (Detections.scientific_name r) sp)
                        (filter (fun r => String.eqb (Detections.fname r) f) df))))).
    + apply zsum_by_key_all; [apply sorted_unique_NoDup |].
      intros r Hr. apply filter_In in Hr as [Hr _].
      apply sorted_unique_In, in_map, Hr.
    + intros sp _. rewrite filter_andb. reflexivity.
Qed.

Lemma filter_comm {A : Type} (p q : A -> bool) (l : list A) :
  filter q (filter p l) = filter p (filter q l).
Proof.
  induction l as [| x l IH]; simpl; [reflexivity |].
  destruct (p x) eqn:Hp, (q x) eqn:Hq; simpl; rewrite ?Hp, ?Hq, IH; reflexivity.
Qed.

Lemma kept_columns {B : Type} (keep : string -> bool) (F : string -> B)
      (cols : list string) :
  map snd (filter (fun cv => keep (fst cv)) (combine cols (map F cols)))
  = map F (filter keep cols).
Proof.
  induction cols as [| c cols IH]; simpl; [reflexivity |].
  destruct (keep c); simpl; rewrite IH; reflexivity.
Qed.

Lemma nth_seq_row (row : list Z) :
  map (fun j => nth j row 0%Z) (seq 0 (length row)) = row.
Proof.
  apply (nth_ext _ _ 0%Z 0%Z).
  - rewrite length_map, length_seq. reflexivity.
  - intros j Hj. rewrite length_map, length_seq in Hj.
    rewrite (nth_map_in (fun j => nth j row 0%Z) (seq 0 (length row)) j 0 0%Z)
      by (rewrite length_seq; exact Hj).
    rewrite seq_nth by exact Hj. reflexivity.
Qed.

Lemma sum_rows_total (n : nat) (rows : list (list Z)) :
  Forall (fun row => length row = n) rows ->
  Detections.zsum (Detections.sum_rows n rows)
  = Detections.zsum (map Detections.zsum rows).
Proof.
  unfold Detections.sum_rows. induction 1 as [| row rows Hrow _ IH].
  - simpl. induction (seq 0 n); simpl; [reflexivity | assumption].
  - cbn [map Detections.zsum fold_right].
    change (fold_right Z.add 0%Z) with Detections.zsum.
    rewrite (zsum_map_add (fun j => nth j row 0%Z)
               (fun j => Detections.zsum (map (fun r => nth j r 0%Z) rows))).
    rewrite IH. subst n. rewrite nth_seq_row. reflexivity.
Qed.

(** Grouping the rows of a table by a label and summing each group keeps
    the sum of the table. *)
Lemma grouped_total (n : nat) (labels : list string) (values : list (list Z)) :
  length values = length labels ->
  Forall (fun row => length row = n) values ->
  Detections.zsum
    (map Detections.zsum
       (map (fun site =>
               Detections.sum_rows n
                 (map snd (filter (fun sv => String.eqb (fst sv) site)
                                  (combine labels values))))
            (Os.sorted_unique labels)))
  = Detections.zsum (map Detections.zsum values).
Proof.
  intros Hlen Hrows. rewrite map_map.
  rewrite (zsum_map_ext _
             (fun site =>
                Detections.zsum
                  (map (fun sv => Detections.zsum (snd sv))
                       (filter (fun sv : string * list Z => String.eqb (fst sv) site)
                               (combine labels values))))).
  - rewrite (zsum_by_key_all (fun sv : string * list Z => fst sv)).
    + rewrite <- (map_map snd Detections.zsum), map_snd_combine by exact Hlen.
      reflexivity.
    + apply sorted_unique_NoDup.
    + intros [s v] Hsv. apply sorted_unique_In. simpl.
      eapply in_combine_l, Hsv.
  - intros site _. rewrite sum_rows_total.
    + rewrite map_map. reflexivity.
    + apply Forall_forall. intros row Hrow.
      apply in_map_iff in Hrow as [[s v] [<- Hsv]].
      apply filter_In in Hsv as [Hsv _]. apply in_combine_r in Hsv.
      rewrite Forall_forall in Hrows. apply Hrows, Hsv.
Qed.

Lemma species_columns_total (df : list (Detections.Row Z)) :
  Detections.zsum
    (map Detections.zsum
       (map (fun row =>
               map snd (filter (fun cv : string * Z => is_species (fst cv))
                               (combine (Detections.columns (Detections.pivot_table df)) row)))
            (Detections.cells (Detections.pivot_table df))))
  = Detections.zsum
      (map Detections.confidence
           (filter (fun r => is_species (Detections.scientific_name r)) df)).
Proof.
  unfold Detections.pivot_table. cbn [Detections.cells Detections.columns].
  rewrite !map_map.
  set (cols := Os.sorted_unique (map Detections.scientific_name df)).
  set (q := fun r : Detections.Row Z =>
              existsb (String.eqb (Detections.scientific_name r)) (filter is_species cols)).
  rewrite (zsum_map_ext _
             (fun f => Detections.zsum
                         (map Detections.confidence
                              (filter (fun r => String.eqb (Detections.fname r) f)
                                      (filter q df))))).
  - rewrite zsum_by_key_all.
    + f_equal. f_equal. apply filter_ext_in. intros r Hr. unfold q.
      destruct (is_species (Detections.scientific_name r)) eqn:E.
      * apply existsb_string_In, filter_In. split; [| exact E].
        apply sorted_unique_In, in_map, Hr.
      * destruct (existsb _ _) eqn:E'; [| reflexivity].
        apply existsb_string_In, filter_In in E' as [_ E']. congruence.
    + apply sorted_unique_NoDup.
    + intros r Hr. apply filter_In in Hr as [Hr _].
      apply sorted_unique_In, in_map, Hr.
  - intros f _. rewrite (kept_columns is_species).
    rewrite (zsum_map_ext _
               (fun sp => Detections.zsum
                  (map Detections.confidence
                     (filter (fun r => String.eqb (Detections.scientific_name r) sp)
                        (filter (fun r => String.eqb (Detections.fname r) f) df))))).
    + rewrite zsum_by_key by (apply NoDup_filter, sorted_unique_NoDup).
      fold q. rewrite (filter_comm _ q). reflexivity.
    + intros sp _. rewrite filter_andb. reflexivity.
Qed.

Lemma retained_rows (min_conf : Q) (df : list (Detections.Row Q)) :
  filter (fun r : Detections.Row Z => (Detections.confidence r =? 1)%Z)
    (map (fun r => Detections.mkRow (Detections.fname r) (Detections.scientific_name r)
                     (Z.b2z (Qle_bool min_conf (Detections.confidence r)))) df)
  = map (fun r => Detections.mkRow (Detections.fname r) (Detections.scientific_name r) 1%Z)
        (confident min_conf df).
Proof.
  unfold confident. induction df as [| r df IH]; simpl; [reflexivity |].
  destruct (Qle_bool min_conf (Detections.confidence r)); simpl; rewrite IH; reflexivity.
Qed.

Lemma zsum_ones {A : Type} (l : list A) :
  Detections.zsum (map (fun _ => 1%Z) l) = Z.of_nat (length l).
Proof.
  induction l as [| x l IH]; [reflexivity |].
  cbn [map length]. rewrite Nat2Z.inj_succ, <- IH.
  unfold Detections.zsum. cbn [fold_right]. lia.
Qed.

Lemma filter_map_commute {A B : Type} (f : A -> B) (p : B -> bool) (l : list A) :
  filter p (map f l) = map f (filter (fun x => p (f x)) l).
Proof.
  induction l as [| x l IH]; simpl; [reflexivity |].
  destruct (p (f x)); simpl; rewrite IH; reflexivity.
Qed.

Section DetectionFacts.

Variable glob_csv : string -> list string.
Variable merge_annot_files : list string -> outcome (list (Detections.Row Q)).
Variable str_replace : string -> string.
Variable min_conf_text : string.

Local Abbreviation load_and_filter_data :=
  (Detections.load_and_filter_data glob_csv merge_annot_files).
Local Abbreviation create_abundance_matrix :=
  (Detections.create_abundance_matrix str_replace min_conf_text).

(** The table by file holds, for every file with a detection at or above the
    threshold and every species so detected, the number of such detections of
    that species in that file; files and species without one have no row and
    no column. *)
Theorem file_matrix_counts_detections
        (path_annot path_save_matrix : string) (min_conf : Q)
        (df : list (Detections.Row Q)) :
  merge_annot_files (glob_csv path_annot) = Returns df ->
  confident min_conf df <> [] ->
  exists df_clean file_path by_file site,
    load_and_filter_data path_annot min_conf = Returns df_clean /\
    create_abundance_matrix df_clean path_save_matrix = [(file_path, by_file); site] /\
    let files := Os.sorted_unique (map Detections.fname (confident min_conf df)) in
    let species := Detections.columns by_file in
    Detections.index by_file = map str_replace files /\
    length (Detections.cells by_file) = length files /\
    (forall f, In f files <->
               exists r, In r df /\ Detections.fname r = f /\
                         (min_conf <= Detections.confidence r)%Q) /\
    (forall sp, In sp species <->
                exists r, In r df /\ Detections.scientific_name r = sp /\
                          (min_conf <= Detections.confidence r)%Q) /\
    forall i j, i < length files -> j < length species ->
      nth j (nth i (Detections.cells by_file) []) 0%Z
      = Z.of_nat (length (detections_of (confident min_conf df)
                                        (nth i files "") (nth j species ""))).
Proof.
  intros Hmerge _. unfold Detections.load_and_filter_data. rewrite Hmerge.
  cbn [and_then]. rewrite retained_rows.
  set (kept := confident min_conf df).
  set (clean := map _ kept).
  assert (Hf : map Detections.fname clean = map Detections.fname kept)
    by (unfold clean; rewrite map_map; reflexivity).
  assert (Hs : map Detections.scientific_name clean = map Detections.scientific_name kept)
    by (unfold clean; rewrite map_map; reflexivity).
  assert (Hin : forall (k : Detections.Row Q -> string) key,
             In key (Os.sorted_unique (map k kept)) <->
             exists r, In r df /\ k r = key /\ (min_conf <= Detections.confidence r)%Q).
  { intros k key. rewrite sorted_unique_In, in_map_iff. unfold kept, confident.
    split.
    - intros [r [Hk Hr]]. apply filter_In in Hr as [Hr Hc].
      exists r. rewrite <- Qle_bool_iff. auto.
    - intros [r [Hr [Hk Hc]]]. exists r. split; [exact Hk |].
      apply filter_In. rewrite Qle_bool_iff. auto. }
  do 4 eexists. split; [reflexivity |]. split; [reflexivity |].
  cbn [Detections.index Detections.columns Detections.cells Detections.pivot_table].
  rewrite Hf, Hs.
  split; [reflexivity |]. split; [apply length_map |].
  split; [apply Hin |]. split; [apply Hin |].
  intros i j Hi Hj.
  rewrite (nth_map_in _ _ i "" []) by exact Hi.
  rewrite (nth_map_in _ _ j "" 0%Z) by exact Hj.
  unfold clean, detections_of. rewrite filter_map_commute, map_map.
  cbn [Detections.fname Detections.scientific_name Detections.confidence].
  apply zsum_ones.
Qed.

(** No detection at or above the threshold is lost or counted twice: the
    cells of the table by file add up to the number of such detections, and
    those of the table by sensor to the number of them whose species is not
    named [sensor_name]. *)
Theorem abundance_matrices_keep_every_detection
        (path_annot path_save_matrix : string) (min_conf : Q)
        (df : list (Detections.Row Q)) :
  merge_annot_files (glob_csv path_annot) = Returns df ->
  confident min_conf df <> [] ->
  exists df_clean file_path by_file site_path by_site,
    load_and_filter_data path_annot min_conf = Returns df_clean /\
    create_abundance_matrix df_clean path_save_matrix
    = [(file_path, by_file); (site_path, by_site)] /\
    grand_total by_file = Z.of_nat (length (confident min_conf df)) /\
    grand_total by_site
    = Z.of_nat (length (filter (fun r => is_species (Detections.scientific_name r))
                               (confident min_conf df))).
Proof.
  intros Hmerge _. unfold Detections.load_and_filter_data. rewrite Hmerge.
  cbn [and_then]. rewrite retained_rows.
  set (kept := confident min_conf df).
  set (clean := map _ kept).
  do 5 eexists. split; [reflexivity |]. split; [reflexivity |]. split.
  - unfold grand_total. cbn [Detections.cells].
    fold (grand_total (Detections.pivot_table clean)).
    rewrite pivot_table_total. unfold clean. rewrite map_map.
    cbn [Detections.confidence]. apply zsum_ones.
  - unfold grand_total. cbn [Detections.cells].
    rewrite grouped_total.
    + etransitivity; [exact (species_columns_total clean) |]. unfold clean.
      rewrite filter_map_commute, map_map.
      cbn [Detections.confidence Detections.scientific_name]. apply zsum_ones.
    + unfold Detections.pivot_table. cbn [Detections.index Detections.cells].
      rewrite !length_map. reflexivity.
    + apply Forall_forall. intros row Hrow.
      apply in_map_iff in Hrow as [cells [<- Hcells]].
      unfold Detections.pivot_table in Hcells. cbn [Detections.cells] in Hcells.
      apply in_map_iff in Hcells as [f [<- _]].
      cbn [Detections.columns Detections.pivot_table].
      etransitivity; [apply f_equal, (kept_columns is_species) |]. apply length_map.
Qed.

End DetectionFacts.

(** ** Segment names and annotation files *)

Lemma append_assoc (a b c : string) : ((a ++ b) ++ c = a ++ (b ++ c))%string.
Proof. induction a as [| x a IH]; simpl; [reflexivity | rewrite IH; reflexivity]. Qed.

Lemma free_of_append (c : ascii) (a b : string) :
  Os.free_of c (a ++ b)%string = Os.free_of c a && Os.free_of c b.
Proof.
  induction a as [| x a IH]; simpl; [reflexivity |].
  rewrite IH. apply andb_assoc.
Qed.

Lemma split_nonempty (c : ascii) (s : string) : Os.split c s <> [].
Proof.
  destruct s as [| x s]; simpl; [discriminate |].
  destruct (Ascii.eqb x c); [discriminate |].
  destruct (Os.split c s); discriminate.
Qed.

Lemma split_free (c : ascii) (s : string) :
  Os.free_of c s = true -> Os.split c s = [s].
Proof.
  induction s as [| x s IH]; simpl; [reflexivity |].
  intros H. apply andb_prop in H as [Hx Hs].
  apply negb_true_iff in Hx. rewrite Hx, (IH Hs). reflexivity.
Qed.

(** Splitting at a separator splits what is on either side of one. *)
Lemma split_sep (c : ascii) (a b : string) :
  Os.split c (a ++ String c b)%string = Os.split c a ++ Os.split c b.
Proof.
  induction a as [| x a IH]; simpl.
  - rewrite Ascii.eqb_refl. reflexivity.
  - destruct (Ascii.eqb x c); rewrite IH; [reflexivity |].
    pose proof (split_nonempty c a) as Hne.
    destruct (Os.split c a); [contradiction | reflexivity].
Qed.

Lemma split_field (c : ascii) (a b : string) :
  Os.free_of c a = true ->
  Os.split c (a ++ String c b)%string = a :: Os.split c b.
Proof. intros H. rewrite split_sep, (split_free _ _ H). reflexivity. Qed.

Lemma slash_code (c : ascii) : (nat_of_ascii c =? 47) = Ascii.eqb c "/".
Proof. destruct c as [[] [] [] [] [] [] [] []]; reflexivity. Qed.

Lemma list_ascii_append (a b : string) :
  list_ascii_of_string (a ++ b)%string = list_ascii_of_string a ++ list_ascii_of_string b.
Proof. induction a as [| x a IH]; simpl; [reflexivity | rewrite IH; reflexivity]. Qed.

Lemma basename_aux_free (l cur : list ascii) :
  Os.free_of "/" (string_of_list_ascii l) = true ->
  Str.basename_aux l cur = rev cur ++ l.
Proof.
  revert cur. induction l as [| x l IH]; intros cur H; simpl in *.
  - rewrite app_nil_r. reflexivity.
  - apply andb_prop in H as [Hx Hl]. apply negb_true_iff in Hx.
    rewrite slash_code, Hx, (IH _ Hl). simpl. rewrite <- app_assoc. reflexivity.
Qed.

Lemma basename_aux_slash (l1 l2 cur : list ascii) :
  Str.basename_aux (l1 ++ "/"%char :: l2) cur = Str.basename_aux l2 [].
Proof.
  revert cur. induction l1 as [| x l1 IH]; intros cur; simpl.
  - reflexivity.
  - destruct (nat_of_ascii x =? 47); apply IH.
Qed.

(** [os.path.basename] gives back what follows the last slash. *)
Lemma basename_after_slash (a b : string) :
  Os.free_of "/" b = true -> Str.basename (a ++ String "/" b)%string = b.
Proof.
  intros H. unfold Str.basename. rewrite list_ascii_append. simpl.
  rewrite basename_aux_slash, basename_aux_free.
  - apply string_of_list_ascii_of_string.
  - rewrite string_of_list_ascii_of_string. exact H.
Qed.

Lemma basename_free (b : string) :
  Os.free_of "/" b = true -> Str.basename b = b.
Proof.
  intros H. unfold Str.basename. rewrite basename_aux_free.
  - apply string_of_list_ascii_of_string.
  - rewrite string_of_list_ascii_of_string. exact H.
Qed.

Lemma join_entry (path entry : string) :
  Os.free_of "/" entry = true ->
  Str.basename (Os.join path entry) = entry.
Proof.
  intros H. unfold Os.join.
  assert (Hstart : Os.startswith_slash entry = false).
  { destruct entry as [| c e]; [reflexivity |]. simpl in H.
    apply andb_prop in H as [H _]. apply negb_true_iff in H. exact H. }
  rewrite Hstart.
  destruct ((String.length path =? 0) || Os.endswith_slash path) eqn:E.
  - apply orb_prop in E as [E | E].
    + apply Nat.eqb_eq in E. destruct path; [| discriminate]. apply basename_free, H.
    + assert (Hend : forall p, Os.endswith_slash p = true ->
                               exists q, p = (q ++ String "/" EmptyString)%string).
      { clear. induction p as [| c p IH]; [discriminate |].
        destruct p as [| d p].
        - simpl. intros Hc. apply Ascii.eqb_eq in Hc. subst. exists EmptyString. reflexivity.
        - intros Hp. change (Os.endswith_slash (String d p) = true) in Hp.
          destruct (IH Hp) as [q Hq]. exists (String c q). simpl. rewrite <- Hq. reflexivity. }
      destruct (Hend _ E) as [q ->]. rewrite append_assoc. simpl.
      apply basename_after_slash, H.
  - apply basename_after_slash, H.
Qed.

Lemma substring_prefix (a b : string) : substring 0 (String.length a) (a ++ b)%string = a.
Proof.
  induction a as [| x a IH]; simpl.
  - destruct b; reflexivity.
  - rewrite IH. reflexivity.
Qed.

Lemma drop_last_suffix (a b : string) :
  Os.drop_last (String.length b) (a ++ b)%string = a.
Proof.
  unfold Os.drop_last. rewrite length_append.
  replace (String.length a + String.length b - String.length b) with (String.length a) by lia.
  apply substring_prefix.
Qed.

Lemma get_last_but_one {A : Type} (l : list A) (x y : A) :
  Annotation.get (l ++ [x; y]) (-2) = Some x.
Proof.
  unfold Annotation.get. rewrite length_app. cbn [length].
  replace (0 <=? -2)%Z with false by reflexivity.
  replace (- -2 <=? Z.of_nat (length l + 2))%Z with true by (symmetry; apply Z.leb_le; lia).
  replace (length l + 2 - Z.to_nat (- -2)) with (length l + 0) by (simpl; lia).
  rewrite nth_error_app2 by lia.
  replace (length l + 0 - length l) with 0 by lia. reflexivity.
Qed.

Lemma traverse_map {A B C : Type} (f : B -> outcome C) (g : A -> B) (h : A -> C)
      (l : list A) :
  (forall x, In x l -> f (g x) = Returns (h x)) ->
  Annotation.traverse f (map g l) = Returns (map h l).
Proof.
  induction l as [| x l IH]; intros H; simpl; [reflexivity |].
  rewrite (H x (or_introl eq_refl)). cbn [and_then].
  rewrite IH by (intros y Hy; apply H; right; exact Hy). reflexivity.
Qed.

Lemma map_seq_nth {A B : Type} (d : A) (H : A -> B) (l : list A) :
  map (fun i => H (nth i l d)) (seq 0 (length l)) = map H l.
Proof.
  induction l as [| x l IH]; [reflexivity |].
  cbn [length seq map nth]. f_equal.
  rewrite <- seq_shift, map_map. exact IH.
Qed.

Lemma insert_row_perm (r : Annotation.Row) (l : list Annotation.Row) :
  Permutation (r :: l) (Annotation.insert_row r l).
Proof.
  induction l as [| r' l IH]; simpl; [reflexivity |].
  destruct (String.leb _ _); [reflexivity |].
  rewrite perm_swap. constructor. exact IH.
Qed.

Lemma sort_values_perm (rows : list Annotation.Row) :
  Permutation rows (Annotation.sort_values rows).
Proof.
  induction rows as [| r rows IH]; simpl; [reflexivity |].
  rewrite <- insert_row_perm. constructor. exact IH.
Qed.

Lemma insert_row_sorted (r : Annotation.Row) (l : list Annotation.Row) :
  Sorted by_segment l -> Sorted by_segment (Annotation.insert_row r l).
Proof.
  induction 1 as [| r' l Hl IH Hhd]; simpl.
  - repeat constructor.
  - destruct (String.leb (Annotation.segment r) (Annotation.segment r')) eqn:E.
    + constructor; [constructor; assumption | constructor; exact E].
    + constructor; [exact IH |].
      assert (Hr : by_segment r' r).
      { destruct (String.leb_total (Annotation.segment r) (Annotation.segment r'))
          as [H | H]; [congruence | exact H]. }
      destruct l as [| r'' l]; simpl; [constructor; exact Hr |].
      destruct (String.leb (Annotation.segment r) (Annotation.segment r''));
        constructor; [exact Hr |]. inversion Hhd; assumption.
Qed.

Lemma sort_values_sorted (rows : list Annotation.Row) :
  Sorted by_segment (Annotation.sort_values rows).
Proof.
  induction rows as [| r rows IH]; simpl; [constructor |].
  apply insert_row_sorted, IH.
Qed.

Lemma frame_of_maps {A : Type} (d : A) (f1 : A -> string) (f2 f4 f5 : A -> option Q)
      (f3 f6 : A -> option string) (l : list A) :
  Annotation.frame (map f1 l) (map f2 l) (map f3 l) (map f4 l) (map f5 l) (map f6 l)
  = map (fun x => Annotation.mkRow (f1 x) (f2 x) (f3 x) (f4 x) (f5 x) (f6 x)) l.
Proof.
  unfold Annotation.frame. rewrite length_map.
  rewrite <- (map_seq_nth d (fun x => Annotation.mkRow (f1 x) (f2 x) (f3 x) (f4 x) (f5 x) (f6 x))).
  apply map_ext_in. intros i Hi. apply in_seq in Hi as [_ Hi]. simpl in Hi.
  rewrite (nth_map_in f1 l i d), (nth_map_in f2 l i d), (nth_map_in f3 l i d),
    (nth_map_in f4 l i d), (nth_map_in f5 l i d), (nth_map_in f6 l i d) by exact Hi.
  reflexivity.
Qed.

Lemma segment_name_fields (sg : Segment) :
  segment_name sg
  = (seg_conf sg ++ String "_" (seg_rank sg ++ String "_" (seg_site sg ++ String "_"
      (seg_date sg ++ String "_" (seg_time sg ++ String "_"
        ((seg_start sg ++ "s") ++ String "_" (seg_end sg ++ "s.wav")))))))%string.
Proof. unfold segment_name. rewrite append_assoc. reflexivity. Qed.

Ltac free_fields :=
  rewrite ?free_of_append;
  repeat match goal with Hf : Os.free_of _ _ = true |- _ => rewrite Hf end;
  reflexivity.

(** What the script reads from the path of a well-formed segment. *)
Lemma segment_path_parts (sg : Segment) :
  well_formed sg = true ->
  Str.basename (segment_path sg) = segment_name sg /\
  Os.split "_" (segment_name sg)
  = [seg_conf sg; seg_rank sg; seg_site sg; seg_date sg; seg_time sg;
     (seg_start sg ++ "s")%string; (seg_end sg ++ "s.wav")%string] /\
  Annotation.get (Os.split "/" (segment_path sg)) (-2) = Some (seg_species sg).
Proof.
  unfold well_formed. cbn [forallb]. intros H.
  repeat (apply andb_prop in H as [H ?]).
  repeat match goal with
         | Hf : _ && _ = true |- _ => apply andb_prop in Hf as [? ?]
         end.
  assert (Hname : Os.free_of "/" (segment_name sg) = true).
  { unfold segment_name. free_fields. }
  split; [| split].
  - unfold segment_path.
    change (seg_folder sg ++ "/" ++ seg_species sg ++ "/" ++ segment_name sg)%string
      with (seg_folder sg ++ ("/" ++ seg_species sg) ++ String "/" (segment_name sg))%string.
    rewrite <- append_assoc. apply basename_after_slash, Hname.
  - rewrite segment_name_fields.
    rewrite !split_field; try assumption.
    + rewrite split_free; [reflexivity | free_fields].
    + free_fields.
  - unfold segment_path.
    change (seg_folder sg ++ "/" ++ seg_species sg ++ "/" ++ segment_name sg)%string
      with (seg_folder sg ++ String "/" (seg_species sg ++ String "/" (segment_name sg)))%string.
    rewrite split_sep, split_field, (split_free _ _ Hname) by assumption.
    apply get_last_but_one.
Qed.

Lemma is_float64_present {A B : Type} (f : A -> option B) (l : list A) :
  (l = [] \/ exists x y, In x l /\ f x = Some y) ->
  Annotation.is_float64 (map f l) = false.
Proof.
  unfold Annotation.is_float64. intros [-> | (x & y & Hx & Hy)]; [reflexivity |].
  apply andb_false_iff. right.
  destruct (forallb _ (map f l)) eqn:E; [| reflexivity].
  rewrite forallb_forall in E. specialize (E (f x) (in_map f l x Hx)).
  rewrite Hy in E. discriminate E.
Qed.

Lemma is_float64_missing {A B : Type} (f : A -> option B) (l : list A) :
  l <> [] -> (forall x, In x l -> f x = None) ->
  Annotation.is_float64 (map f l) = true.
Proof.
  intros Hne Hf. unfold Annotation.is_float64. apply andb_true_iff. split.
  - rewrite length_map. destruct l; [contradiction | reflexivity].
  - apply forallb_forall. intros v Hv. apply in_map_iff in Hv as [x [<- Hx]].
    rewrite (Hf x Hx). reflexivity.
Qed.

(** What the script reads from a name with fewer than three fields. *)
Lemma short_path_parts (path : string) :
  is_short path = true ->
  exists first rest,
    Os.split "_" (Str.basename path) = first :: rest /\ length rest <= 1.
Proof.
  unfold is_short. intros H. apply Nat.leb_le in H.
  pose proof (split_nonempty "_" (Str.basename path)) as Hne.
  destruct (Os.split "_" (Str.basename path)) as [| first rest]; [contradiction |].
  exists first, rest. split; [reflexivity |]. simpl in H. lia.
Qed.

Lemma get_beyond {A : Type} (l : list A) (k : nat) :
  length l <= k -> Annotation.get l (Z.of_nat k) = None.
Proof.
  intros H. unfold Annotation.get.
  replace (0 <=? Z.of_nat k)%Z with true by (symmetry; apply Z.leb_le; lia).
  rewrite Nat2Z.id. apply nth_error_None, H.
Qed.

Section AnnotationFacts.

Variable listdir : string -> outcome (list string).
Variable isdir : string -> bool.
Variable glob_wav : string -> list string.
Variable glob_wav_recursive : string -> list string.
Variable to_float : string -> outcome Q.

Local Abbreviation annotate := (Annotation.annotate to_float).
Local Abbreviation annotation_frame :=
  (Annotation.annotation_frame listdir isdir glob_wav glob_wav_recursive to_float).
Local Abbreviation build_annotation_file :=
  (Annotation.build_annotation_file listdir isdir glob_wav glob_wav_recursive to_float).

(** The frame of a list of files each of which is a well-formed segment or a
    name with fewer than three fields, a segment at least among them. *)
Lemma annotate_items (val : string -> Q) (items : list (Segment + string)) :
  Forall (fun it => item_ok it = true) items ->
  (forall it, In it items ->
     match it with
     | inl sg => to_float (seg_conf sg) = Returns (val (seg_conf sg)) /\
                 to_float (seg_start sg) = Returns (val (seg_start sg)) /\
                 to_float (seg_end sg) = Returns (val (seg_end sg))
     | inr path =>
         to_float (hd EmptyString (Os.split "_" (Str.basename path)))
         = Returns (val (hd EmptyString (Os.split "_" (Str.basename path))))
     end) ->
  (items = [] \/ Exists is_segment items) ->
  exists rows,
    annotate (map item_path items) = Returns rows /\
    Permutation rows (map (item_row val) items) /\
    Sorted by_segment rows.
Proof.
  intros Hok Hval Hseg. rewrite Forall_forall in Hok.
  assert (Hpresent : forall k,
             (k = 2 \/ k = 5 \/ k = 6)%Z ->
             Annotation.is_float64
               (map (fun it => Annotation.get
                                 (Os.split "_" (Str.basename (item_path it))) k) items)
             = false).
  { intros k Hk. apply is_float64_present.
    destruct Hseg as [-> | Hex]; [left; reflexivity | right].
    apply Exists_exists in Hex as [[sg | path] [Hin Hs]]; [| destruct Hs].
    destruct (segment_path_parts sg (Hok _ Hin)) as [Hb [Hs' _]].
    exists (inl sg). cbn [item_path]. rewrite Hb, Hs'.
    destruct Hk as [-> | [-> | ->]]; eexists; (split; [exact Hin | reflexivity]). }
  unfold Annotation.annotate, Annotation.trimmed_float, Annotation.astype_float.
  rewrite !map_map.
  rewrite (traverse_map _ _ (fun it => Annotation.birdnet_conf (item_row val it))).
  2:{ intros [sg | path] Hin; cbn [item_path item_row].
      - destruct (segment_path_parts sg (Hok _ Hin)) as [Hb [Hs _]].
        rewrite Hb, Hs. cbn. destruct (Hval _ Hin) as [-> _]. reflexivity.
      - destruct (short_path_parts path (Hok _ Hin)) as (first & rest & Hs & _).
        specialize (Hval _ Hin). cbn beta iota in Hval.
        unfold short_row. cbn [Annotation.birdnet_conf]. rewrite Hs in *.
        cbn in *. rewrite Hval. reflexivity. }
  cbn [and_then]. rewrite (Hpresent 2%Z) by auto. cbn [and_then].
  rewrite (Hpresent 5%Z) by auto.
  rewrite (traverse_map _ _ (fun it => Annotation.start_time (item_row val it))).
  2:{ intros [sg | path] Hin; cbn [item_path item_row].
      - destruct (segment_path_parts sg (Hok _ Hin)) as [Hb [Hs _]].
        rewrite Hb, Hs. unfold Annotation.get. change (0 <=? 5)%Z with true.
        change (Z.to_nat 5) with 5. cbn [nth_error option_map].
        rewrite (drop_last_suffix (seg_start sg) "s"
                 : Os.drop_last 1 (seg_start sg ++ "s")%string = seg_start sg).
        destruct (Hval _ Hin) as [_ [-> _]]. reflexivity.
      - destruct (short_path_parts path (Hok _ Hin)) as (first & rest & Hs & Hlen).
        rewrite (get_beyond _ 5) by (rewrite Hs; simpl; lia). reflexivity. }
  cbn [and_then]. rewrite (Hpresent 6%Z) by auto.
  rewrite (traverse_map _ _ (fun it => Annotation.end_time (item_row val it))).
  2:{ intros [sg | path] Hin; cbn [item_path item_row].
      - destruct (segment_path_parts sg (Hok _ Hin)) as [Hb [Hs _]].
        rewrite Hb, Hs. unfold Annotation.get. change (0 <=? 6)%Z with true.
        change (Z.to_nat 6) with 6. cbn [nth_error option_map].
        rewrite (drop_last_suffix (seg_end sg) "s.wav"
                 : Os.drop_last 5 (seg_end sg ++ "s.wav")%string = seg_end sg).
        destruct (Hval _ Hin) as [_ [_ ->]]. reflexivity.
      - destruct (short_path_parts path (Hok _ Hin)) as (first & rest & Hs & Hlen).
        rewrite (get_beyond _ 6) by (rewrite Hs; simpl; lia). reflexivity. }
  cbn [and_then].
  eexists. split; [reflexivity |].
  rewrite (frame_of_maps (inr EmptyString)).
  split; [| apply sort_values_sorted].
  rewrite <- sort_values_perm.
  rewrite (map_ext_in _ (item_row val)); [reflexivity |].
  intros [sg | path] Hin; cbn [item_path item_row].
  - destruct (segment_path_parts sg (Hok _ Hin)) as [Hb [Hs Hsp]].
    unfold Os.slash. rewrite Hb, Hs, Hsp. unfold decoded, Annotation.get.
    change (Z.to_nat 2) with 2. change (Z.to_nat 3) with 3. change (Z.to_nat 4) with 4.
    cbn [Z.leb Z.compare nth_error Annotation.add
         Annotation.birdnet_conf Annotation.start_time Annotation.end_time].
    rewrite !append_assoc. reflexivity.
  - destruct (short_path_parts path (Hok _ Hin)) as (first & rest & Hs & Hlen).
    unfold short_row, Os.slash.
    rewrite (get_beyond _ 2) by (rewrite Hs; simpl; lia).
    cbn [Annotation.add Annotation.birdnet_conf Annotation.start_time
         Annotation.end_time].
    reflexivity.
Qed.

(** Segments named as BirdNET names them are decoded field by field: the
    frame written holds, sorted by segment, one row for each file, with the
    confidence, the recording [<site>_<date>_<time>.WAV], the start and end
    times and the species folder read back from its path. *)
Theorem segment_names_are_decoded (val : string -> Q) (sgs : list Segment) :
  Forall (fun sg => well_formed sg = true) sgs ->
  (forall sg, In sg sgs ->
              to_float (seg_conf sg) = Returns (val (seg_conf sg)) /\
              to_float (seg_start sg) = Returns (val (seg_start sg)) /\
              to_float (seg_end sg) = Returns (val (seg_end sg))) ->
  exists rows,
    annotate (map segment_path sgs) = Returns rows /\
    Permutation rows (map (decoded val) sgs) /\
    Sorted by_segment rows.
Proof.
  intros Hwf Hval.
  destruct (annotate_items val (map inl sgs)) as (rows & Hrows & Hperm & Hsorted).
  - apply Forall_forall. intros it Hit. apply in_map_iff in Hit as [sg [<- Hsg]].
    rewrite Forall_forall in Hwf. apply (Hwf sg Hsg).
  - intros it Hit. apply in_map_iff in Hit as [sg [<- Hsg]]. apply Hval, Hsg.
  - destruct sgs as [| sg sgs]; [left; reflexivity |].
    right. constructor. exact I.
  - rewrite !map_map in Hrows, Hperm. exists rows. repeat split; assumption.
Qed.

(** Names with fewer than three fields, their first field a number.  A frame
    of such names alone is refused: the column of third fields holds no
    string, and adding ['_'] to it raises [TypeError].  Beside a segment that
    has its fields, such a name is not refused: its row is written with the
    recording and both times missing. *)
Theorem short_segment_names (val : string -> Q) (items : list (Segment + string)) :
  items <> [] ->
  Forall (fun it => item_ok it = true) items ->
  (forall it, In it items ->
     match it with
     | inl sg => to_float (seg_conf sg) = Returns (val (seg_conf sg)) /\
                 to_float (seg_start sg) = Returns (val (seg_start sg)) /\
                 to_float (seg_end sg) = Returns (val (seg_end sg))
     | inr path =>
         to_float (hd EmptyString (Os.split "_" (Str.basename path)))
         = Returns (val (hd EmptyString (Os.split "_" (Str.basename path))))
     end) ->
  (Forall (fun it => ~ is_segment it) items ->
   annotate (map item_path items) = Raises Annotation.float_plus_str) /\
  (Exists is_segment items ->
   exists rows,
     annotate (map item_path items) = Returns rows /\
     Permutation rows (map (item_row val) items) /\
     Sorted by_segment rows /\
     forall path, In (inr path) items ->
       exists row, In row rows /\
                   Annotation.segment row = Str.basename path /\
                   Annotation.filename row = None /\
                   Annotation.start_time row = None /\
                   Annotation.end_time row = None).
Proof.
  intros Hne Hok Hval. split.
  - intros Hshort. rewrite Forall_forall in Hok, Hshort.
    unfold Annotation.annotate, Annotation.astype_float. rewrite !map_map.
    rewrite (traverse_map _ _ (fun it => Annotation.birdnet_conf (item_row val it))).
    2:{ intros [sg | path] Hin; [destruct (Hshort _ Hin); exact I |].
        cbn [item_path item_row].
        destruct (short_path_parts path (Hok _ Hin)) as (first & rest & Hs & _).
        specialize (Hval _ Hin). cbn beta iota in Hval.
        unfold short_row. cbn [Annotation.birdnet_conf]. rewrite Hs in *.
        cbn in *. rewrite Hval. reflexivity. }
    cbn [and_then]. rewrite is_float64_missing; [reflexivity | exact Hne |].
    intros [sg | path] Hin; [destruct (Hshort _ Hin); exact I |].
    cbn [item_path].
    destruct (short_path_parts path (Hok _ Hin)) as (first & rest & Hs & Hlen).
    apply (get_beyond _ 2). rewrite Hs. simpl. lia.
  - intros Hex.
    destruct (annotate_items val items Hok Hval (or_intror Hex))
      as (rows & Hrows & Hperm & Hsorted).
    exists rows. repeat split; try assumption.
    intros path Hin. exists (short_row val path). split.
    + eapply Permutation_in; [apply Permutation_sym, Hperm |].
      apply (in_map (item_row val) items (inr path) Hin).
    + repeat split.
Qed.

(** The files written, turn by turn: a frame for each directory up to the
    first that raises. *)
Lemma write_all_returns (output_dir : string) (dirs : list string)
      (frames : list (list Annotation.Row)) :
  Forall2 (fun directory rows => annotation_frame directory = Returns rows) dirs frames ->
  Annotation.write_all listdir isdir glob_wav glob_wav_recursive to_float output_dir dirs
  = (combine (map (fun directory =>
                     Os.join output_dir
                       ("annot_segments_" ++ Str.basename directory ++ ".csv"))
                  dirs) frames, None).
Proof.
  induction 1 as [| directory rows dirs frames Hd _ IH]; [reflexivity |].
  cbn [Annotation.write_all]. rewrite Hd, IH. reflexivity.
Qed.

Lemma write_all_raises (output_dir : string) (before : list string)
      (directory : string) (after : list string)
      (frames : list (list Annotation.Row)) (e : raised) :
  Forall2 (fun d rows => annotation_frame d = Returns rows) before frames ->
  annotation_frame directory = Raises e ->
  Annotation.write_all listdir isdir glob_wav glob_wav_recursive to_float output_dir
    (before ++ directory :: after)
  = (combine (map (fun d =>
                     Os.join output_dir ("annot_segments_" ++ Str.basename d ++ ".csv"))
                  before) frames, Some e).
Proof.
  intros Hb He. induction Hb as [| d rows before frames Hd _ IH].
  - cbn [app Annotation.write_all]. rewrite He. reflexivity.
  - cbn [app Annotation.write_all]. rewrite Hd, IH. reflexivity.
Qed.

Lemma subdirectories (path : string) (entries : list string) :
  filter isdir (map (Os.join path) entries)
  = map (Os.join path) (filter (fun entry => isdir (Os.join path entry)) entries).
Proof.
  induction entries as [| entry entries IH]; simpl; [reflexivity |].
  destruct (isdir (Os.join path entry)); simpl; rewrite IH; reflexivity.
Qed.

Lemma output_names (input_dir output_dir : string) (entries : list string) :
  Forall (fun entry => Os.free_of "/" entry = true) entries ->
  map (fun d => Os.join output_dir ("annot_segments_" ++ Str.basename d ++ ".csv"))
      (map (Os.join input_dir) entries)
  = map (fun entry => Os.join output_dir ("annot_segments_" ++ entry ++ ".csv")) entries.
Proof.
  intros H. rewrite map_map. apply map_ext_in. intros entry He.
  rewrite Forall_forall in H. rewrite (join_entry _ _ (H entry He)). reflexivity.
Qed.

(** One annotation file is written for each subdirectory of the input
    directory, in the order of the listing, named
    [annot_segments_<subdirectory>.csv] in the output directory and holding
    the frame of that subdirectory.  When the frame of a subdirectory raises,
    the files of the subdirectories before it are written, none after, and
    that exception ends the run. *)
Theorem annotation_files_named_after_subdirectories
        (input_dir output_dir : string) (entries : list string) :
  listdir input_dir = Returns entries ->
  Forall (fun entry => Os.free_of "/" entry = true) entries ->
  (forall frames,
      Forall2 (fun entry rows => annotation_frame (Os.join input_dir entry) = Returns rows)
              (filter (fun entry => isdir (Os.join input_dir entry)) entries) frames ->
      build_annotation_file input_dir output_dir
      = (combine (map (fun entry =>
                         Os.join output_dir ("annot_segments_" ++ entry ++ ".csv"))
                      (filter (fun entry => isdir (Os.join input_dir entry)) entries))
                 frames, None)) /\
  (forall before entry after frames e,
      filter (fun entry => isdir (Os.join input_dir entry)) entries
      = before ++ entry :: after ->
      Forall2 (fun entry rows => annotation_frame (Os.join input_dir entry) = Returns rows)
              before frames ->
      annotation_frame (Os.join input_dir entry) = Raises e ->
      build_annotation_file input_dir output_dir
      = (combine (map (fun entry =>
                         Os.join output_dir ("annot_segments_" ++ entry ++ ".csv"))
                      before)
                 frames, Some e)).
Proof.
  intros Hlist Hfree.
  assert (Hsub : Forall (fun entry => Os.free_of "/" entry = true)
                        (filter (fun entry => isdir (Os.join input_dir entry)) entries)).
  { apply Forall_forall. intros entry He. apply filter_In in He as [He _].
    rewrite Forall_forall in Hfree. apply Hfree, He. }
  unfold Annotation.build_annotation_file, Annotation.list_directories.
  rewrite Hlist. cbn [and_then]. rewrite subdirectories. split.
  - intros frames Hframes.
    rewrite (write_all_returns output_dir _ frames).
    + rewrite (output_names input_dir output_dir _ Hsub). reflexivity.
    + clear - Hframes. induction Hframes; constructor; assumption.
  - intros before entry after frames e Hsplit Hframes He.
    rewrite Hsplit in *. rewrite map_app. cbn [map].
    rewrite (write_all_raises output_dir _ _ _ frames e).
    + rewrite (output_names input_dir output_dir before); [reflexivity |].
      apply Forall_app in Hsub as [Hsub _]. exact Hsub.
    + clear - Hframes. induction Hframes; constructor; assumption.
    + exact He.
Qed.

End AnnotationFacts.

(** ** The sample runs of the classification scripts *)

Lemma file_matrix_counts_detections_witness :
  SampleDetections.merge_annot_files (SampleDetections.glob_csv "annotations")
  = Returns sample_annotations /\
  confident (1 # 2) sample_annotations <> [] /\
  exists df_clean file_path by_file site,
    Detections.load_and_filter_data SampleDetections.glob_csv
      SampleDetections.merge_annot_files "annotations" (1 # 2) = Returns df_clean /\
    Detections.create_abundance_matrix wav_label "0.5" df_clean "out"
    = [(file_path, by_file); site] /\
    let files :=
      Os.sorted_unique (map Detections.fname (confident (1 # 2) sample_annotations)) in
    let species := Detections.columns by_file in
    Detections.index by_file = map wav_label files /\
    length (Detections.cells by_file) = length files /\
    (forall f, In f files <->
               exists r, In r sample_annotations /\ Detections.fname r = f /\
                         (1 # 2 <= Detections.confidence r)%Q) /\
    (forall sp, In sp species <->
                exists r, In r sample_annotations /\ Detections.scientific_name r = sp /\
                          (1 # 2 <= Detections.confidence r)%Q) /\
    forall i j, i < length files -> j < length species ->
      nth j (nth i (Detections.cells by_file) []) 0%Z
      = Z.of_nat (length (detections_of (confident (1 # 2) sample_annotations)
                                        (nth i files "") (nth j species ""))).
Proof.
  assert (Hne : confident (1 # 2) sample_annotations <> []) by (vm_compute; discriminate).
  split; [reflexivity |]. split; [exact Hne |].
  exact (file_matrix_counts_detections SampleDetections.glob_csv
           SampleDetections.merge_annot_files wav_label "0.5" "annotations" "out" (1 # 2)
           sample_annotations eq_refl Hne).
Defined.

Lemma abundance_matrices_keep_every_detection_witness :
  SampleDetections.merge_annot_files (SampleDetections.glob_csv "annotations")
  = Returns sample_annotations /\
  confident (1 # 2) sample_annotations <> [] /\
  exists df_clean file_path by_file site_path by_site,
    Detections.load_and_filter_data SampleDetections.glob_csv
      SampleDetections.merge_annot_files "annotations" (1 # 2) = Returns df_clean /\
    Detections.create_abundance_matrix wav_label "0.5" df_clean "out"
    = [(file_path, by_file); (site_path, by_site)] /\
    grand_total by_file = 4%Z /\
    grand_total by_site = 4%Z.
Proof.
  assert (Hne : confident (1 # 2) sample_annotations <> []) by (vm_compute; discriminate).
  split; [reflexivity |]. split; [exact Hne |].
  exact (abundance_matrices_keep_every_detection SampleDetections.glob_csv
           SampleDetections.merge_annot_files wav_label "0.5" "annotations" "out" (1 # 2)
           sample_annotations eq_refl Hne).
Defined.

Lemma segment_names_are_decoded_witness :
  Forall (fun sg => well_formed sg = true)
         [SampleAnnotation.segment; SampleAnnotation.later_segment] /\
  exists rows,
    Annotation.annotate SampleAnnotation.to_float
      (map segment_path [SampleAnnotation.segment; SampleAnnotation.later_segment])
    = Returns rows /\
    Permutation rows
      (map (decoded SampleAnnotation.val)
           [SampleAnnotation.segment; SampleAnnotation.later_segment]) /\
    Sorted by_segment rows.
Proof.
  assert (Hwf : Forall (fun sg => well_formed sg = true)
                       [SampleAnnotation.segment; SampleAnnotation.later_segment])
    by (repeat constructor).
  split; [exact Hwf |].
  apply (segment_names_are_decoded SampleAnnotation.to_float SampleAnnotation.val
           [SampleAnnotation.segment; SampleAnnotation.later_segment] Hwf).
  intros sg [<- | [<- | []]]; repeat split; reflexivity.
Defined.

(** A segment with its fields beside a clip with two: both get a row, the
    clip's without recording and times; the clip alone is refused. *)
Lemma short_segment_names_witness :
  Forall (fun it => item_ok it = true)
         [inl SampleAnnotation.segment; inr "Turdus fuscater/0.9_clip.wav"] /\
  (exists rows,
      Annotation.annotate SampleAnnotation.to_float
        (map item_path [inl SampleAnnotation.segment; inr "Turdus fuscater/0.9_clip.wav"])
      = Returns rows /\
      Permutation rows
        (map (item_row SampleAnnotation.val)
             [inl SampleAnnotation.segment; inr "Turdus fuscater/0.9_clip.wav"]) /\
      Sorted by_segment rows /\
      forall path,
        In (inr path) [inl SampleAnnotation.segment; inr "Turdus fuscater/0.9_clip.wav"] ->
        exists row, In row rows /\
                    Annotation.segment row = Str.basename path /\
                    Annotation.filename row = None /\
                    Annotation.start_time row = None /\
                    Annotation.end_time row = None) /\
  Annotation.annotate SampleAnnotation.to_float ["Turdus fuscater/0.9_clip.wav"]
  = Raises Annotation.float_plus_str.
Proof.
  assert (Hok : Forall (fun it => item_ok it = true)
                       [inl SampleAnnotation.segment; inr "Turdus fuscater/0.9_clip.wav"])
    by (repeat constructor).
  split; [exact Hok |]. split.
  - refine (proj2 (short_segment_names SampleAnnotation.to_float SampleAnnotation.val
                     [inl SampleAnnotation.segment; inr "Turdus fuscater/0.9_clip.wav"]
                     _ Hok _) _).
    + discriminate.
    + intros it [<- | [<- | []]]; repeat split; reflexivity.
    + constructor. exact I.
  - refine (proj1 (short_segment_names SampleAnnotation.to_float SampleAnnotation.val
                     [inr "Turdus fuscater/0.9_clip.wav"] _ _ _) _).
    + discriminate.
    + repeat constructor.
    + intros it [<- | []]. reflexivity.
    + repeat constructor. intros H. exact H.
Defined.

(** The sample run of [build_annotation_file]: one file for the one
    subdirectory, its two segments sorted by name. *)
Lemma annotation_files_named_after_subdirectories_witness :
  Forall (fun entry => Os.free_of "/" entry = true) ["run1"; "notes.txt"] /\
  Annotation.build_annotation_file SampleAnnotation.listdir SampleAnnotation.isdir
    SampleAnnotation.glob_wav SampleAnnotation.glob_wav_recursive
    SampleAnnotation.to_float "segments" "out"
  = ([("out/annot_segments_run1.csv",
       [decoded SampleAnnotation.val SampleAnnotation.later_segment;
        decoded SampleAnnotation.val SampleAnnotation.segment])], None).
Proof.
  assert (Hfree : Forall (fun entry => Os.free_of "/" entry = true) ["run1"; "notes.txt"])
    by (repeat constructor).
  split; [exact Hfree |].
  refine (proj1 (annotation_files_named_after_subdirectories SampleAnnotation.listdir
                   SampleAnnotation.isdir SampleAnnotation.glob_wav
                   SampleAnnotation.glob_wav_recursive SampleAnnotation.to_float
                   "segments" "out" ["run1"; "notes.txt"] eq_refl Hfree)
                [[decoded SampleAnnotation.val SampleAnnotation.later_segment;
                  decoded SampleAnnotation.val SampleAnnotation.segment]] _).
  constructor; [vm_compute; reflexivity | constructor].
Defined.
